(** * Bhindi_mem: graph store, intent executor and context retriever

    A shallow embedding of [src/graph_manager.py], [src/crud_executor.py]
    and [src/memory_retriever.py], and of the parts of [src/gpt_parser.py]
    and [src/response_generator.py] that do not call the language model,
    with the properties of the store, the executor, the retriever, the
    intent classifier and the fallback responses stated over it.

    Conventions of the embedding:
    - Python [str] is [string]; [lower], [strip] and [split] are modelled on
      ASCII text (other bytes are left alone by [lower] and are never white
      space).
    - Python [float] is [spec_float] (IEEE 754 binary64 as the Standard
      Library specifies it), so [<] is [SFltb], NaN included.
    - Python [dict] with string keys is [gmap string _]; [{**a, **b}] and
      [a.update(b)] are the left-biased union [b ∪ a].
    - The Neo4j driver is outside the repository: it is the class [Backend],
      an arbitrary transition function from a query text and its parameters
      to the records returned ([None] when the driver raises).
    - Python [set] is [gset]; membership is equality of scalars as they are
      written ([1], [1.0] and [True] are three elements, not one).
    - The store and the log of what was called and sent are threaded through
      a state monad [M]; the log is ghost state, the code never reads it.
    - A Python exception is [None] in an option type, at the place where
      the code catches it. *)

From Stdlib Require Import ZArith String Ascii List SpecFloat.
From stdpp Require Import gmap strings list fin_maps pretty sorting.

Local Open Scope Z_scope.

(** ** Python [str] methods *)

Module PyStr.

(** [str.isspace] on one ASCII character: TAB, LF, VT, FF, CR, the four
    separators FS GS RS US, and the space. *)
Definition is_space (c : ascii) : bool :=
  let n := N_of_ascii c in
  ((9 <=? n) && (n <=? 13) || (28 <=? n) && (n <=? 32))%N.

Definition lower_char (c : ascii) : ascii :=
  let n := N_of_ascii c in
  if ((65 <=? n) && (n <=? 90))%N then ascii_of_N (n + 32) else c.

(** [s.lower()] *)
Fixpoint lower (s : string) : string :=
  match s with
  | EmptyString => EmptyString
  | String c s' => String (lower_char c) (lower s')
  end.

Fixpoint lstrip_by (p : ascii → bool) (s : string) : string :=
  match s with
  | EmptyString => EmptyString
  | String c s' => if p c then lstrip_by p s' else s
  end.

Definition rstrip_by (p : ascii → bool) (s : string) : string :=
  String.rev (lstrip_by p (String.rev s)).

Definition strip_by (p : ascii → bool) (s : string) : string :=
  rstrip_by p (lstrip_by p s).

(** [s.strip()] *)
Definition strip (s : string) : string := strip_by is_space s.

Fixpoint mem_char (c : ascii) (chars : string) : bool :=
  match chars with
  | EmptyString => false
  | String d chars' => if Ascii.eqb c d then true else mem_char c chars'
  end.

(** [s.strip(chars)]: both ends, every character of [chars]. *)
Definition strip_chars (chars s : string) : string :=
  strip_by (λ c, mem_char c chars) s.

Definition flush (cur : string) : list string :=
  match cur with
  | EmptyString => []
  | _ => [String.rev cur]
  end.

(** [s.split()]: maximal runs of characters that are not white space.
    [cur] is the current run, last character first. *)
Fixpoint split_go (cur : string) (s : string) : list string :=
  match s with
  | EmptyString => flush cur
  | String c s' =>
      if is_space c then flush cur ++ split_go EmptyString s'
      else split_go (String c cur) s'
  end.

Definition split (s : string) : list string := split_go EmptyString s.

(** [len(s)] *)
Definition len (s : string) : Z := Z.of_nat (String.length s).

(** Truth value of a [str]. *)
Definition truthy (s : string) : bool :=
  match s with EmptyString => false | _ => true end.

End PyStr.

(** ** Values *)

(** Property values: the scalars a property bag holds. *)
Inductive scalar : Type :=
  | SNone
  | SBool (b : bool)
  | SInt (z : Z)
  | SFloat (f : spec_float)
  | SStr (s : string).

Global Instance spec_float_eq_dec : EqDecision spec_float.
Proof. solve_decision. Defined.

Global Instance scalar_eq_dec : EqDecision scalar.
Proof. solve_decision. Defined.

Definition scalar_to_sum (a : scalar)
  : unit + bool + Z + (bool + bool + unit + bool * positive * Z) + string :=
  match a with
  | SNone => inl (inl (inl (inl tt)))
  | SBool b => inl (inl (inl (inr b)))
  | SInt z => inl (inl (inr z))
  | SFloat (S754_zero s) => inl (inr (inl (inl (inl s))))
  | SFloat (S754_infinity s) => inl (inr (inl (inl (inr s))))
  | SFloat S754_nan => inl (inr (inl (inr tt)))
  | SFloat (S754_finite s m e) => inl (inr (inr (s, m, e)))
  | SStr s => inr s
  end.

Definition scalar_of_sum
  (x : unit + bool + Z + (bool + bool + unit + bool * positive * Z) + string)
  : scalar :=
  match x with
  | inl (inl (inl (inl _))) => SNone
  | inl (inl (inl (inr b))) => SBool b
  | inl (inl (inr z)) => SInt z
  | inl (inr (inl (inl (inl s)))) => SFloat (S754_zero s)
  | inl (inr (inl (inl (inr s)))) => SFloat (S754_infinity s)
  | inl (inr (inl (inr _))) => SFloat S754_nan
  | inl (inr (inr (s, m, e))) => SFloat (S754_finite s m e)
  | inr s => SStr s
  end.

Global Instance scalar_countable : Countable scalar.
Proof.
  apply (inj_countable' scalar_to_sum scalar_of_sum).
  intros [| | |[]|]; reflexivity.
Defined.

(** Truth value of a scalar, as [if x:] reads it. *)
Definition scalar_truthy (a : scalar) : bool :=
  match a with
  | SNone => false
  | SBool b => b
  | SInt z => negb (z =? 0)
  | SFloat (S754_zero _) => false
  | SFloat _ => true
  | SStr s => PyStr.truthy s
  end.

(** What the driver hands back in a record column, and what a query
    parameter holds: scalars, lists, maps, and the two graph objects
    ([neo4j.graph.Node], and [neo4j.graph.Relationship], whose class name is
    the relationship type). *)
#[warnings="-register-all"]
Inductive pyval : Type :=
  | Atom (a : scalar)
  | PList (l : list pyval)
  | PDict (d : gmap string pyval)
  | PNode (p : gmap string scalar)
  | PRel (rtype : string) (p : gmap string scalar).

Abbreviation pydict := (gmap string pyval).
Abbreviation node := (gmap string scalar).

(** Truth value. The driver's graph objects are mappings over their
    properties: like a dictionary, one without properties is false. *)
Definition pyval_truthy (v : pyval) : bool :=
  match v with
  | Atom a => scalar_truthy a
  | PList l => match l with [] => false | _ => true end
  | PDict d => match map_to_list d with [] => false | _ => true end
  | PNode p | PRel _ p => match map_to_list p with [] => false | _ => true end
  end.

(** [d.get(k)] followed by a truth test: a missing key reads as [None]. *)
Definition get_truthy (v : option pyval) : bool :=
  match v with
  | Some x => pyval_truthy x
  | None => false
  end.

(** [dict(x)]; [None] is the [TypeError] (or [ValueError]) of something
    that is not a mapping. The empty list is the only list accepted. *)
Definition to_dict (v : pyval) : option pydict :=
  match v with
  | PDict d => Some d
  | PNode p | PRel _ p => Some (Atom <$> p)
  | PList [] => Some ∅
  | _ => None
  end.

(** [type(x).__name__] *)
Definition type_name (v : pyval) : string :=
  match v with
  | Atom SNone => "NoneType"
  | Atom (SBool _) => "bool"
  | Atom (SInt _) => "int"
  | Atom (SFloat _) => "float"
  | Atom (SStr _) => "str"
  | PList _ => "list"
  | PDict _ => "dict"
  | PNode _ => "Node"
  | PRel t _ => t
  end.

(** ** Extraction candidates ([gpt_parser.py]) *)

Record Entity := {
  name : string;
  type : string;
  properties : node;
  confidence : spec_float
}.

Record Relationship := {
  from_entity : string;
  to_entity : string;
  rel_type : string;
  rel_properties : node;
  rel_confidence : spec_float
}.

Record ParsedConversation := {
  intent : string;
  entities : list Entity;
  relationships : list Relationship;
  parsed_confidence : spec_float;
  raw_response : string
}.

(** The literal [0.3]: the binary64 number nearest to 3/10,
    [0x1.3333333333333p-2]. *)
Definition float_0_3 : spec_float := S754_finite false 5404319552844595 (-54).

(** [a < b] on floats. *)
Definition float_lt (a b : spec_float) : bool := SFltb a b.

(** ** The backend and the state monad *)

(** The driver, seen from [graph_manager.py]: [session.run(query, params)]
    answers with the records of the result, or raises ([None]); the database
    moves on either way. *)
Class Backend := {
  db : Type;
  run : string → pydict → db → option (list pydict) * db
}.

(** The methods of [GraphManager] a caller can invoke, with their
    arguments. *)
Inductive call : Type :=
  | call_create_or_update_node (name node_type : string) (props : node)
  | call_create_relationship (from_node to_node rel_type : string) (props : node)
  | call_get_node (name : string)
  | call_get_node_with_relationships (name : string)
  | call_get_all_nodes
  | call_get_nodes_by_type (node_type : string)
  | call_search_nodes_by_name (search_term : string)
  | call_get_node_relationships (name : pyval)
  | call_update_node_properties (name : string) (props : node)
  | call_delete_node (name : string)
  | call_delete_relationship (from_node to_node rel_type : string)
  | call_get_graph_statistics.

(** [get_graph_statistics]'s result: the four entries, or the [error]
    dictionary. The two type tables are dictionaries in insertion order. *)
Inductive stats : Type :=
  | Stats (nodes relationships : pyval)
          (node_types relationship_types : list (scalar * pyval))
  | StatsError.

Section Dict.
Context {V : Type}.

(** [d[k] = v] on a dictionary kept in insertion order. *)
Fixpoint dict_set (k : scalar) (v : V) (d : list (scalar * V))
  : list (scalar * V) :=
  match d with
  | [] => [(k, v)]
  | (k', v') :: d' =>
      if decide (k = k') then (k, v) :: d' else (k', v') :: dict_set k v d'
  end.

(** [d.get(k, default)] *)
Fixpoint dict_get (k : scalar) (default : V) (d : list (scalar * V)) : V :=
  match d with
  | [] => default
  | (k', v') :: d' => if decide (k = k') then v' else dict_get k default d'
  end.
End Dict.

Section Store.
Context `{Backend}.

(** [self.driver] is either a driver or [None]; in the second case
    [connect] has created the two demo lists. *)
Inductive GraphManager : Type :=
  | Driver (driver : db)
  | NoDriver (_demo_nodes : list node) (_demo_relationships : list pydict).

(** The store, and the log: the methods called and the queries handed to
    [session.run], oldest first. *)
Record world : Type := {
  graph_manager : GraphManager;
  calls : list call;
  queries : list (string * pydict)
}.

Definition M (A : Type) : Type := world → A * world.

#[export] Instance M_ret : MRet M := λ A x w, (x, w).
#[export] Instance M_bind : MBind M :=
  λ A B f m w, let '(a, w') := m w in f a w'.

Definition get_store : M GraphManager := λ w, (graph_manager w, w).

Definition put_store (g : GraphManager) : M unit :=
  λ w, (tt, {| graph_manager := g; calls := calls w; queries := queries w |}).

Definition log_call (c : call) : M unit :=
  λ w, (tt, {| graph_manager := graph_manager w;
               calls := calls w ++ [c];
               queries := queries w |}).

(** [with self.driver.session() as session: session.run(query, params)] *)
Definition session_run (query : string) (params : pydict)
  : M (option (list pydict)) :=
  λ w, match graph_manager w with
       | Driver d =>
           let '(r, d') := run query params d in
           (r, {| graph_manager := Driver d';
                  calls := calls w;
                  queries := queries w ++ [(query, params)] |})
       | NoDriver _ _ => (None, w)
       end.

(** [connect] when the driver cannot be reached. *)
Definition connect_failed : world :=
  {| graph_manager := NoDriver [] []; calls := []; queries := [] |}.

(** [connect] when the driver answers. *)
Definition connected (d : db) : world :=
  {| graph_manager := Driver d; calls := []; queries := [] |}.

(** [result.single() is not None] *)
Definition single_is_not_None (r : option (list pydict)) : bool :=
  match r with
  | Some (_ :: _) => true
  | _ => false
  end.

(** [record[key]], [None] for the [KeyError]. *)
Definition column (record : pydict) (key : string) : option pyval :=
  record !! key.

(** [dict(record["n"])] *)
Definition node_of_record (record : pydict) : option pydict :=
  column record "n" ≫= to_dict.

(** ** [graph_manager.py] *)

Definition demo_timestamp : scalar := SStr "demo_timestamp".

(** [node.get('name') == name] *)
Definition name_is (n : node) (name : string) : bool :=
  bool_decide (n !! "name" = Some (SStr name)).

(** [{'type': node_type, **properties, 'updated_at': 'demo_timestamp'}] *)
Definition demo_update_fields (node_type : string) (properties : node) : node :=
  <["updated_at" := demo_timestamp]> (properties ∪ {["type" := SStr node_type]}).

(** [{'name': name, 'type': node_type, **properties,
      'created_at': 'demo_timestamp'}] *)
Definition demo_new_node (name node_type : string) (properties : node) : node :=
  <["created_at" := demo_timestamp]>
    (properties ∪ <["type" := SStr node_type]> {["name" := SStr name]}).

(** The [for i, node in enumerate(self._demo_nodes)] loop: the first node
    whose name matches is updated in place; [None] when the loop ends
    without a match. *)
Fixpoint demo_update_first (name node_type : string) (properties : node)
    (nodes : list node) : option (list node) :=
  match nodes with
  | [] => None
  | n :: rest =>
      if name_is n name
      then Some ((demo_update_fields node_type properties ∪ n) :: rest)
      else (n ::.) <$> demo_update_first name node_type properties rest
  end.

(** Only called without a driver; the [Driver] case is there to make the
    function total. *)
Definition _demo_create_or_update_node (name node_type : string)
    (properties : node) : M bool :=
  gm ← get_store;
  match gm with
  | NoDriver nodes rels =>
      match demo_update_first name node_type properties nodes with
      | Some nodes' => put_store (NoDriver nodes' rels);; mret true
      | None =>
          put_store
            (NoDriver (nodes ++ [demo_new_node name node_type properties]) rels);;
          mret true
      end
  | Driver _ => mret true
  end.

Definition create_or_update_node_query : string :=
"
                MERGE (n {name: $name})
                SET n.type = $node_type
                SET n += $properties
                SET n.updated_at = datetime()
                RETURN n
                ".

Definition create_or_update_node (name node_type : string)
    (properties : node) : M bool :=
  log_call (call_create_or_update_node name node_type properties);;
  gm ← get_store;
  match gm with
  | NoDriver _ _ => _demo_create_or_update_node name node_type properties
  | Driver _ =>
      r ← session_run create_or_update_node_query
            (<["name" := Atom (SStr name)]>
             (<["node_type" := Atom (SStr node_type)]>
              {["properties" := PDict (Atom <$> properties)]}));
      mret (single_is_not_None r)
  end.

Definition create_relationship_query_head : string :=
"
                MATCH (a {name: $from_node})
                MATCH (b {name: $to_node})
                MERGE (a)-[r:".

Definition create_relationship_query_tail : string :=
"]->(b)
                SET r += $properties
                SET r.created_at = datetime()
                RETURN r
                ".

(** [query_text % rel_type] with the single [%s] of the template. *)
Definition create_relationship_query (rel_type : string) : string :=
  create_relationship_query_head +:+ rel_type +:+ create_relationship_query_tail.

Definition create_relationship (from_node to_node rel_type : string)
    (properties : node) : M bool :=
  log_call (call_create_relationship from_node to_node rel_type properties);;
  gm ← get_store;
  match gm with
  | NoDriver _ _ => mret false
  | Driver _ =>
      r ← session_run (create_relationship_query rel_type)
            (<["from_node" := Atom (SStr from_node)]>
             (<["to_node" := Atom (SStr to_node)]>
              {["properties" := PDict (Atom <$> properties)]}));
      mret (single_is_not_None r)
  end.

Definition get_node_query : string := "MATCH (n {name: $name}) RETURN n".

Definition get_node (name : string) : M (option pydict) :=
  log_call (call_get_node name);;
  gm ← get_store;
  match gm with
  | NoDriver _ _ => mret None
  | Driver _ =>
      r ← session_run get_node_query {["name" := Atom (SStr name)]};
      mret (match r with
            | Some (record :: _) => node_of_record record
            | _ => None
            end)
  end.

Definition get_node_with_relationships_query : string :=
"
                MATCH (n {name: $name})
                OPTIONAL MATCH (n)-[r]-(connected)
                RETURN n, collect({
                    relationship: r,
                    connected_node: connected,
                    direction: CASE 
                        WHEN startNode(r) = n THEN 'outgoing'
                        ELSE 'incoming'
                    END
                }) as relationships
                ".

(** [x[key]] on a value that should be a map: [None] for the [KeyError]
    and for the [TypeError] of a value without string keys. *)
Definition item (x : pyval) (key : string) : option pyval :=
  match x with
  | PDict d => d !! key
  | PNode p | PRel _ p => Atom <$> p !! key
  | _ => None
  end.

(** [for x in v] where the body indexes [x] with a string: a list gives
    its elements, an empty map or an empty string gives nothing, and any
    other value ends in a [TypeError] at the [for] or at the first
    indexing (the elements of a map or of a string are strings). *)
Definition iterate (v : pyval) : option (list pyval) :=
  match v with
  | PList l => Some l
  | PDict d => match map_to_list d with [] => Some [] | _ => None end
  | PNode p | PRel _ p => match map_to_list p with [] => Some [] | _ => None end
  | Atom (SStr EmptyString) => Some []
  | _ => None
  end.

(** One turn of [for rel_data in record["relationships"]]: the entry
    appended, if any; the outer [None] is an exception. *)
Definition relationship_entry (rel_data : pyval) : option (option pyval) :=
  r ← item rel_data "relationship";
  if pyval_truthy r then
    props ← to_dict r;
    c ← item rel_data "connected_node";
    connected ← to_dict c;
    direction ← item rel_data "direction";
    Some (Some (PDict (<["type" := Atom (SStr (type_name r))]>
                       (<["properties" := PDict props]>
                        (<["connected_node" := PDict connected]>
                         {["direction" := direction]})))))
  else Some None.

Definition node_data_of_record (record : pydict) : option pydict :=
  n ← node_of_record record;
  rels ← column record "relationships";
  l ← iterate rels;
  entries ← mapM relationship_entry l;
  Some (<["node" := PDict n]>
        {["relationships" := PList (omap id entries)]}).

Definition get_node_with_relationships (name : string) : M (option pydict) :=
  log_call (call_get_node_with_relationships name);;
  gm ← get_store;
  match gm with
  | NoDriver _ _ => mret None
  | Driver _ =>
      r ← session_run get_node_with_relationships_query
            {["name" := Atom (SStr name)]};
      mret (match r with
            | Some (record :: _) => node_data_of_record record
            | _ => None
            end)
  end.

(** [for record in result: nodes.append(dict(record["n"]))]; an
    exception anywhere gives the empty list. *)
Definition nodes_of_result (r : option (list pydict)) : list pydict :=
  match r ≫= mapM node_of_record with
  | Some nodes => nodes
  | None => []
  end.

Definition get_all_nodes_query : string := "MATCH (n) RETURN n ORDER BY n.name".

Definition get_all_nodes : M (list pydict) :=
  log_call call_get_all_nodes;;
  gm ← get_store;
  match gm with
  | NoDriver _ _ => mret []
  | Driver _ =>
      r ← session_run get_all_nodes_query ∅;
      mret (nodes_of_result r)
  end.

Definition get_nodes_by_type_query : string :=
  "MATCH (n {type: $node_type}) RETURN n ORDER BY n.name".

Definition get_nodes_by_type (node_type : string) : M (list pydict) :=
  log_call (call_get_nodes_by_type node_type);;
  gm ← get_store;
  match gm with
  | NoDriver _ _ => mret []
  | Driver _ =>
      r ← session_run get_nodes_by_type_query
            {["node_type" := Atom (SStr node_type)]};
      mret (nodes_of_result r)
  end.

Definition search_nodes_by_name_query : string :=
"
                MATCH (n) 
                WHERE toLower(n.name) CONTAINS toLower($search_term)
                RETURN n 
                ORDER BY n.name
                LIMIT 20
                ".

Definition search_nodes_by_name (search_term : string) : M (list pydict) :=
  log_call (call_search_nodes_by_name search_term);;
  gm ← get_store;
  match gm with
  | NoDriver _ _ => mret []
  | Driver _ =>
      r ← session_run search_nodes_by_name_query
            {["search_term" := Atom (SStr search_term)]};
      mret (nodes_of_result r)
  end.

Definition get_node_relationships_query : string :=
"
                MATCH (n {name: $name})-[r]-(connected)
                RETURN type(r) as relationship_type, 
                       properties(r) as properties,
                       connected.name as connected_name,
                       connected.type as connected_type,
                       CASE 
                           WHEN startNode(r) = n THEN 'outgoing'
                           ELSE 'incoming'
                       END as direction
                ".

(** The dictionary [get_node_relationships] builds from one record. *)
Definition relationship_view (record : pydict) : option pydict :=
  relationship_type ← column record "relationship_type";
  props ← column record "properties" ≫= to_dict;
  connected_name ← column record "connected_name";
  connected_type ← column record "connected_type";
  direction ← column record "direction";
  Some (<["type" := relationship_type]>
        (<["properties" := PDict props]>
         (<["target_name" := connected_name]>
          (<["target_type" := connected_type]>
           {["direction" := direction]})))).

Definition get_node_relationships (name : pyval) : M (list pydict) :=
  log_call (call_get_node_relationships name);;
  gm ← get_store;
  match gm with
  | NoDriver _ _ => mret []
  | Driver _ =>
      r ← session_run get_node_relationships_query {["name" := name]};
      mret (match r ≫= mapM relationship_view with
            | Some relationships => relationships
            | None => []
            end)
  end.

Definition update_node_properties_query : string :=
"
                MATCH (n {name: $name})
                SET n += $properties
                SET n.updated_at = datetime()
                RETURN n
                ".

Definition update_node_properties (name : string) (properties : node) : M bool :=
  log_call (call_update_node_properties name properties);;
  gm ← get_store;
  match gm with
  | NoDriver _ _ => mret false
  | Driver _ =>
      r ← session_run update_node_properties_query
            (<["name" := Atom (SStr name)]>
             {["properties" := PDict (Atom <$> properties)]});
      mret (single_is_not_None r)
  end.

Definition delete_node_query : string :=
"
                MATCH (n {name: $name})
                DETACH DELETE n
                ".

Definition delete_node (name : string) : M bool :=
  log_call (call_delete_node name);;
  gm ← get_store;
  match gm with
  | NoDriver _ _ => mret false
  | Driver _ =>
      r ← session_run delete_node_query {["name" := Atom (SStr name)]};
      mret (match r with Some _ => true | None => false end)
  end.

Definition delete_relationship_query_head : string :=
"
                MATCH (a {name: $from_node})-[r:".

Definition delete_relationship_query_tail : string :=
"]->(b {name: $to_node})
                DELETE r
                ".

Definition delete_relationship_query (rel_type : string) : string :=
  delete_relationship_query_head +:+ rel_type +:+ delete_relationship_query_tail.

Definition delete_relationship (from_node to_node rel_type : string) : M bool :=
  log_call (call_delete_relationship from_node to_node rel_type);;
  gm ← get_store;
  match gm with
  | NoDriver _ _ => mret false
  | Driver _ =>
      r ← session_run (delete_relationship_query rel_type)
            (<["from_node" := Atom (SStr from_node)]>
             {["to_node" := Atom (SStr to_node)]});
      mret (match r with Some _ => true | None => false end)
  end.

(** The demo-mode loop of [get_graph_statistics]:
    [node_types[t] = node_types.get(t, 0) + 1] for every node. *)
Definition demo_node_types (nodes : list node) : list (scalar * Z) :=
  foldl (λ node_types n,
           let node_type := default (SStr "Unknown") (n !! "type") in
           dict_set node_type (dict_get node_type 0 node_types + 1) node_types)
        [] nodes.

(** [{record[key]: record["count"] for record in result}]; a key that
    cannot be hashed raises. *)
Definition count_table (key : string) (records : list pydict)
  : option (list (scalar * pyval)) :=
  foldl (λ acc record,
           table ← acc;
           k ← column record key;
           v ← column record "count";
           match k with
           | Atom a => Some (dict_set a v table)
           | _ => None
           end)
        (Some []) records.

(** [result.single()[key]] *)
Definition single_column (r : option (list pydict)) (key : string)
  : option pyval :=
  match r with
  | Some (record :: _) => column record key
  | _ => None
  end.

Definition node_count_query : string := "MATCH (n) RETURN count(n) as node_count".
Definition rel_count_query : string := "MATCH ()-[r]->() RETURN count(r) as rel_count".

Definition node_types_query : string :=
"
                    MATCH (n) 
                    WHERE n.type IS NOT NULL
                    RETURN n.type as type, count(n) as count
                    ORDER BY count DESC
                ".

Definition relationship_types_query : string :=
"
                    MATCH ()-[r]->() 
                    RETURN type(r) as rel_type, count(r) as count
                    ORDER BY count DESC
                ".

Definition get_graph_statistics : M stats :=
  log_call call_get_graph_statistics;;
  gm ← get_store;
  match gm with
  | NoDriver nodes rels =>
      mret (Stats (Atom (SInt (Z.of_nat (length nodes))))
                  (Atom (SInt (Z.of_nat (length rels))))
                  ((λ kc : scalar * Z, (kc.1, Atom (SInt kc.2))) <$> demo_node_types nodes)
                  [])
  | Driver _ =>
      node_result ← session_run node_count_query ∅;
      match single_column node_result "node_count" with
      | None => mret StatsError
      | Some node_count =>
          rel_result ← session_run rel_count_query ∅;
          match single_column rel_result "rel_count" with
          | None => mret StatsError
          | Some rel_count =>
              type_result ← session_run node_types_query ∅;
              match type_result ≫= count_table "type" with
              | None => mret StatsError
              | Some node_types =>
                  rel_type_result ← session_run relationship_types_query ∅;
                  match rel_type_result ≫= count_table "rel_type" with
                  | None => mret StatsError
                  | Some relationship_types =>
                      mret (Stats node_count rel_count node_types
                                  relationship_types)
                  end
              end
          end
      end
  end.

(** [config.RELATIONSHIP_TYPES]. [graph_manager.py] imports the list and
    never reads it. *)
Definition RELATIONSHIP_TYPES : list string :=
  ["KNOWS"; "LIKES"; "DISLIKES"; "WORKS_AT"; "LIVES_IN";
   "ATTENDED"; "SKILLED_IN"; "WANTS_TO"; "REMEMBERS";
   "RELATED_TO"; "PART_OF"; "CREATED"; "LEARNED"].

(** ** [crud_executor.py] *)

Inductive result_data : Type :=
  | DataNone
  | DataStats (s : stats)
  | DataList (l : list pydict).

Record Result : Type := {
  result_intent : string;
  success : bool;
  message : string;
  entities_processed : Z;
  relationships_processed : Z;
  data : result_data
}.

Definition generic_names : list string :=
  ["thing"; "stuff"; "something"; "anything"; "everything"].

Definition _should_process_entity (entity : Entity) : bool :=
  if float_lt (confidence entity) float_0_3 then false
  else if negb (PyStr.truthy (name entity))
          || negb (PyStr.truthy (PyStr.strip (name entity))) then false
  else if bool_decide (PyStr.lower (name entity) ∈ generic_names) then false
  else true.

Definition _should_process_relationship (relationship : Relationship) : bool :=
  if float_lt (rel_confidence relationship) float_0_3 then false
  else if negb (PyStr.truthy (from_entity relationship))
          || negb (PyStr.truthy (to_entity relationship))
          || negb (PyStr.truthy (PyStr.strip (from_entity relationship)))
          || negb (PyStr.truthy (PyStr.strip (to_entity relationship)))
       then false
  else if String.eqb (PyStr.lower (from_entity relationship))
                     (PyStr.lower (to_entity relationship)) then false
  else true.

(** [f"{a} {n} entities and {m} relationships"] *)
Definition count_message (verb : string) (n m : Z) : string :=
  verb +:+ " " +:+ pretty n +:+ " entities and " +:+ pretty m +:+ " relationships".

(** [result.update({...})] of the three writing paths. *)
Definition update_counts (result : Result) (verb : string) (n m : Z) : Result :=
  {| result_intent := result_intent result;
     success := (0 <? n) || (0 <? m);
     message := count_message verb n m;
     entities_processed := n;
     relationships_processed := m;
     data := data result |}.

(** A [for x in xs:] loop whose body may add one to a counter. *)
Fixpoint count_loop {A : Type} (body : A → M bool) (xs : list A) (n : Z) : M Z :=
  match xs with
  | [] => mret n
  | x :: xs' =>
      body x ≫= λ counted : bool,
        count_loop body xs' (if counted then n + 1 else n)
  end.

Definition create_entity_body (entity : Entity) : M bool :=
  if _should_process_entity entity
  then create_or_update_node (name entity) (type entity) (properties entity)
  else mret false.

Definition create_relationship_body (relationship : Relationship) : M bool :=
  if _should_process_relationship relationship
  then create_relationship (from_entity relationship) (to_entity relationship)
         (rel_type relationship) (rel_properties relationship)
  else mret false.

Definition _execute_create (parsed : ParsedConversation) (result : Result)
  : M Result :=
  entities_created ← count_loop create_entity_body (entities parsed) 0;
  relationships_created ←
    count_loop create_relationship_body (relationships parsed) 0;
  mret (update_counts result "Created" entities_created relationships_created).

(** Truth value of an [Optional[Dict]]. *)
Definition dict_truthy (d : option pydict) : bool :=
  match d with
  | Some m => pyval_truthy (PDict m)
  | None => false
  end.

(** A [for x in xs:] loop whose body extends a list. *)
Fixpoint extend_loop {A B : Type} (body : A → M (list B)) (xs : list A)
    (acc : list B) : M (list B) :=
  match xs with
  | [] => mret acc
  | x :: xs' =>
      body x ≫= λ found : list B, extend_loop body xs' (acc ++ found)
  end.

Definition read_entity_body (entity : Entity) : M (list pydict) :=
  if negb (String.eqb (PyStr.lower (name entity)) "user") then
    get_node_with_relationships (name entity) ≫= λ node_data : option pydict,
      mret (if dict_truthy node_data then option_list node_data else [])
  else mret [].

Definition read_type_body (entity : Entity) : M (list pydict) :=
  if PyStr.truthy (type entity) && negb (String.eqb (type entity) "Person")
  then get_nodes_by_type (type entity)
  else mret [].

Definition is_empty {A : Type} (l : list A) : bool :=
  match l with [] => true | _ => false end.

Definition _execute_read (parsed : ParsedConversation) (result : Result)
  : M Result :=
  if is_empty (entities parsed) then
    get_graph_statistics ≫= λ s : stats,
      mret {| result_intent := result_intent result;
              success := true;
              message := "Retrieved graph overview";
              entities_processed := entities_processed result;
              relationships_processed := relationships_processed result;
              data := DataStats s |}
  else
    extend_loop read_entity_body (entities parsed) []
      ≫= λ query_results : list pydict,
    (if is_empty query_results && negb (is_empty (entities parsed))
     then extend_loop read_type_body (entities parsed) query_results
     else mret query_results)
      ≫= λ query_results : list pydict,
    let found := Z.of_nat (length query_results) in
    mret {| result_intent := result_intent result;
            success := 0 <? found;
            message := "Found " +:+ pretty found +:+ " results";
            entities_processed := found;
            relationships_processed := relationships_processed result;
            data := DataList query_results |}.

Definition update_entity_body (entity : Entity) : M bool :=
  if _should_process_entity entity
     && negb (String.eqb (PyStr.lower (name entity)) "user")
  then
    get_node (name entity) ≫= λ existing : option pydict,
      if dict_truthy existing
      then update_node_properties (name entity) (properties entity)
      else mret false
  else mret false.

Definition update_relationship_body (relationship : Relationship) : M bool :=
  if _should_process_relationship relationship then
    delete_relationship (from_entity relationship) (to_entity relationship)
      (rel_type relationship);;
    create_relationship (from_entity relationship) (to_entity relationship)
      (rel_type relationship) (rel_properties relationship)
  else mret false.

Definition _execute_update (parsed : ParsedConversation) (result : Result)
  : M Result :=
  entities_updated ← count_loop update_entity_body (entities parsed) 0;
  relationships_updated ←
    count_loop update_relationship_body (relationships parsed) 0;
  mret (update_counts result "Updated" entities_updated relationships_updated).

(** [["user", "me", "i"]], the names [_execute_delete] never deletes. *)
Definition protected_names : list string := ["user"; "me"; "i"].

Definition delete_relationship_body (relationship : Relationship) : M bool :=
  if _should_process_relationship relationship
  then delete_relationship (from_entity relationship) (to_entity relationship)
         (rel_type relationship)
  else mret false.

Definition delete_entity_body (entity : Entity) : M bool :=
  if _should_process_entity entity
     && negb (bool_decide (PyStr.lower (name entity) ∈ protected_names))
  then delete_node (name entity)
  else mret false.

Definition _execute_delete (parsed : ParsedConversation) (result : Result)
  : M Result :=
  relationships_deleted ←
    count_loop delete_relationship_body (relationships parsed) 0;
  entities_deleted ← count_loop delete_entity_body (entities parsed) 0;
  mret (update_counts result "Deleted" entities_deleted relationships_deleted).

Definition execute_parsed_conversation (parsed : ParsedConversation) : M Result :=
  let result := {| result_intent := intent parsed;
                   success := false;
                   message := "";
                   entities_processed := 0;
                   relationships_processed := 0;
                   data := DataNone |} in
  if String.eqb (intent parsed) "CREATE" then _execute_create parsed result
  else if String.eqb (intent parsed) "READ" || String.eqb (intent parsed) "QUERY"
  then _execute_read parsed result
  else if String.eqb (intent parsed) "UPDATE" then _execute_update parsed result
  else if String.eqb (intent parsed) "DELETE" then _execute_delete parsed result
  else mret {| result_intent := intent parsed;
               success := false;
               message := "Unknown intent: " +:+ intent parsed;
               entities_processed := 0;
               relationships_processed := 0;
               data := DataNone |}.

(** ** [memory_retriever.py] *)

Definition stop_words : gset string :=
  list_to_set
    ["i"; "me"; "my"; "myself"; "we"; "our"; "ours"; "ourselves"; "you";
     "your"; "yours"; "yourself"; "yourselves"; "he"; "him"; "his";
     "himself"; "she"; "her"; "hers"; "herself"; "it"; "its"; "itself";
     "they"; "them"; "their"; "theirs"; "themselves"; "what"; "which";
     "who"; "whom"; "this"; "that"; "these"; "those"; "am"; "is"; "are";
     "was"; "were"; "be"; "been"; "being"; "have"; "has"; "had"; "having";
     "do"; "does"; "did"; "doing"; "a"; "an"; "the"; "and"; "but"; "if";
     "or"; "because"; "as"; "until"; "while"; "of"; "at"; "by"; "for";
     "with"; "through"; "during"; "before"; "after"; "above"; "below";
     "up"; "down"; "in"; "out"; "on"; "off"; "over"; "under"; "again";
     "further"; "then"; "once"].

(** The condition of the comprehension:
    [word not in stop_words and len(word) > 2]. *)
Definition keeps_word (word : string) : bool :=
  negb (bool_decide (word ∈ stop_words)) && (2 <? PyStr.len word).

(** [l[:n]] *)
Definition slice_to {A : Type} (n : Z) (l : list A) : list A :=
  if n <? 0 then take (Z.to_nat (Z.of_nat (length l) + n)) l
  else take (Z.to_nat n) l.

(** [lower], [split] and [len] are those of ASCII text: the statement
    about the keywords of a query, [extract_keywords_spec], is made for
    ASCII queries. *)
Definition _extract_keywords (query : string) : list string :=
  let words := PyStr.split (PyStr.lower query) in
  let keywords := PyStr.strip_chars ".,!?;:" <$> filter keeps_word words in
  slice_to 5 keywords.

(** The loop of [_deduplicate_list]; [None] is the [TypeError] of an
    identifier that cannot be put in a set. *)
Fixpoint deduplicate_loop (key : string) (items : list pydict)
    (seen : gset scalar) (unique_items : list pydict) : option (list pydict) :=
  match items with
  | [] => Some unique_items
  | item :: rest =>
      match item !! key with
      | Some identifier =>
          if pyval_truthy identifier then
            match identifier with
            | Atom a =>
                if bool_decide (a ∈ seen)
                then deduplicate_loop key rest seen unique_items
                else deduplicate_loop key rest ({[a]} ∪ seen)
                       (unique_items ++ [item])
            | _ => None
            end
          else deduplicate_loop key rest seen unique_items
      | None => deduplicate_loop key rest seen unique_items
      end
  end.

Definition _deduplicate_list (items : list pydict) (key : string)
  : option (list pydict) :=
  deduplicate_loop key items ∅ [].

(** The two lists [_get_keyword_matches] returns. *)
Record keyword_matches : Type := {
  km_entities : list pydict;
  km_relationships : list pydict
}.

Definition _get_keyword_matches (query : string) (max_results : Z)
  : M (option keyword_matches) :=
  let keywords := _extract_keywords query in
  found_entities ←
    extend_loop (λ keyword,
                   search_nodes_by_name keyword ≫= λ found : list pydict,
                     mret (slice_to max_results found))
                keywords [];
  found_relationships ←
    extend_loop (λ entity : pydict,
                   get_node_relationships
                     (default (Atom (SStr "")) (entity !! "name")))
                found_entities [];
  mret (es ← _deduplicate_list found_entities "name";
        rs ← _deduplicate_list found_relationships "id";
        Some {| km_entities := slice_to max_results es;
                km_relationships := slice_to max_results rs |}).

(** One element of the list [find_related_entities] returns. *)
Record related_entity : Type := {
  entity : pyval;
  depth : Z;
  path : list pydict;
  relationship_type : pyval
}.

(** [rel.get(key)] *)
Definition get (d : pydict) (key : string) : pyval :=
  default (Atom SNone) (d !! key).

(** The [for rel in relationships:] loop of one expansion. [None] is the
    [TypeError] of a target that cannot be looked up in [visited]: a list
    or a map. A target is a property value, so it is never a graph object;
    the model lets that case raise too. *)
Fixpoint expand (visited : gset scalar) (current_depth max_depth : Z)
    (current_path : list pydict) (rels : list pydict)
    (related_entities : list related_entity)
    (queue : list (scalar * Z * list pydict))
  : option (list related_entity * list (scalar * Z * list pydict)) :=
  match rels with
  | [] => Some (related_entities, queue)
  | rel :: rest =>
      let target := get rel "target_name" in
      if pyval_truthy target then
        match target with
        | Atom a =>
            if bool_decide (a ∈ visited)
            then expand visited current_depth max_depth current_path rest
                   related_entities queue
            else
              let new_path := current_path ++ [rel] in
              expand visited current_depth max_depth current_path rest
                (related_entities ++
                   [{| entity := target;
                       depth := current_depth + 1;
                       path := new_path;
                       relationship_type := get rel "type" |}])
                (if current_depth + 1 <? max_depth
                 then queue ++ [(a, current_depth + 1, new_path)]
                 else queue)
        | _ => None
        end
      else expand visited current_depth max_depth current_path rest
             related_entities queue
  end.

(** How a run of the [while] loop ends. *)
Inductive outcome : Type :=
  | Returned (related_entities : list related_entity)
  | Raised
  | OutOfFuel.

(** [while queue and len(related_entities) < 20:], one iteration per unit
    of fuel. *)
Fixpoint find_related_loop (fuel : nat) (max_depth : Z)
    (related_entities : list related_entity) (visited : gset scalar)
    (queue : list (scalar * Z * list pydict)) : M outcome :=
  match queue with
  | [] => mret (Returned related_entities)
  | (current_entity, current_depth, current_path) :: queue' =>
      if negb (Z.of_nat (length related_entities) <? 20)
      then mret (Returned related_entities)
      else
        match fuel with
        | O => mret OutOfFuel
        | S fuel' =>
            if bool_decide (current_entity ∈ visited)
               || (max_depth <? current_depth)
            then find_related_loop fuel' max_depth related_entities visited queue'
            else
              get_node_relationships (Atom current_entity)
                ≫= λ rels : list pydict,
              match expand ({[current_entity]} ∪ visited) current_depth
                      max_depth current_path rels related_entities queue'
              with
              | None => mret Raised
              | Some (related_entities', queue'') =>
                  find_related_loop fuel' max_depth related_entities'
                    ({[current_entity]} ∪ visited) queue''
              end
        end
  end.

(** [find_related_entities]; the [except] clause turns an exception into
    the empty list. [None] only when the fuel runs out. *)
Definition find_related_entities (fuel : nat) (entity_name : string)
    (max_depth : Z) : M (option (list related_entity)) :=
  find_related_loop fuel max_depth [] ∅ [(SStr entity_name, 0, [])]
    ≫= λ o : outcome,
  mret (match o with
        | Returned related_entities => Some related_entities
        | Raised => Some []
        | OutOfFuel => None
        end).

End Store.

(** ** A small in-memory driver

    A driver for the concrete scenarios below: a graph held as two lists,
    answering the two read queries of the retriever the way the query texts
    read, and answering every other query with no record. *)

Module MemoryGraph.

Record graph : Type := {
  nodes : list node;
  edges : list (string * string * string)
}.

(** [toLower(name) CONTAINS toLower(term)] *)
Fixpoint is_prefix (p s : string) : bool :=
  match p, s with
  | EmptyString, _ => true
  | String a p', String b s' => Ascii.eqb a b && is_prefix p' s'
  | String _ _, EmptyString => false
  end.

Fixpoint contains (s term : string) : bool :=
  is_prefix term s ||
  match s with
  | EmptyString => false
  | String _ s' => contains s' term
  end.

Definition name_of (n : node) : string :=
  match n !! "name" with
  | Some (SStr s) => s
  | _ => ""
  end.

Definition type_of (g : graph) (node_name : string) : scalar :=
  match filter (λ n, name_of n = node_name) (nodes g) with
  | n :: _ => default SNone (n !! "type")
  | [] => SNone
  end.

Definition relationship_record (g : graph) (rtype other direction : string)
  : pydict :=
  <["relationship_type" := Atom (SStr rtype)]>
  (<["properties" := PDict ∅]>
   (<["connected_name" := Atom (SStr other)]>
    (<["connected_type" := Atom (type_of g other)]>
     {["direction" := Atom (SStr direction)]}))).

(** The records of [MATCH (n {name: $name})-[r]-(connected)] that one
    edge gives. *)
Definition records_of_edge (g : graph) (node_name : string)
    (e : string * string * string) : list pydict :=
  let '(a, rtype, b) := e in
  if String.eqb a node_name then [relationship_record g rtype b "outgoing"]
  else if String.eqb b node_name then [relationship_record g rtype a "incoming"]
  else [].

Definition search (g : graph) (term : string) : list pydict :=
  (λ n, {["n" := PNode n]}) <$>
    take 20
      (merge_sort (λ n m, String.le (name_of n) (name_of m))
         (filter (λ n, contains (PyStr.lower (name_of n)) (PyStr.lower term) = true)
                 (nodes g))).

Definition run_query (query : string) (params : pydict) (g : graph)
  : option (list pydict) * graph :=
  if String.eqb query get_node_relationships_query then
    match params !! "name" with
    | Some (Atom (SStr node_name)) =>
        (Some (flat_map (records_of_edge g node_name) (edges g)), g)
    | _ => (Some [], g)
    end
  else if String.eqb query search_nodes_by_name_query then
    match params !! "search_term" with
    | Some (Atom (SStr term)) => (Some (search g term), g)
    | _ => (Some [], g)
    end
  else (Some [], g).

#[export] Instance backend : Backend := {| db := graph; run := run_query |}.

End MemoryGraph.

(** ** Vocabulary of the statements *)

(** The calls [_execute_delete] makes for the relationship candidates: one
    [delete_relationship] per accepted candidate, in the order of the
    list. *)
Definition relationship_deletions (parsed : ParsedConversation) : list call :=
  (λ r, call_delete_relationship (from_entity r) (to_entity r) (rel_type r)) <$>
    filter (λ r, _should_process_relationship r) (relationships parsed).

(** The calls it makes for the entity candidates: one [delete_node] per
    accepted candidate whose lowered name is not protected. *)
Definition entity_deletions (parsed : ParsedConversation) : list call :=
  (λ e, call_delete_node (name e)) <$>
    filter (λ e, _should_process_entity e ∧ PyStr.lower (name e) ∉ protected_names)
           (entities parsed).

Definition deletable (e : Entity) : bool :=
  _should_process_entity e
  && negb (bool_decide (PyStr.lower (name e) ∈ protected_names)).

Definition with_entities (parsed : ParsedConversation) (es : list Entity)
  : ParsedConversation :=
  {| intent := intent parsed;
     entities := es;
     relationships := relationships parsed;
     parsed_confidence := parsed_confidence parsed;
     raw_response := raw_response parsed |}.

Definition with_relationships (parsed : ParsedConversation)
    (rs : list Relationship) : ParsedConversation :=
  {| intent := intent parsed;
     entities := entities parsed;
     relationships := rs;
     parsed_confidence := parsed_confidence parsed;
     raw_response := raw_response parsed |}.

(** The lookups of the first loop of [_execute_read]: one
    [get_node_with_relationships] per candidate whose lowered name is not
    "user". No other test is made. *)
Definition read_lookups (parsed : ParsedConversation) : list call :=
  (λ e, call_get_node_with_relationships (name e)) <$>
    filter (λ e, PyStr.lower (name e) ≠ "user") (entities parsed).

(** The nodes of a list that [_demo_create_or_update_node] takes for the
    node called [name]. *)
Definition named (name : string) (nodes : list node) : list node :=
  filter (λ n, name_is n name) nodes.

(** What the record written by one call holds: the supplied properties,
    and the name and the type of the call unless the properties say
    otherwise. *)
Definition carries (written : node) (name node_type : string) (props : node)
  : Prop :=
  (props !! "name" = None → written !! "name" = Some (SStr name))
  ∧ (props !! "type" = None → written !! "type" = Some (SStr node_type))
  ∧ ∀ k v, props !! k = Some v → k ≠ "created_at" → k ≠ "updated_at" →
           written !! k = Some v.

Abbreviation queue_item := (scalar * Z * list pydict)%type.

Definition item_depth (q : queue_item) : Z := q.1.2.

Section Vocabulary.
Context `{Backend}.

(** An action that logs exactly the calls [cs]. *)
Definition logs {A : Type} (m : M A) (cs : list call) : Prop :=
  ∀ w, calls (m w).2 = calls w ++ cs.

(** An action that only appends to the list of calls. *)
Definition grows {A : Type} (m : M A) : Prop :=
  ∀ w, ∃ rest, calls (m w).2 = calls w ++ rest.

(** Calling a method and dropping what it returns. *)
Definition perform (c : call) : M unit :=
  match c with
  | call_create_or_update_node n t p => create_or_update_node n t p;; mret tt
  | call_create_relationship a b t p => create_relationship a b t p;; mret tt
  | call_get_node n => get_node n;; mret tt
  | call_get_node_with_relationships n =>
      get_node_with_relationships n;; mret tt
  | call_get_all_nodes => get_all_nodes;; mret tt
  | call_get_nodes_by_type t => get_nodes_by_type t;; mret tt
  | call_search_nodes_by_name s => search_nodes_by_name s;; mret tt
  | call_get_node_relationships n => get_node_relationships n;; mret tt
  | call_update_node_properties n p => update_node_properties n p;; mret tt
  | call_delete_node n => delete_node n;; mret tt
  | call_delete_relationship a b t => delete_relationship a b t;; mret tt
  | call_get_graph_statistics => get_graph_statistics;; mret tt
  end.

(** The world after a history of method calls. *)
Definition after (history : list call) (w : world) : world :=
  foldl (λ w c, (perform c w).2) w history.

(** Fallback mode as the code keeps it: no driver, no stored
    relationship, no query sent. *)
Definition fallback (w : world) : Prop :=
  ∃ nodes, graph_manager w = NoDriver nodes [] ∧ queries w = [].

End Vocabulary.

(** ** Scenario data *)

Definition float_0_9 : spec_float := S754_finite false 8106479329266893 (-53).
Definition float_0_1 : spec_float := S754_finite false 7205759403792794 (-56).

Definition guitar : Entity :=
  {| name := "Guitar"; type := "Skill"; properties := ∅; confidence := float_0_9 |}.

Definition user : Entity :=
  {| name := "User"; type := "Person"; properties := ∅; confidence := float_0_9 |}.

Definition thing : Entity :=
  {| name := "thing"; type := "Concept"; properties := ∅; confidence := float_0_9 |}.

Definition faint_guitar : Entity :=
  {| name := "Guitar"; type := "Skill"; properties := ∅; confidence := float_0_1 |}.

Definition user_plays_guitar : Relationship :=
  {| from_entity := "User"; to_entity := "Guitar"; rel_type := "SKILLED_IN";
     rel_properties := ∅; rel_confidence := float_0_9 |}.

Definition conversation (intent : string) (es : list Entity)
    (rs : list Relationship) : ParsedConversation :=
  {| intent := intent; entities := es; relationships := rs;
     parsed_confidence := float_0_9; raw_response := "" |}.

(** User -SKILLED_IN-> Guitar. *)
Definition guitar_graph : MemoryGraph.graph :=
  {| MemoryGraph.nodes :=
       [ {["name" := SStr "Guitar"; "type" := SStr "Skill"]};
         {["name" := SStr "User"; "type" := SStr "Person"]} ];
     MemoryGraph.edges := [("User", "SKILLED_IN", "Guitar")] |}.

(** A with edges to B1 ... B21. *)
Definition star_graph : MemoryGraph.graph :=
  {| MemoryGraph.nodes := [];
     MemoryGraph.edges :=
       (λ i : nat, ("A", "KNOWS", "B" +:+ pretty i)) <$> seq 1 21 |}.

(** A -KNOWS-> B -KNOWS-> A. *)
Definition cycle_graph : MemoryGraph.graph :=
  {| MemoryGraph.nodes := [];
     MemoryGraph.edges := [("A", "KNOWS", "B"); ("B", "KNOWS", "A")] |}.

Definition fallback_world : world (H := MemoryGraph.backend) := connect_failed.

Definition guitar_world : world (H := MemoryGraph.backend) :=
  connected (H := MemoryGraph.backend) guitar_graph.

Definition star_world : world (H := MemoryGraph.backend) :=
  connected (H := MemoryGraph.backend) star_graph.

Definition cycle_world : world (H := MemoryGraph.backend) :=
  connected (H := MemoryGraph.backend) cycle_graph.

(** ** Further functions of the repository *)

(** *** [gpt_parser.py] and [crud_executor.py] *)

(** What [parse_conversation] returns when the language-model call or the
    decoding of its answer raises: the [except] clause, with [str(e)] as
    [raw_response]. *)
Definition parse_failure (error : string) : ParsedConversation :=
  {| intent := "unknown";
     entities := [];
     relationships := [];
     parsed_confidence := S754_zero false;
     raw_response := error |}.

(** The five intents [execute_parsed_conversation] dispatches on. *)
Definition known_intents : list string :=
  ["CREATE"; "READ"; "QUERY"; "UPDATE"; "DELETE"].

(** The methods of the store that only read. *)
Definition is_read_call (c : call) : bool :=
  match c with
  | call_get_node _ | call_get_node_with_relationships _ | call_get_all_nodes
  | call_get_nodes_by_type _ | call_search_nodes_by_name _
  | call_get_node_relationships _ | call_get_graph_statistics => true
  | _ => false
  end.

(** Python's [float(n)] for an integer below 2^53 in absolute value, and
    [a / b] on two of them. *)
Definition float_of_int (n : Z) : spec_float := binary_normalize 53 1024 n 0 false.

Definition true_div (a b : Z) : spec_float :=
  SFdiv 53 1024 (float_of_int a) (float_of_int b).

(** [sum(f(r) for r in results)] *)
Definition sum_of {A : Type} (f : A → Z) (xs : list A) : Z :=
  foldl (λ acc x, acc + f x) 0 xs.

(** The dictionary [get_execution_summary] returns. *)
Record ExecutionSummary : Type := {
  total_operations : Z;
  successful_operations : Z;
  total_entities_processed : Z;
  total_relationships_processed : Z;
  intent_breakdown : list (scalar * Z);
  success_rate : spec_float
}.

(** The loop [intent_counts[intent] = intent_counts.get(intent, 0) + 1]. *)
Definition count_intents (results : list Result) : list (scalar * Z) :=
  foldl (λ intent_counts r,
           let intent := SStr (result_intent r) in
           dict_set intent (dict_get intent 0 intent_counts + 1) intent_counts)
        [] results.

(** [get_execution_summary] on results of [execute_parsed_conversation],
    which hold every key the function reads. *)
Definition get_execution_summary (results : list Result) : ExecutionSummary :=
  let total_entities := sum_of entities_processed results in
  let total_relationships := sum_of relationships_processed results in
  let successful_operations :=
    sum_of (λ _, 1) (filter (λ r, success r = true) results) in
  {| total_operations := Z.of_nat (length results);
     successful_operations := successful_operations;
     total_entities_processed := total_entities;
     total_relationships_processed := total_relationships;
     intent_breakdown := count_intents results;
     success_rate :=
       if is_empty results then S754_zero false
       else true_div successful_operations (Z.of_nat (length results)) |}.

(** ** [memory_retriever.py], continued *)

(** [v == s] for a string [s]. *)
Definition is_str (v : pyval) (s : string) : bool :=
  match v with
  | Atom (SStr s') => String.eqb s' s
  | _ => false
  end.

(** [v.lower()]; [None] is the [AttributeError] of a value that is not a
    string. *)
Definition lower_of (v : pyval) : option string :=
  match v with
  | Atom (SStr s) => Some (PyStr.lower s)
  | _ => None
  end.

(** The key of the list the [if]/[elif] chain of [_get_user_context]
    appends a relationship to, if any. *)
Definition user_context_key (target_type : string) (rel_type : pyval)
  : option string :=
  if String.eqb target_type "skill" || is_str rel_type "SKILLED_IN"
  then Some "skills"
  else if String.eqb target_type "preference"
          || (is_str rel_type "LIKES" || is_str rel_type "DISLIKES")
  then Some "preferences"
  else if String.eqb target_type "goal" || is_str rel_type "WANTS_TO"
  then Some "goals"
  else if String.eqb target_type "organization" || is_str rel_type "WORKS_AT"
  then Some "organizations"
  else if String.eqb target_type "location" || is_str rel_type "LIVES_IN"
  then Some "locations"
  else if String.eqb target_type "memory" || is_str rel_type "REMEMBERS"
  then Some "memories"
  else None.

(** The dictionary of six empty lists [_get_user_context] starts from. *)
Definition empty_user_context : gmap string (list pydict) :=
  <["skills" := []]> (<["preferences" := []]> (<["goals" := []]>
  (<["organizations" := []]> (<["locations" := []]> {["memories" := []]})))).

(** The [for rel in relationships:] loop of [_get_user_context]. *)
Fixpoint categorize (relationships : list pydict)
    (context : gmap string (list pydict)) : option (gmap string (list pydict)) :=
  match relationships with
  | [] => Some context
  | rel :: rest =>
      match lower_of (default (Atom (SStr "")) (rel !! "target_type")) with
      | None => None
      | Some target_type =>
          let rel_type := default (Atom (SStr "")) (rel !! "type") in
          categorize rest
            match user_context_key target_type rel_type with
            | Some key => alter (λ l, l ++ [rel]) key context
            | None => context
            end
      end
  end.

(** What [retrieve_relevant_context] returns: the context dictionary, or
    the dictionary of the [except] clause, whose ["error"] text is left
    out. *)
Inductive retrieved : Type :=
  | Retrieved (entities relationships semantic_matches : list pydict)
              (statistics : stats) (query : string)
              (user_profile : option (gmap string (list pydict)))
  | RetrievedError (query : string).

Section Retriever.
Context `{Backend}.

(** The [except] clause turns the [AttributeError] of the loop into
    [None]. *)
Definition _get_user_context : M (option (gmap string (list pydict))) :=
  get_node "User" ≫= λ user_node : option pydict,
  if negb (dict_truthy user_node) then mret None
  else
    get_node_relationships (Atom (SStr "User")) ≫= λ relationships : list pydict,
    mret (categorize relationships empty_user_context).

(** [retrieve_relevant_context] of a retriever whose embedding model could
    not be loaded ([self.embedding_model] is [None]): the semantic matches
    stay empty. A user context is a dictionary of six keys, so it is true
    whenever it is not [None]. *)
Definition retrieve_relevant_context (query : string) (max_results : Z)
  : M retrieved :=
  _get_keyword_matches query max_results
    ≫= λ keyword_matches : option keyword_matches,
  match keyword_matches with
  | None => mret (RetrievedError query)
  | Some found =>
      get_graph_statistics ≫= λ statistics : stats,
      _get_user_context ≫= λ user_context : option (gmap string (list pydict)),
      mret (Retrieved (km_entities found) (km_relationships found) []
                      statistics query user_context)
  end.

End Retriever.

(** [l[n:]] *)
Definition slice_from {A : Type} (n : Z) (l : list A) : list A :=
  if n <? 0 then drop (Z.to_nat (Z.of_nat (length l) + n)) l
  else drop (Z.to_nat n) l.

(** The line feed of ["\n".join]. *)
Definition line_feed : string := String (ascii_of_nat 10) EmptyString.

(** [f"Previous conversation {i}: {conv}"] *)
Definition context_line (i : Z) (conv : string) : string :=
  "Previous conversation " +:+ pretty i +:+ ": " +:+ conv.

(** The list [context_parts] of [get_conversation_context], numbered from
    1 by [enumerate(recent, 1)]. *)
Definition context_parts (recent_conversations : list string) (max_context : Z)
  : list string :=
  let recent := slice_from (- max_context) recent_conversations in
  imap (λ i conv, context_line (Z.of_nat i + 1) conv) recent.

Definition get_conversation_context (recent_conversations : list string)
    (max_context : Z) : string :=
  if is_empty recent_conversations then ""
  else String.concat line_feed (context_parts recent_conversations max_context).

(** ** [graph_manager.py], continued *)

(** [config.NODE_COLORS] *)
Definition NODE_COLORS : gmap string string :=
  list_to_map
    [("Person", "#FF6B6B"); ("Concept", "#4ECDC4"); ("Event", "#45B7D1");
     ("Preference", "#96CEB4"); ("Location", "#FFEAA7");
     ("Organization", "#DDA0DD"); ("Skill", "#98D8C8"); ("Goal", "#F7DC6F");
     ("Memory", "#BB8FCE"); ("Default", "#BDC3C7")].

(** [NODE_COLORS.get(node_type, NODE_COLORS["Default"])]: only a string
    can be a key of the table. *)
Definition node_color (node_type : scalar) : string :=
  let fallback_color := default "" (NODE_COLORS !! "Default") in
  match node_type with
  | SStr t => default fallback_color (NODE_COLORS !! t)
  | _ => fallback_color
  end.

(** One element of the ["nodes"] list of the visualization data. *)
Record shown_node : Type := {
  shown_id : scalar;
  shown_label : scalar;
  shown_type : scalar;
  shown_color : string;
  shown_properties : node
}.

(** The dictionary [get_graph_data_for_visualization] returns. *)
Record graph_data : Type := {
  shown_nodes : list shown_node;
  shown_edges : list pydict;
  total_nodes : Z;
  total_edges : Z
}.

(** The body of the loop over [_demo_nodes]. *)
Definition demo_shown_node (n : node) : shown_node :=
  let node_type := default (SStr "Default") (n !! "type") in
  {| shown_id := default (SStr "Unknown") (n !! "name");
     shown_label := default (SStr "Unknown") (n !! "name");
     shown_type := node_type;
     shown_color := node_color node_type;
     shown_properties :=
       filter (λ kv : string * scalar, kv.1 ∉ ["name"; "type"]) n |}.

(** [get_graph_data_for_visualization] without a driver: the branch
    [if not self.driver], which reads the two in-memory lists. *)
Definition demo_graph_data (demo_nodes : list node)
    (demo_relationships : list pydict) : graph_data :=
  let nodes := demo_shown_node <$> demo_nodes in
  {| shown_nodes := nodes;
     shown_edges := demo_relationships;
     total_nodes := Z.of_nat (length nodes);
     total_edges := Z.of_nat (length demo_relationships) |}.

(** ** [response_generator.py] *)

Section Response.

(** The text an f-string gives for a value the store hands back, [str(v)];
    the statements hold for every such rendering. *)
Variable str_of : pyval → string.

Definition _generate_fallback_response (crud_result : Result) : string :=
  let intent := result_intent crud_result in
  if negb (success crud_result)
  then "I had trouble processing that. " +:+ message crud_result
  else if String.eqb intent "CREATE" then
    "I've added " +:+ pretty (entities_processed crud_result)
      +:+ " new entities and " +:+ pretty (relationships_processed crud_result)
      +:+ " relationships to your knowledge graph!"
  else if String.eqb intent "READ" || String.eqb intent "QUERY" then
    match data crud_result with
    | DataList l =>
        "I found " +:+ pretty (Z.of_nat (length l)) +:+ " results for your query."
    | DataStats (Stats nodes relationships _ _) =>
        "Your knowledge graph has " +:+ str_of nodes +:+ " nodes and "
          +:+ str_of relationships +:+ " relationships."
    | _ => "I found some information for you!"
    end
  else if String.eqb intent "UPDATE" then
    "I've updated " +:+ pretty (entities_processed crud_result)
      +:+ " entities in your knowledge graph."
  else if String.eqb intent "DELETE" then
    "I've removed " +:+ pretty (entities_processed crud_result)
      +:+ " entities from your knowledge graph."
  else "I've processed your request successfully!".

End Response.

(** [user_profile.get(key)] read as a truth value, on the profile of a
    context; a context without profile reads as the empty dictionary. *)
Definition profile_has (context : retrieved) (key : string) : bool :=
  match context with
  | Retrieved _ _ _ _ _ (Some user_profile) =>
      match user_profile !! key with
      | Some (_ :: _) => true
      | _ => false
      end
  | _ => false
  end.

Definition generate_suggestions (context : retrieved) : list string :=
  let suggestions :=
    (if negb (profile_has context "skills")
     then ["Tell me about your skills or hobbies"] else [])
    ++ (if negb (profile_has context "goals")
        then ["What are your current goals or aspirations?"] else [])
    ++ (if negb (profile_has context "preferences")
        then ["What do you like or dislike?"] else [])
    ++ (if negb (profile_has context "organizations")
        then ["Where do you work or study?"] else [])
    ++ ["Ask me about your knowledge graph";
        "Tell me about a recent experience";
        "What would you like to learn?"] in
  slice_to 5 suggestions.

(** ** [gpt_parser.py] *)

(** [needle in haystack], on strings. *)
Definition str_in (needle haystack : string) : bool :=
  MemoryGraph.contains haystack needle.

(** [IntentClassifier.INTENT_KEYWORDS], in the order of the dictionary. *)
Definition INTENT_KEYWORDS : list (string * list string) :=
  [("CREATE", ["tell"; "add"; "create"; "new"; "i am"; "i like"; "i work";
               "i live"; "i want"]);
   ("READ", ["show"; "find"; "get"; "what"; "who"; "where"; "when"; "how";
             "list"]);
   ("UPDATE", ["change"; "update"; "modify"; "edit"; "correct"; "fix"]);
   ("DELETE", ["remove"; "delete"; "forget"; "clear"; "stop"]);
   ("QUERY", ["?"; "what"; "who"; "where"; "when"; "why"; "how";
              "tell me about"])].

(** [sum(1 for keyword in keywords if keyword in user_input_lower)] *)
Definition keyword_score (keywords : list string) (user_input_lower : string) : Z :=
  sum_of (λ _, 1) (filter (λ keyword, str_in keyword user_input_lower = true) keywords).

(** [max(d.values())] of a dictionary that is not empty. *)
Definition max_value (d : list (string * Z)) : Z :=
  match d with
  | [] => 0
  | kv :: d' => foldl (λ best kv', Z.max best kv'.2) kv.2 d'
  end.

(** [max(d, key=d.get)]: the first key, in the order of the dictionary,
    whose value is the largest. *)
Definition max_key (d : list (string * Z)) : option string :=
  fst <$> foldl (λ best kv,
                   match best with
                   | None => Some kv
                   | Some b => if b.2 <? kv.2 then Some kv else Some b
                   end) None d.

Definition classify_intent (user_input : string) : string :=
  let user_input_lower := PyStr.lower user_input in
  if str_in "?" user_input then "QUERY"
  else
    let intent_scores :=
      (λ ik : string * list string, (ik.1, keyword_score ik.2 user_input_lower))
        <$> INTENT_KEYWORDS in
    if 0 <? max_value intent_scores
    then default "CREATE" (max_key intent_scores)
    else "CREATE".

(** The score [classify_intent] gives an intent. *)
Definition intent_score (intent user_input : string) : Z :=
  match list_find (λ ik : string * list string, ik.1 = intent) INTENT_KEYWORDS with
  | Some (_, (_, keywords)) => keyword_score keywords (PyStr.lower user_input)
  | None => 0
  end.

(** *** Vocabulary of the further statements *)

(** The texts of the queries that only read. *)
Definition read_queries : list string :=
  [get_node_query; get_node_with_relationships_query; get_all_nodes_query;
   get_nodes_by_type_query; search_nodes_by_name_query;
   get_node_relationships_query; node_count_query; rel_count_query;
   node_types_query; relationship_types_query].

(** The number of times each key occurs in a list, as the counting loops
    of the code build it. *)
Definition tally (keys : list scalar) : list (scalar * Z) :=
  foldl (λ d k, dict_set k (dict_get k 0 d + 1) d) [] keys.

(** The sum of the values of a dictionary. *)
Definition sum_values (d : list (scalar * Z)) : Z := sum_of snd d.

(** The number of elements of a list that pass a test. *)
Definition count_if {A : Type} (p : A → bool) (xs : list A) : Z :=
  Z.of_nat (length (filter (λ x, p x = true) xs)).

Section ReadOnly.
Context `{Backend}.

(** An action that only reads: it calls read methods only, sends read
    queries only, and without a driver it leaves the two demo lists as
    they are. *)
Definition reads_only {A : Type} (m : M A) : Prop :=
  ∀ w, ∃ cs qs,
    calls (m w).2 = calls w ++ cs
    ∧ Forall (λ c, is_read_call c = true) cs
    ∧ queries (m w).2 = queries w ++ qs
    ∧ Forall (λ q : string * pydict, q.1 ∈ read_queries) qs
    ∧ ∀ nodes rels, graph_manager w = NoDriver nodes rels →
                    graph_manager (m w).2 = NoDriver nodes rels ∧ qs = [].

(** An action that leaves a store without driver as it is and returns
    [x]. *)
Definition idle_without_driver {A : Type} (m : M A) (x : A) : Prop :=
  ∀ w nodes rels, graph_manager w = NoDriver nodes rels →
    (m w).1 = x
    ∧ graph_manager (m w).2 = NoDriver nodes rels
    ∧ queries (m w).2 = queries w.

End ReadOnly.

(** What an entry of the list [find_related_entities] returns for the
    entity [origin] looks like: it names another entity than [origin], its
    path has as many relationships as its depth says, at least one, and
    ends with the relationship that leads to the entity. *)
Definition entry_shape (origin : string) (max_depth : Z) (e : related_entity)
  : Prop :=
  entity e ≠ Atom (SStr origin)
  ∧ pyval_truthy (entity e) = true
  ∧ Z.of_nat (length (path e)) = depth e
  ∧ 1 ≤ depth e ≤ Z.max 1 max_depth
  ∧ ∃ rel, last (path e) = Some rel
           ∧ get rel "target_name" = entity e
           ∧ get rel "type" = relationship_type e.

(** An item of the queue of [find_related_entities] whose path has the
    length its depth says and that may still be expanded. *)
Definition queue_shape (max_depth : Z) (q : queue_item) : Prop :=
  Z.of_nat (length q.2) = item_depth q
  ∧ 0 ≤ item_depth q
  ∧ item_depth q + 1 ≤ Z.max 1 max_depth.

(** [item.get(key) == s] for a string [s]. *)
Definition has_identifier (key s : string) (item : pydict) : bool :=
  match item !! key with
  | Some (Atom (SStr s')) => String.eqb s' s
  | _ => false
  end.

(** An item whose identifier [_deduplicate_list] can put in its set: a
    scalar, or a value it skips because it is false, or none at all. *)
Definition hashable_identifier (key : string) (item : pydict) : bool :=
  match item !! key with
  | Some (Atom _) | None => true
  | Some v => negb (pyval_truthy v)
  end.

(** The list [_get_user_context] files a relationship in, and none when
    reading its target type raises. *)
Definition bucket_of (rel : pydict) : option string :=
  target_type ← lower_of (default (Atom (SStr "")) (rel !! "target_type"));
  user_context_key target_type (default (Atom (SStr "")) (rel !! "type")).

(** The keys of a user context. *)
Definition user_context_keys : list string :=
  ["skills"; "preferences"; "goals"; "organizations"; "locations"; "memories"].

(** ** Further scenario data *)

(** A driver that answers each query text with the records of a script. *)
Module Scripted.

Definition script : Type := list (string * list pydict).

Fixpoint answer (query : string) (s : script) : option (list pydict) :=
  match s with
  | [] => Some []
  | (q, records) :: s' =>
      if String.eqb q query then Some records else answer query s'
  end.

Definition run_script (query : string) (params : pydict) (s : script)
  : option (list pydict) * script :=
  (answer query s, s).

#[export] Instance backend : Backend := {| db := script; run := run_script |}.

End Scripted.

(** One record of the relationship query. *)
Definition relationship_row (rtype other other_type : string) : pydict :=
  <["relationship_type" := Atom (SStr rtype)]>
  (<["properties" := PDict ∅]>
   (<["connected_name" := Atom (SStr other)]>
    (<["connected_type" := Atom (SStr other_type)]>
     {["direction" := Atom (SStr "outgoing")]}))).

(** A store with a [User] node that is skilled in Guitar, likes Jazz (a
    skill) and Tea (a preference), and knows Ada (a person). *)
Definition profile_script : Scripted.script :=
  [(get_node_query,
    [{["n" := PNode {["name" := SStr "User"; "type" := SStr "Person"]}]}]);
   (get_node_relationships_query,
    [relationship_row "SKILLED_IN" "Guitar" "Skill";
     relationship_row "LIKES" "Jazz" "Skill";
     relationship_row "LIKES" "Tea" "Preference";
     relationship_row "KNOWS" "Ada" "Person"])].

Definition profile_world : world (H := Scripted.backend) :=
  connected (H := Scripted.backend) profile_script.

Definition self_relationship : Relationship :=
  {| from_entity := "User"; to_entity := "user"; rel_type := "KNOWS";
     rel_properties := ∅; rel_confidence := float_0_9 |}.

(** Three search results, two of them with the same name. *)
Definition found_items : list pydict :=
  [ {["name" := Atom (SStr "Guitar"); "type" := Atom (SStr "Skill")]};
    {["name" := Atom (SStr "Piano"); "type" := Atom (SStr "Skill")]};
    {["name" := Atom (SStr "Guitar"); "type" := Atom (SStr "Concept")]} ].

(** A rendering of the counts of the in-memory lists. *)
Definition str_of_count (v : pyval) : string :=
  match v with
  | Atom (SInt z) => pretty z
  | _ => ""
  end.

(** ** Vocabulary of keyword extraction *)

(** The characters of a string. *)
Abbreviation chars := list_ascii_of_string.

(** Text of ASCII characters only.  On such text the characters of the
    model are the characters of the Python string, [len] counts them, and
    [lower], [split] and [strip] do what [str.lower], [str.split] and
    [str.strip] do. *)
Definition is_ascii (s : string) : bool :=
  forallb (λ c, (N_of_ascii c <? 128)%N) (chars s).

(** One of the characters [.,!?;:]. *)
Definition is_punctuation (c : ascii) : bool := PyStr.mem_char c ".,!?;:".

(** [keyword] is [token] without the punctuation at its two ends: what is
    cut off at either end is punctuation only, and what is left neither
    starts nor ends with punctuation. *)
Definition stripped_of_punctuation (token keyword : string) : Prop :=
  ∃ pre post,
    token = pre +:+ keyword +:+ post
    ∧ Forall (λ c, is_punctuation c = true) (chars pre)
    ∧ Forall (λ c, is_punctuation c = true) (chars post)
    ∧ (∀ c, head (chars keyword) = Some c → is_punctuation c = false)
    ∧ (∀ c, last (chars keyword) = Some c → is_punctuation c = false).

(** Following the spec's words: "lowercase, whitespace-split, strip
    trailing punctuation, drop tokens in a fixed stop-word set and tokens
    of length ≤ 2, keep at most the first 5 remaining tokens, in original
    order", for the stop-word set [stop]. *)
Definition spec_keywords (stop : gset string) (query : string) : list string :=
  take 5
    (filter (λ w, (w ∉ stop) ∧ (2 < String.length w)%nat)
       (PyStr.rstrip_by is_punctuation <$> PyStr.split (PyStr.lower query))).

(** * Properties *)

(** ** Strings and the acceptance policy *)

Lemma truthy_spec (s : string) : PyStr.truthy s = true ↔ s ≠ "".
Proof. destruct s; simpl; split; congruence. Qed.

(** [_should_process_entity] is the conjunction of its three tests. *)
Lemma should_process_entity_spec (e : Entity) :
  _should_process_entity e = true ↔
    float_lt (confidence e) float_0_3 = false
    ∧ PyStr.strip (name e) ≠ ""
    ∧ PyStr.lower (name e) ∉ generic_names.
Proof.
  unfold _should_process_entity.
  destruct (float_lt _ _); [split; [done|]; by intros [? _]|].
  destruct (name e) as [|c s] eqn:Hn.
  { simpl. split; [done|]. intros (_ & Hs & _). by destruct Hs. }
  cbn [PyStr.truthy negb orb].
  destruct (PyStr.truthy (PyStr.strip (String c s))) eqn:Hs; cbn [negb].
  - apply truthy_spec in Hs. case_bool_decide as Hg.
    + split; [done|]. by intros (_ & _ & Hg').
    + done.
  - split; [done|]. intros (_ & Hs' & _). apply truthy_spec in Hs'. congruence.
Qed.

(** [_should_process_relationship] is the conjunction of its tests. *)
Lemma should_process_relationship_spec (r : Relationship) :
  _should_process_relationship r = true ↔
    float_lt (rel_confidence r) float_0_3 = false
    ∧ PyStr.strip (from_entity r) ≠ ""
    ∧ PyStr.strip (to_entity r) ≠ ""
    ∧ PyStr.lower (from_entity r) ≠ PyStr.lower (to_entity r).
Proof.
  unfold _should_process_relationship.
  destruct (float_lt _ _); [split; [done|]; by intros [? _]|].
  destruct (PyStr.truthy (PyStr.strip (from_entity r))) eqn:Hf;
    destruct (PyStr.truthy (PyStr.strip (to_entity r))) eqn:Ht;
    destruct (from_entity r) as [|c s] eqn:Hfe;
    destruct (to_entity r) as [|c' s'] eqn:Hte;
    try discriminate Hf; try discriminate Ht;
    cbn [PyStr.truthy negb orb];
    try (apply truthy_spec in Hf); try (apply truthy_spec in Ht);
    try (split; [done|]; intros (_ & Hf' & Ht' & _);
         try (apply truthy_spec in Hf'); try (apply truthy_spec in Ht');
         congruence).
  destruct (String.eqb _ _) eqn:He.
  - apply String.eqb_eq in He. split; [done|]. intros (_ & _ & _ & Hne). done.
  - apply String.eqb_neq in He. done.
Qed.

(** Below the floor, a candidate is rejected. *)
Lemma should_process_entity_below_floor (e : Entity) :
  float_lt (confidence e) float_0_3 = true → _should_process_entity e = false.
Proof. intros Hlt. unfold _should_process_entity. by rewrite Hlt. Qed.

Lemma should_process_relationship_below_floor (r : Relationship) :
  float_lt (rel_confidence r) float_0_3 = true →
  _should_process_relationship r = false.
Proof. intros Hlt. unfold _should_process_relationship. by rewrite Hlt. Qed.

(** At the floor itself the confidence test passes: the candidate is
    accepted when its name is. *)
Lemma should_process_entity_at_floor (e : Entity) :
  confidence e = float_0_3 →
  PyStr.strip (name e) ≠ "" →
  PyStr.lower (name e) ∉ generic_names →
  _should_process_entity e = true.
Proof.
  intros Hc Hs Hg. apply should_process_entity_spec.
  rewrite Hc. split; [reflexivity|done].
Qed.

Lemma should_process_relationship_at_floor (r : Relationship) :
  rel_confidence r = float_0_3 →
  PyStr.strip (from_entity r) ≠ "" →
  PyStr.strip (to_entity r) ≠ "" →
  PyStr.lower (from_entity r) ≠ PyStr.lower (to_entity r) →
  _should_process_relationship r = true.
Proof.
  intros Hc Hf Ht Hne. apply should_process_relationship_spec.
  rewrite Hc. split; [reflexivity|done].
Qed.

(** ** The log of the store methods *)

Ltac unfold_M :=
  unfold mbind, M_bind, mret, M_ret, log_call, get_store, put_store,
    session_run in *;
  cbn [graph_manager calls queries fst snd] in *.

(** Runs one store method on a world whose store has been destructed. *)
Ltac run_method :=
  unfold_M;
  repeat (match goal with
          | |- context [run ?q ?p ?d] => destruct (run q p d) as [? ?]
          | |- context [match ?x with Some _ => _ | None => _ end] => destruct x
          end;
          cbn [graph_manager calls queries fst snd] in *).

Section Log.
Context `{Backend}.

Lemma logs_ret {A : Type} (x : A) : logs (mret x : M A) [].
Proof. intros w. unfold_M. by rewrite app_nil_r. Qed.

Lemma logs_bind {A B : Type} (m : M A) (f : A → M B) cs1 cs2 :
  logs m cs1 → (∀ a, logs (f a) cs2) → logs (m ≫= f) (cs1 ++ cs2).
Proof.
  intros Hm Hf w. unfold mbind, M_bind.
  specialize (Hm w). destruct (m w) as [a w1]. simpl in Hm.
  rewrite (Hf a w1), Hm. by rewrite app_assoc.
Qed.

Lemma logs_create_or_update_node name node_type props :
  logs (create_or_update_node name node_type props)
       [call_create_or_update_node name node_type props].
Proof.
  intros [[d|nodes rels] cs qs]; unfold create_or_update_node,
    _demo_create_or_update_node; by run_method.
Qed.

Lemma logs_create_relationship a b t props :
  logs (create_relationship a b t props) [call_create_relationship a b t props].
Proof. intros [[d|nodes rels] cs qs]; unfold create_relationship; by run_method. Qed.

Lemma logs_get_node name : logs (get_node name) [call_get_node name].
Proof. intros [[d|nodes rels] cs qs]; unfold get_node; by run_method. Qed.

Lemma logs_get_node_with_relationships name :
  logs (get_node_with_relationships name) [call_get_node_with_relationships name].
Proof.
  intros [[d|nodes rels] cs qs]; unfold get_node_with_relationships; by run_method.
Qed.

Lemma logs_get_all_nodes : logs get_all_nodes [call_get_all_nodes].
Proof. intros [[d|nodes rels] cs qs]; unfold get_all_nodes; by run_method. Qed.

Lemma logs_get_nodes_by_type t :
  logs (get_nodes_by_type t) [call_get_nodes_by_type t].
Proof. intros [[d|nodes rels] cs qs]; unfold get_nodes_by_type; by run_method. Qed.

Lemma logs_search_nodes_by_name term :
  logs (search_nodes_by_name term) [call_search_nodes_by_name term].
Proof. intros [[d|nodes rels] cs qs]; unfold search_nodes_by_name; by run_method. Qed.

Lemma logs_get_node_relationships name :
  logs (get_node_relationships name) [call_get_node_relationships name].
Proof.
  intros [[d|nodes rels] cs qs]; unfold get_node_relationships; by run_method.
Qed.

Lemma logs_update_node_properties name props :
  logs (update_node_properties name props) [call_update_node_properties name props].
Proof.
  intros [[d|nodes rels] cs qs]; unfold update_node_properties; by run_method.
Qed.

Lemma logs_delete_node name : logs (delete_node name) [call_delete_node name].
Proof. intros [[d|nodes rels] cs qs]; unfold delete_node; by run_method. Qed.

Lemma logs_delete_relationship a b t :
  logs (delete_relationship a b t) [call_delete_relationship a b t].
Proof. intros [[d|nodes rels] cs qs]; unfold delete_relationship; by run_method. Qed.

Lemma logs_get_graph_statistics :
  logs get_graph_statistics [call_get_graph_statistics].
Proof.
  intros [[d|nodes rels] cs qs]; unfold get_graph_statistics; by run_method.
Qed.

(** A counting loop logs what its bodies log, in the order of the list. *)
Lemma logs_count_loop {A : Type} (body : A → M bool) (f : A → list call) xs n :
  (∀ x, logs (body x) (f x)) → logs (count_loop body xs n) (flat_map f xs).
Proof.
  intros Hbody. revert n. induction xs as [|x xs IH]; intros n; simpl.
  - apply logs_ret.
  - apply logs_bind; [apply Hbody|]. intros counted. apply IH.
Qed.

End Log.

(** ** The DELETE path *)

Lemma flat_map_if_filter {A B : Type} (p : A → bool) (f : A → B) (xs : list A) :
  flat_map (λ x, if p x then [f x] else []) xs = f <$> filter (λ x, p x) xs.
Proof.
  induction xs as [|x xs IH]; [done|].
  simpl. rewrite filter_cons, IH. by destruct (p x).
Qed.

Section Delete.
Context `{Backend}.

Lemma logs_delete_relationship_body r :
  logs (delete_relationship_body r)
       (if _should_process_relationship r
        then [call_delete_relationship (from_entity r) (to_entity r) (rel_type r)]
        else []).
Proof.
  unfold delete_relationship_body. destruct (_should_process_relationship r).
  - apply logs_delete_relationship.
  - apply logs_ret.
Qed.

Lemma logs_delete_entity_body e :
  logs (delete_entity_body e)
       (if deletable e then [call_delete_node (name e)] else []).
Proof.
  unfold delete_entity_body, deletable. destruct (_ && _).
  - apply logs_delete_node.
  - apply logs_ret.
Qed.

Lemma logs_execute_delete parsed result :
  logs (_execute_delete parsed result)
       (relationship_deletions parsed ++ entity_deletions parsed).
Proof.
  unfold _execute_delete.
  replace (relationship_deletions parsed ++ entity_deletions parsed)
    with (relationship_deletions parsed ++ entity_deletions parsed ++ [])
    by (by rewrite app_nil_r).
  apply logs_bind.
  { unfold relationship_deletions. rewrite <- flat_map_if_filter.
    apply logs_count_loop, logs_delete_relationship_body. }
  intros n. apply logs_bind; [|intros m; apply logs_ret].
  unfold entity_deletions.
  erewrite (list_filter_iff _ (λ e, deletable e)).
  - rewrite <- flat_map_if_filter.
    apply logs_count_loop, logs_delete_entity_body.
  - intros e. unfold deletable.
    rewrite andb_True, negb_True, bool_decide_spec. done.
Qed.

(** C7. On a DELETE intent the executor calls, in this order,
    [delete_relationship] for every accepted relationship candidate and
    then [delete_node] for the accepted entity candidates whose lowered
    name is none of "user", "me", "i"; so no [delete_node] call ever names
    a candidate whose lowered name is one of the three, whatever its
    confidence, and no [delete_relationship] call comes after a
    [delete_node] call. *)
Theorem delete_never_removes_protected (parsed : ParsedConversation) (w : world) :
  intent parsed = "DELETE" →
  let new_calls := relationship_deletions parsed ++ entity_deletions parsed in
  calls (execute_parsed_conversation parsed w).2 = calls w ++ new_calls
  ∧ (∀ nm, PyStr.lower nm ∈ protected_names → call_delete_node nm ∉ new_calls)
  ∧ (∀ i j a b t nm,
       new_calls !! i = Some (call_delete_relationship a b t) →
       new_calls !! j = Some (call_delete_node nm) →
       (i < j)%nat).
Proof.
  intros Hintent new_calls. split; [|split].
  - unfold execute_parsed_conversation. rewrite Hintent. simpl.
    apply logs_execute_delete.
  - intros nm Hnm Hin. apply elem_of_app in Hin as [Hin|Hin].
    + apply list_elem_of_fmap in Hin as (r & Hr & _). discriminate Hr.
    + apply list_elem_of_fmap in Hin as (e & He & Hin).
      apply list_elem_of_filter in Hin as [[_ Hprot] _].
      injection He as ->. done.
  - intros i j a b t nm Hi Hj.
    destruct (decide (i < length (relationship_deletions parsed))%nat) as [Hlt|Hge].
    + destruct (decide (j < length (relationship_deletions parsed))%nat) as [Hj'|Hj'].
      * unfold new_calls in Hj. rewrite lookup_app_l in Hj by done.
        apply list_elem_of_lookup_2, list_elem_of_fmap in Hj as (r & Hr & _).
        discriminate Hr.
      * lia.
    + unfold new_calls in Hi. rewrite lookup_app_r in Hi by lia.
      apply list_elem_of_lookup_2, list_elem_of_fmap in Hi as (e & He & _).
      discriminate He.
Qed.

End Delete.

(** ** Rejected candidates on the writing paths *)

Section Skip.
Context `{Backend}.

(** A body that does nothing for [x] makes the loop run as if [x] were
    not in the list. *)
Lemma count_loop_skip {A : Type} (body : A → M bool) xs1 x xs2 n w :
  (∀ w', body x w' = (false, w')) →
  count_loop body (xs1 ++ x :: xs2) n w = count_loop body (xs1 ++ xs2) n w.
Proof.
  intros Hskip. revert n w. induction xs1 as [|y xs1 IH]; intros n w; simpl.
  - unfold mbind, M_bind. by rewrite Hskip.
  - unfold mbind, M_bind. destruct (body y w) as [counted w1]. apply IH.
Qed.

Lemma bind_ext {A B : Type} (m1 m2 : M A) (f : A → M B) w :
  m1 w = m2 w → (m1 ≫= f) w = (m2 ≫= f) w.
Proof. intros Heq. unfold mbind, M_bind. by rewrite Heq. Qed.

Lemma bind_ext_r {A B : Type} (m : M A) (f g : A → M B) w :
  (∀ a w', f a w' = g a w') → (m ≫= f) w = (m ≫= g) w.
Proof. intros Heq. unfold mbind, M_bind. destruct (m w). apply Heq. Qed.

(** On the CREATE, UPDATE and DELETE paths an entity candidate that fails
    the acceptance policy is skipped: the execution returns the same
    result and leaves the same store and the same log as the execution
    without the candidate. *)
Lemma rejected_entity_skipped parsed es1 e es2 w :
  _should_process_entity e = false →
  intent parsed ∈ ["CREATE"; "UPDATE"; "DELETE"] →
  execute_parsed_conversation (with_entities parsed (es1 ++ e :: es2)) w
  = execute_parsed_conversation (with_entities parsed (es1 ++ es2)) w.
Proof.
  intros Hrej Hintent. unfold execute_parsed_conversation.
  cbn [intent with_entities].
  set (result := {| result_intent := intent parsed; success := false;
                    message := ""; entities_processed := 0;
                    relationships_processed := 0; data := DataNone |}).
  apply elem_of_cons in Hintent as [->|Hintent]; [|
  apply elem_of_cons in Hintent as [->|Hintent]; [|
  apply list_elem_of_singleton in Hintent as ->]]; simpl.
  - unfold _execute_create. cbn [entities relationships with_entities].
    apply bind_ext, count_loop_skip. intros w'.
    unfold create_entity_body. by rewrite Hrej.
  - unfold _execute_update. cbn [entities relationships with_entities].
    apply bind_ext, count_loop_skip. intros w'.
    unfold update_entity_body. by rewrite Hrej.
  - unfold _execute_delete. cbn [entities relationships with_entities].
    apply bind_ext_r. intros n w'.
    apply bind_ext, count_loop_skip. intros w''.
    unfold delete_entity_body. by rewrite Hrej.
Qed.

(** On every path a relationship candidate that fails the acceptance
    policy is skipped in the same sense. *)
Lemma rejected_relationship_skipped parsed rs1 r rs2 w :
  _should_process_relationship r = false →
  execute_parsed_conversation (with_relationships parsed (rs1 ++ r :: rs2)) w
  = execute_parsed_conversation (with_relationships parsed (rs1 ++ rs2)) w.
Proof.
  intros Hrej. unfold execute_parsed_conversation.
  cbn [intent with_relationships].
  set (result := {| result_intent := intent parsed; success := false;
                    message := ""; entities_processed := 0;
                    relationships_processed := 0; data := DataNone |}).
  destruct (String.eqb (intent parsed) "CREATE").
  { unfold _execute_create. cbn [entities relationships with_relationships].
    apply bind_ext_r. intros n w'.
    apply bind_ext, count_loop_skip. intros w''.
    unfold create_relationship_body. by rewrite Hrej. }
  destruct (_ || _); [done|].
  destruct (String.eqb (intent parsed) "UPDATE").
  { unfold _execute_update. cbn [entities relationships with_relationships].
    apply bind_ext_r. intros n w'.
    apply bind_ext, count_loop_skip. intros w''.
    unfold update_relationship_body. by rewrite Hrej. }
  destruct (String.eqb (intent parsed) "DELETE"); [|done].
  unfold _execute_delete. cbn [entities relationships with_relationships].
  apply bind_ext, count_loop_skip. intros w'.
  unfold delete_relationship_body. by rewrite Hrej.
Qed.

End Skip.

(** ** The READ path *)

Section Read.
Context `{Backend}.

Lemma logs_grows {A : Type} (m : M A) cs : logs m cs → grows m.
Proof. intros Hm w. exists cs. apply Hm. Qed.

Lemma grows_bind {A B : Type} (m : M A) (f : A → M B) :
  grows m → (∀ a, grows (f a)) → grows (m ≫= f).
Proof.
  intros Hm Hf w. unfold mbind, M_bind.
  destruct (Hm w) as [r1 H1]. destruct (m w) as [a w1].
  destruct (Hf a w1) as [r2 H2]. exists (r1 ++ r2).
  rewrite H2. simpl in H1. rewrite H1. by rewrite app_assoc.
Qed.

Lemma logs_then_grows {A B : Type} (m : M A) (f : A → M B) cs :
  logs m cs → (∀ a, grows (f a)) →
  ∀ w, ∃ rest, calls ((m ≫= f) w).2 = calls w ++ cs ++ rest.
Proof.
  intros Hm Hf w. unfold mbind, M_bind.
  specialize (Hm w). destruct (m w) as [a w1].
  destruct (Hf a w1) as [r2 H2]. exists r2.
  rewrite H2. simpl in Hm. rewrite Hm. by rewrite app_assoc.
Qed.

Lemma logs_extend_loop {A B : Type} (body : A → M (list B))
    (f : A → list call) xs acc :
  (∀ x, logs (body x) (f x)) → logs (extend_loop body xs acc) (flat_map f xs).
Proof.
  intros Hbody. revert acc. induction xs as [|x xs IH]; intros acc; simpl.
  - apply logs_ret.
  - apply logs_bind; [apply Hbody|]. intros found. apply IH.
Qed.

Lemma logs_read_entity_body e :
  logs (read_entity_body e)
       (if negb (String.eqb (PyStr.lower (name e)) "user")
        then [call_get_node_with_relationships (name e)] else []).
Proof.
  unfold read_entity_body. destruct (negb _).
  - replace [call_get_node_with_relationships (name e)]
      with ([call_get_node_with_relationships (name e)] ++ []) by done.
    apply logs_bind; [apply logs_get_node_with_relationships|].
    intros a. apply logs_ret.
  - apply logs_ret.
Qed.

Lemma logs_read_type_body e :
  logs (read_type_body e)
       (if PyStr.truthy (type e) && negb (String.eqb (type e) "Person")
        then [call_get_nodes_by_type (type e)] else []).
Proof.
  unfold read_type_body. destruct (_ && _).
  - apply logs_get_nodes_by_type.
  - apply logs_ret.
Qed.

(** With at least one candidate, [_execute_read] starts with the lookups
    of [read_lookups], whatever the candidates' confidence and names. *)
Lemma execute_read_lookups parsed result w :
  entities parsed ≠ [] →
  ∃ rest, calls (_execute_read parsed result w).2
          = calls w ++ read_lookups parsed ++ rest.
Proof.
  intros Hne. unfold _execute_read.
  destruct (entities parsed) as [|e0 es] eqn:Hes; [done|].
  cbn [is_empty]. rewrite <- Hes.
  apply logs_then_grows.
  - unfold read_lookups.
    erewrite (list_filter_iff _
                (λ e, negb (String.eqb (PyStr.lower (name e)) "user"))).
    + rewrite <- flat_map_if_filter.
      apply logs_extend_loop, logs_read_entity_body.
    + intros e. rewrite negb_True, Is_true_true, String.eqb_eq. done.
  - intros query_results. apply grows_bind.
    + destruct (_ && _).
      * eapply logs_grows, logs_extend_loop, logs_read_type_body.
      * eapply logs_grows, logs_ret.
    + intros a. eapply logs_grows, logs_ret.
Qed.

(** C3, at the input where the code leaves the claim. On a READ or QUERY
    intent an entity candidate that fails the acceptance policy (too low a
    confidence, a blank name or a generic name) is looked up all the same:
    [get_node_with_relationships] is called with its name, unless its
    lowered name is "user". *)
Theorem read_looks_up_rejected_entity (parsed : ParsedConversation)
    (e : Entity) (w : world) :
  intent parsed = "READ" ∨ intent parsed = "QUERY" →
  e ∈ entities parsed →
  _should_process_entity e = false →
  PyStr.lower (name e) ≠ "user" →
  ∃ before after,
    calls (execute_parsed_conversation parsed w).2
    = calls w ++ before ++ call_get_node_with_relationships (name e) :: after.
Proof.
  intros Hintent Hin _ Huser.
  assert (Hne : entities parsed ≠ []).
  { intros Hnil. rewrite Hnil in Hin. inversion Hin. }
  assert (Hlook : call_get_node_with_relationships (name e) ∈ read_lookups parsed).
  { unfold read_lookups. apply list_elem_of_fmap. exists e. split; [done|].
    apply list_elem_of_filter. by split. }
  apply list_elem_of_split in Hlook as (l1 & l2 & Hlook).
  set (result := {| result_intent := intent parsed; success := false;
                    message := ""; entities_processed := 0;
                    relationships_processed := 0; data := DataNone |}).
  destruct (execute_read_lookups parsed result w Hne) as [rest Hcalls].
  exists l1, (l2 ++ rest).
  assert (Hexec : execute_parsed_conversation parsed w
                  = _execute_read parsed result w).
  { assert (Hc : String.eqb (intent parsed) "CREATE" = false)
      by (by destruct Hintent as [Hi|Hi]; rewrite Hi).
    assert (Hr : String.eqb (intent parsed) "READ"
                 || String.eqb (intent parsed) "QUERY" = true)
      by (by destruct Hintent as [Hi|Hi]; rewrite Hi).
    unfold execute_parsed_conversation. by rewrite Hc, Hr. }
  rewrite Hexec, Hcalls, Hlook. by rewrite <- !app_assoc.
Qed.

End Read.

(** ** The relationship type in the query text *)

Section RelationshipType.
Context `{Backend}.

(** C2, as the code has it. Neither [create_relationship] nor
    [delete_relationship] compares [rel_type] with any list: with a driver,
    for every [rel_type] whatsoever, each sends exactly one query, whose
    text is the template with [rel_type] spliced in as it came; without a
    driver both return [False] and send nothing. *)
Theorem relationship_type_spliced_unvalidated (a b rel_type : string)
    (props : node) (cs : list call) (qs : list (string * pydict)) :
  (∀ d : db,
     let w := {| graph_manager := Driver d; calls := cs; queries := qs |} in
     queries (create_relationship a b rel_type props w).2
     = qs ++ [(create_relationship_query_head +:+ rel_type
                 +:+ create_relationship_query_tail,
               <["from_node" := Atom (SStr a)]>
                 (<["to_node" := Atom (SStr b)]>
                    {["properties" := PDict (Atom <$> props)]}))]
     ∧ queries (delete_relationship a b rel_type w).2
       = qs ++ [(delete_relationship_query_head +:+ rel_type
                   +:+ delete_relationship_query_tail,
                 <["from_node" := Atom (SStr a)]>
                   {["to_node" := Atom (SStr b)]})])
  ∧ (∀ nodes rels,
       let w := {| graph_manager := NoDriver nodes rels;
                   calls := cs; queries := qs |} in
       create_relationship a b rel_type props w
       = (false, {| graph_manager := NoDriver nodes rels;
                    calls := cs ++ [call_create_relationship a b rel_type props];
                    queries := qs |})
       ∧ delete_relationship a b rel_type w
         = (false, {| graph_manager := NoDriver nodes rels;
                      calls := cs ++ [call_delete_relationship a b rel_type];
                      queries := qs |})).
Proof.
  split.
  - intros d w. subst w. split.
    + unfold create_relationship. by run_method.
    + unfold delete_relationship. by run_method.
  - intros nodes rels w. by subst w.
Qed.

End RelationshipType.

(** ** The demo node list *)

Arguments name_is : simpl never.

Section DemoNodes.
Context `{Backend}.

Lemma demo_update_first_None name node_type props nodes :
  demo_update_first name node_type props nodes = None ↔ named name nodes = [].
Proof.
  unfold named. induction nodes as [|n nodes IH]; [done|].
  simpl. rewrite filter_cons. destruct (name_is n name) eqn:Hn; simpl; [done|].
  destruct (demo_update_first _ _ _ nodes); simpl; [|tauto].
  split; [done|]. intros Hnil. by apply IH in Hnil.
Qed.

(** A property bag without a ["name"] entry leaves the name of the node
    it is merged into. *)
Lemma name_is_update (n : node) (nm node_type : string) (props : node) :
  props !! "name" = None →
  name_is (demo_update_fields node_type props ∪ n) nm = name_is n nm.
Proof.
  intros Hp. unfold name_is, demo_update_fields.
  rewrite lookup_union_r; [done|].
  rewrite lookup_insert_ne by done.
  rewrite lookup_union_None. split; [done|]. by rewrite lookup_singleton_ne.
Qed.

Lemma demo_update_first_Some name node_type props nodes nodes' :
  props !! "name" = None →
  demo_update_first name node_type props nodes = Some nodes' →
  ∃ n rest, named name nodes = n :: rest
            ∧ named name nodes' = (demo_update_fields node_type props ∪ n) :: rest.
Proof.
  intros Hp. unfold named. revert nodes'.
  induction nodes as [|n nodes IH]; intros nodes' Hup; [done|].
  simpl in Hup. rewrite filter_cons.
  destruct (name_is n name) eqn:Hn; cbn [decide Is_true_dec].
  - injection Hup as <-.
    exists n, (filter (λ n, name_is n name) nodes). split; [done|].
    rewrite filter_cons, decide_True; [done|].
    by rewrite name_is_update, Hn.
  - destruct (demo_update_first _ _ _ nodes) as [nodes''|]; [|done].
    injection Hup as <-. destruct (IH nodes'' eq_refl) as (m & rest & H1 & H2).
    exists m, rest. split; [exact H1|].
    rewrite filter_cons, Hn. exact H2.
Qed.

Lemma name_is_new_node name node_type props :
  props !! "name" = None →
  name_is (demo_new_node name node_type props) name = true.
Proof.
  intros Hp. unfold name_is, demo_new_node. apply bool_decide_eq_true.
  rewrite lookup_insert_ne by done.
  rewrite lookup_union_r by done.
  rewrite lookup_insert_ne by done. by rewrite lookup_singleton_eq.
Qed.

(** What one call does to the nodes called [name], when the property bag
    has no ["name"] entry: the first of them is updated, or, when there is
    none, one is added. *)
Lemma demo_create_or_update_named name node_type props nodes rels cs qs :
  props !! "name" = None →
  let w := {| graph_manager := NoDriver nodes rels; calls := cs; queries := qs |} in
  ∃ nodes',
    create_or_update_node name node_type props w
    = (true, {| graph_manager := NoDriver nodes' rels;
                calls := cs ++ [call_create_or_update_node name node_type props];
                queries := qs |})
    ∧ named name nodes'
      = match named name nodes with
        | [] => [demo_new_node name node_type props]
        | n :: rest => (demo_update_fields node_type props ∪ n) :: rest
        end.
Proof.
  intros Hp w. subst w.
  unfold create_or_update_node, _demo_create_or_update_node. unfold_M.
  destruct (demo_update_first name node_type props nodes) as [nodes'|] eqn:Hup.
  - exists nodes'. split; [done|].
    destruct (demo_update_first_Some _ _ _ _ _ Hp Hup) as (n & rest & -> & ->).
    done.
  - eexists. split; [done|].
    apply demo_update_first_None in Hup. rewrite Hup.
    unfold named in *. rewrite filter_app, Hup. simpl.
    rewrite filter_cons, decide_True; [done|].
    by rewrite name_is_new_node.
Qed.

(** The part of C9 that holds: when the property bag has no ["name"]
    entry and the list holds at most one node called [name], two calls
    with the same arguments leave exactly one node called [name], and its
    record is the record after the first call overlaid with the type and
    the properties of the second call, stamped with [updated_at]. *)
Lemma demo_merge_idempotent name node_type props nodes rels cs qs :
  props !! "name" = None →
  (length (named name nodes) ≤ 1)%nat →
  let w := {| graph_manager := NoDriver nodes rels; calls := cs; queries := qs |} in
  let w1 := (create_or_update_node name node_type props w).2 in
  let w2 := (create_or_update_node name node_type props w1).2 in
  ∃ nodes1 nodes2 n1,
    graph_manager w1 = NoDriver nodes1 rels
    ∧ graph_manager w2 = NoDriver nodes2 rels
    ∧ named name nodes1 = [n1]
    ∧ named name nodes2
      = [<["updated_at" := demo_timestamp]>
           (props ∪ <["type" := SStr node_type]> n1)].
Proof.
  intros Hp Hlen w w1 w2. subst w w1 w2.
  destruct (demo_create_or_update_named name node_type props nodes rels cs qs Hp)
    as (nodes1 & Hrun1 & Hnamed1).
  cbn zeta in Hrun1. rewrite Hrun1. cbn [snd].
  destruct (demo_create_or_update_named name node_type props nodes1 rels
              (cs ++ [call_create_or_update_node name node_type props]) qs Hp)
    as (nodes2 & Hrun2 & Hnamed2).
  cbn zeta in Hrun2. rewrite Hrun2. cbn [snd graph_manager].
  assert (Hone : ∃ n1, named name nodes1 = [n1]).
  { rewrite Hnamed1. destruct (named name nodes) as [|n [|n' rest]]; eauto.
    simpl in Hlen. lia. }
  destruct Hone as [n1 Hone]. exists nodes1, nodes2, n1.
  repeat split; [done|]. rewrite Hnamed2, Hone. f_equal.
  unfold demo_update_fields.
  rewrite <- insert_union_l. f_equal.
  rewrite <- (assoc_L (∪)). f_equal. by rewrite insert_union_singleton_l.
Qed.

End DemoNodes.

Section Flattening.
Context `{Backend}.

(** When a node called [name] exists, the loop updates one such node in
    place and leaves the others. *)
Lemma demo_update_first_split name node_type props nodes nodes' :
  demo_update_first name node_type props nodes = Some nodes' →
  ∃ pre n post,
    nodes = pre ++ n :: post
    ∧ name_is n name = true
    ∧ nodes' = pre ++ (demo_update_fields node_type props ∪ n) :: post.
Proof.
  revert nodes'. induction nodes as [|n nodes IH]; intros nodes' Hup; [done|].
  simpl in Hup. destruct (name_is n name) eqn:Hn.
  - injection Hup as <-. by exists [], n, nodes.
  - destruct (demo_update_first _ _ _ nodes) as [nodes''|]; [|done].
    injection Hup as <-.
    destruct (IH nodes'' eq_refl) as (pre & m & post & -> & Hm & ->).
    by exists (n :: pre), m, post.
Qed.

Lemma flattened_key_wins (k : string) (v : scalar) (name node_type : string)
    (props n : node) :
  props !! k = Some v → k = "name" ∨ k = "type" →
  demo_new_node name node_type props !! k = Some v
  ∧ (demo_update_fields node_type props ∪ n) !! k = Some v.
Proof.
  intros Hk Hkey. unfold demo_new_node, demo_update_fields. split.
  - rewrite lookup_insert_ne by (by destruct Hkey as [-> | ->]).
    by apply lookup_union_Some_l.
  - apply lookup_union_Some_l.
    rewrite lookup_insert_ne by (by destruct Hkey as [-> | ->]).
    by apply lookup_union_Some_l.
Qed.

(** C10. In fallback mode the property bag is flattened into the node
    record, after the name and the type: an entry ["name"] or ["type"] of
    the bag is what the written node holds under that key, in a new node
    and in an updated one. So [create_or_update_node("A", t, {"name": "B"})]
    on a list with no node called "A" appends a node called "B"; any later
    call for "A" finds no "A" and appends a second node instead of updating
    the first; when the later call is the same call again, the list holds
    two nodes called "B". *)
Theorem demo_properties_overwrite_identity (nodes : list node)
    (rels : list pydict) (cs : list call) (qs : list (string * pydict)) :
  let w := {| graph_manager := NoDriver nodes rels; calls := cs; queries := qs |} in
  (∀ name node_type props k v,
     props !! k = Some v → k = "name" ∨ k = "type" →
     ∃ pre written post,
       graph_manager (create_or_update_node name node_type props w).2
       = NoDriver (pre ++ written :: post) rels
       ∧ (nodes = pre ++ post ∧ post = []
          ∨ ∃ old, nodes = pre ++ old :: post ∧ name_is old name = true)
       ∧ written !! k = Some v)
  ∧ (∀ t,
       named "A" nodes = [] →
       let props : node := {["name" := SStr "B"]} in
       let w1 := (create_or_update_node "A" t props w).2 in
       ∃ b, b !! "name" = Some (SStr "B")
            ∧ graph_manager w1 = NoDriver (nodes ++ [b]) rels
            ∧ (∀ t' props',
                 graph_manager (create_or_update_node "A" t' props' w1).2
                 = NoDriver (nodes ++ [b; demo_new_node "A" t' props']) rels)
            ∧ demo_new_node "A" t props = b
            ∧ named "B" (nodes ++ [b; b]) = named "B" nodes ++ [b; b]).
Proof.
  intros w. subst w. split.
  - intros name node_type props k v Hk Hkey.
    unfold create_or_update_node, _demo_create_or_update_node. unfold_M.
    destruct (flattened_key_wins k v name node_type props ∅ Hk Hkey) as [Hnew _].
    destruct (demo_update_first name node_type props nodes) as [nodes'|] eqn:Hup;
      cbn [graph_manager snd].
    + apply demo_update_first_split in Hup as (pre & n & post & -> & Hn & ->).
      exists pre, (demo_update_fields node_type props ∪ n), post.
      split; [done|]. split; [right; by exists n|].
      by apply (flattened_key_wins k v name node_type props n).
    + exists nodes, (demo_new_node name node_type props), [].
      split; [done|]. split; [left; by rewrite app_nil_r|done].
  - intros t HA props w1. subst props w1.
    set (props := {["name" := SStr "B"]} : node).
    set (b := demo_new_node "A" t props).
    assert (HbB : name_is b "B" = true) by (by apply bool_decide_eq_true).
    assert (HbA : name_is b "A" = false) by (by apply bool_decide_eq_false).
    assert (HA1 : named "A" (nodes ++ [b]) = []).
    { unfold named in *. rewrite filter_app, HA. simpl.
      rewrite filter_cons, HbA. done. }
    assert (Hrun1 :
      create_or_update_node "A" t props
        {| graph_manager := NoDriver nodes rels; calls := cs; queries := qs |}
      = (true, {| graph_manager := NoDriver (nodes ++ [b]) rels;
                  calls := cs ++ [call_create_or_update_node "A" t props];
                  queries := qs |})).
    { unfold create_or_update_node, _demo_create_or_update_node. unfold_M.
      by rewrite (proj2 (demo_update_first_None "A" t props nodes) HA). }
    rewrite Hrun1. cbn [snd graph_manager].
    exists b. split; [done|]. split; [done|]. split; [|split; [done|]].
    + intros t' props'.
      unfold create_or_update_node, _demo_create_or_update_node. unfold_M.
      rewrite (proj2 (demo_update_first_None "A" t' props' _) HA1).
      cbn [snd graph_manager]. by rewrite <- (assoc_L (++)).
    + unfold named in *. rewrite !filter_app.
      rewrite !filter_cons, HbB. done.
Qed.

(** C9, at the input where the code leaves the claim. Two calls of
    [create_or_update_node("A", "Person", {"name": "B"})] on the empty
    fallback store both return [True] and leave two nodes, none of them
    called "A" and both called "B". *)
Theorem merge_twice_with_name_property :
  let props : node := {["name" := SStr "B"]} in
  let r1 := create_or_update_node "A" "Person" props connect_failed in
  let r2 := create_or_update_node "A" "Person" props r1.2 in
  r1.1 = true ∧ r2.1 = true
  ∧ ∃ nodes2, graph_manager r2.2 = NoDriver nodes2 []
              ∧ length nodes2 = 2%nat
              ∧ named "A" nodes2 = []
              ∧ length (named "B" nodes2) = 2%nat.
Proof.
  intros props r1 r2. split; [done|]. split; [done|].
  eexists. split; [reflexivity|]. by vm_compute.
Qed.

End Flattening.

(** ** Fallback mode *)

Section Fallback.
Context `{Backend}.

Lemma fallback_connect_failed : fallback connect_failed.
Proof. by exists []. Qed.

Lemma fallback_perform c w : fallback w → fallback (perform c w).2.
Proof.
  intros (nodes & Hgm & Hq). destruct w as [gm cs qs]. simpl in Hgm, Hq. subst.
  destruct c; unfold perform, fallback;
    try (unfold create_or_update_node, _demo_create_or_update_node);
    try (unfold create_relationship); try (unfold get_node);
    try (unfold get_node_with_relationships); try (unfold get_all_nodes);
    try (unfold get_nodes_by_type); try (unfold search_nodes_by_name);
    try (unfold get_node_relationships); try (unfold update_node_properties);
    try (unfold delete_node); try (unfold delete_relationship);
    try (unfold get_graph_statistics);
    run_method; eauto.
Qed.

Lemma fallback_after history w : fallback w → fallback (after history w).
Proof.
  revert w. induction history as [|c history IH]; intros w Hw; [done|].
  simpl. by apply IH, fallback_perform.
Qed.

Lemma new_node_carries name node_type props :
  carries (demo_new_node name node_type props) name node_type props.
Proof.
  unfold carries, demo_new_node. repeat split.
  - intros Hp. rewrite lookup_insert_ne by done. rewrite lookup_union_r by done.
    rewrite lookup_insert_ne by done. by rewrite lookup_singleton_eq.
  - intros Hp. rewrite lookup_insert_ne by done. rewrite lookup_union_r by done.
    by rewrite lookup_insert_eq.
  - intros k v Hk Hc _. rewrite lookup_insert_ne by done.
    by apply lookup_union_Some_l.
Qed.

Lemma updated_node_carries name node_type props old :
  name_is old name = true →
  carries (demo_update_fields node_type props ∪ old) name node_type props.
Proof.
  intros Hold. apply bool_decide_eq_true in Hold.
  unfold carries, demo_update_fields. repeat split.
  - intros Hp. rewrite lookup_union_r; [done|].
    rewrite lookup_insert_ne by done. rewrite lookup_union_None.
    split; [done|]. by rewrite lookup_singleton_ne.
  - intros Hp. apply lookup_union_Some_l. rewrite lookup_insert_ne by done.
    rewrite lookup_union_r by done. by rewrite lookup_singleton_eq.
  - intros k v Hk _ Hu. apply lookup_union_Some_l.
    rewrite lookup_insert_ne by done. by apply lookup_union_Some_l.
Qed.

(** In fallback mode [create_or_update_node] returns [True], sends nothing
    and leaves a list of nodes that holds the record it has written. *)
Lemma fallback_create_or_update_node name node_type props w :
  fallback w →
  (create_or_update_node name node_type props w).1 = true
  ∧ ∃ pre written post,
      carries written name node_type props
      ∧ graph_manager (create_or_update_node name node_type props w).2
        = NoDriver (pre ++ written :: post) []
      ∧ queries (create_or_update_node name node_type props w).2 = [].
Proof.
  intros (nodes & Hgm & Hq). destruct w as [gm cs qs]. simpl in Hgm, Hq. subst.
  unfold create_or_update_node, _demo_create_or_update_node. unfold_M.
  destruct (demo_update_first name node_type props nodes) as [nodes'|] eqn:Hup;
    cbn [graph_manager calls queries fst snd].
  - split; [done|].
    apply demo_update_first_split in Hup as (pre & old & post & -> & Hold & ->).
    exists pre, (demo_update_fields node_type props ∪ old), post.
    split; [by apply updated_node_carries|done].
  - split; [done|]. exists nodes, (demo_new_node name node_type props), [].
    split; [apply new_node_carries|done].
Qed.

(** C1, as the code has it. In fallback mode, after any history of calls,
    [create_or_update_node] returns [True], sends no query and keeps the
    record it has written in the in-memory list, where
    [get_graph_statistics] counts it; but [get_node] returns [None] for the
    name just written, as do the other reads (empty results), and
    [update_node_properties] and the deletions report failure;
    [create_relationship] reports failure and changes nothing;
    [get_graph_statistics] reports zero relationships. *)
Theorem fallback_store_behaviour (history : list call)
    (name node_type : string) (props : node) :
  let w := after history connect_failed in
  let w1 := (create_or_update_node name node_type props w).2 in
  (create_or_update_node name node_type props w).1 = true
  ∧ (∃ pre written post,
       carries written name node_type props
       ∧ graph_manager w1 = NoDriver (pre ++ written :: post) []
       ∧ ∃ node_types,
           (get_graph_statistics w1).1
           = Stats (Atom (SInt (Z.of_nat (length (pre ++ written :: post)))))
                   (Atom (SInt 0)) node_types [])
  ∧ queries w1 = []
  ∧ (get_node name w1).1 = None
  ∧ (get_node_with_relationships name w1).1 = None
  ∧ (get_all_nodes w1).1 = []
  ∧ (get_nodes_by_type node_type w1).1 = []
  ∧ (search_nodes_by_name name w1).1 = []
  ∧ (get_node_relationships (Atom (SStr name)) w1).1 = []
  ∧ (update_node_properties name props w1).1 = false
  ∧ (delete_node name w1).1 = false
  ∧ (∀ a b t, (delete_relationship a b t w1).1 = false)
  ∧ (∀ a b t p,
       (create_relationship a b t p w1).1 = false
       ∧ graph_manager (create_relationship a b t p w1).2 = graph_manager w1).
Proof.
  intros w w1.
  assert (Hw : fallback w) by apply fallback_after, fallback_connect_failed.
  destruct (fallback_create_or_update_node name node_type props w Hw)
    as (Hok & pre & written & post & Hcarries & Hgm & Hq).
  fold w1 in Hgm, Hq. clearbody w1. destruct w1 as [gm cs qs].
  simpl in Hgm, Hq. subst gm qs.
  split; [done|]. split.
  { exists pre, written, post. repeat split; try apply Hcarries.
    eexists. reflexivity. }
  repeat split; done.
Qed.

End Fallback.

(** ** Keyword match *)

Section KeywordMatch.
Context `{Backend}.

(** The dictionaries [get_node_relationships] builds have five keys, and
    ["id"] is not one of them. *)
Lemma relationship_view_keys record view :
  relationship_view record = Some view →
  dom view = {["type"; "properties"; "target_name"; "target_type"; "direction"]}
  ∧ view !! "id" = None.
Proof.
  unfold relationship_view. intros Hview.
  destruct (column record "relationship_type"); [|done].
  destruct (column record "properties" ≫= to_dict); [|done].
  destruct (column record "connected_name"); [|done].
  destruct (column record "connected_type"); [|done].
  destruct (column record "direction"); [|done].
  simpl in Hview. injection Hview as <-. split.
  - rewrite !dom_insert_L, dom_singleton_L. set_solver.
  - done.
Qed.

Lemma get_node_relationships_no_id name w :
  Forall (λ view : pydict, view !! "id" = None) (get_node_relationships name w).1.
Proof.
  destruct w as [[d|nodes rels] cs qs]; unfold get_node_relationships;
    unfold_M; [|done].
  destruct (run _ _ d) as [[records|] d']; cbn [fst]; [|done].
  simpl. destruct (mapM relationship_view records) as [views|] eqn:Hviews; [|done].
  apply mapM_Some in Hviews.
  induction Hviews as [|record view records views Hview _ IH]; constructor; [|done].
  by apply relationship_view_keys in Hview as [_ ?].
Qed.

Lemma extend_loop_Forall {A B : Type} (P : B → Prop) (body : A → M (list B))
    xs acc w :
  (∀ x w', Forall P (body x w').1) → Forall P acc →
  Forall P (extend_loop body xs acc w).1.
Proof.
  intros Hbody. revert acc w. induction xs as [|x xs IH]; intros acc w Hacc; [done|].
  simpl. unfold mbind, M_bind. specialize (Hbody x w).
  destruct (body x w) as [found w1]. apply IH, Forall_app. by split.
Qed.

(** Without the key, no item gets through [_deduplicate_list]. *)
Lemma deduplicate_loop_missing_key key items seen unique_items :
  Forall (λ item : pydict, item !! key = None) items →
  deduplicate_loop key items seen unique_items = Some unique_items.
Proof.
  induction 1 as [|item items Hitem _ IH]; [done|]. simpl. by rewrite Hitem.
Qed.

Lemma slice_to_nil {A : Type} n : slice_to n ([] : list A) = [].
Proof. unfold slice_to. destruct (n <? 0); by rewrite take_nil. Qed.

(** C5, at the input where the code leaves the claim — which is every
    input. [_get_keyword_matches] deduplicates the relationships by the
    key ["id"], a key the dictionaries of [get_node_relationships] do not
    have; every relationship is dropped and the list returned is empty,
    whatever the matched entities' relationships are. *)
Theorem keyword_match_relationships_empty (query : string) (max_results : Z)
    (w : world) (found : keyword_matches) :
  (_get_keyword_matches query max_results w).1 = Some found →
  km_relationships found = [].
Proof.
  unfold _get_keyword_matches. unfold mbind at 1 2, M_bind.
  destruct (extend_loop _ (_extract_keywords query) [] w) as [es w1].
  pose proof (extend_loop_Forall (λ view : pydict, view !! "id" = None)
                (λ e : pydict,
                   get_node_relationships (default (Atom (SStr "")) (e !! "name")))
                es [] w1) as Hrels.
  destruct (extend_loop _ es [] w1) as [rs w2].
  unfold mret, M_ret. cbn [fst].
  destruct (_deduplicate_list es "name") as [es'|]; [|done]. simpl.
  unfold _deduplicate_list.
  rewrite deduplicate_loop_missing_key.
  - simpl. intros [= <-]. simpl. apply slice_to_nil.
  - apply Hrels; [|done]. intros x w'. apply get_node_relationships_no_id.
Qed.

End KeywordMatch.

(** ** Traversal *)

Section Traversal.
Context `{Backend}.

(** One expansion only appends: to the result, entries one level below
    the expanded entity; to the queue, at most as many items as entries,
    all of them above [max_depth]. *)
Lemma expand_appends visited current_depth max_depth current_path rels
    related queue related' queue' :
  expand visited current_depth max_depth current_path rels related queue
  = Some (related', queue') →
  ∃ new pushed,
    related' = related ++ new
    ∧ queue' = queue ++ pushed
    ∧ (length pushed ≤ length new)%nat
    ∧ Forall (λ e, depth e = current_depth + 1) new
    ∧ Forall (λ q, item_depth q < max_depth) pushed.
Proof.
  revert related queue.
  induction rels as [|rel rels IH]; intros related queue Hexp; simpl in Hexp.
  { injection Hexp as <- <-. exists [], []. by rewrite !app_nil_r. }
  destruct (pyval_truthy (get rel "target_name")); [|by apply IH].
  destruct (get rel "target_name") as [a| | | |]; try done.
  destruct (bool_decide (a ∈ visited)); [by apply IH|].
  apply IH in Hexp as (new & pushed & -> & -> & Hlen & Hnew & Hpushed).
  destruct (current_depth + 1 <? max_depth) eqn:Hlt.
  - eexists (_ :: new), (_ :: pushed).
    rewrite <- !(assoc_L (++)). repeat split; simpl; try done; [lia|..].
    + by constructor.
    + constructor; [|done]. unfold item_depth. simpl. lia.
  - eexists (_ :: new), pushed.
    rewrite <- !(assoc_L (++)). repeat split; simpl; try done; [lia|].
    by constructor.
Qed.

(** The loop ends: the pair (room left under 20, length of the queue)
    goes down lexicographically at every iteration. *)
Lemma find_related_loop_terminates max_depth related visited queue w :
  ∃ fuel, (find_related_loop fuel max_depth related visited queue w).1 ≠ OutOfFuel.
Proof.
  remember (20 - length related)%nat as room eqn:Hroom.
  revert related visited queue w Hroom.
  induction room as [room IHroom] using lt_wf_ind.
  intros related visited queue. revert visited.
  induction queue as [|[[current d] p] queue IHqueue]; intros visited w Hroom.
  { by exists 0%nat. }
  destruct (Z.of_nat (length related) <? 20) eqn:Hcap; cycle 1.
  { exists 0%nat. simpl. by rewrite Hcap. }
  assert (Hlt : (length related < 20)%nat) by (apply Z.ltb_lt in Hcap; lia).
  destruct (bool_decide (current ∈ visited) || (max_depth <? d)) eqn:Hskip.
  { destruct (IHqueue visited w Hroom) as [fuel Hfuel].
    exists (S fuel). simpl. by rewrite Hcap, Hskip. }
  pose (w1 := (get_node_relationships (Atom current) w).2).
  pose (rels := (get_node_relationships (Atom current) w).1).
  destruct (expand ({[current]} ∪ visited) d max_depth p rels related queue)
    as [[related' queue']|] eqn:Hexp.
  - assert (Hnext : ∃ fuel,
      (find_related_loop fuel max_depth related' ({[current]} ∪ visited)
         queue' w1).1 ≠ OutOfFuel).
    { apply expand_appends in Hexp
        as (new & pushed & -> & -> & Hlen & _ & _).
      destruct new as [|e new].
      - destruct pushed; [|simpl in Hlen; lia].
        rewrite !app_nil_r. by apply IHqueue.
      - apply (IHroom (20 - length (related ++ e :: new))%nat); [|done].
        rewrite length_app. simpl. lia. }
    destruct Hnext as [fuel Hfuel]. exists (S fuel). simpl.
    rewrite Hcap, Hskip. simpl.
    unfold mbind, M_bind. subst rels w1.
    destruct (get_node_relationships (Atom current) w) as [rels w1].
    simpl in Hexp, Hfuel. by rewrite Hexp.
  - exists 1%nat. simpl.
    rewrite Hcap, Hskip. simpl.
    unfold mbind, M_bind. subst rels w1.
    destruct (get_node_relationships (Atom current) w) as [rels w1].
    simpl in Hexp. by rewrite Hexp.
Qed.

(** What the loop returns stays within [max_depth], when it starts from
    a result within [max_depth] and a queue above it. *)
Lemma find_related_loop_depth fuel max_depth related visited queue w l :
  Forall (λ e, depth e ≤ max_depth) related →
  Forall (λ q, item_depth q < max_depth) queue →
  (find_related_loop fuel max_depth related visited queue w).1 = Returned l →
  Forall (λ e, depth e ≤ max_depth) l.
Proof.
  revert related visited queue w.
  induction fuel as [|fuel IH]; intros related visited queue w Hrel Hq.
  - destruct queue as [|[[current d] p] queue]; simpl.
    + by intros [= <-].
    + destruct (_ <? 20); simpl; [done|]. by intros [= <-].
  - destruct queue as [|[[current d] p] queue]; simpl.
    { by intros [= <-]. }
    destruct (_ <? 20); simpl; [|by intros [= <-]].
    apply Forall_cons in Hq as [Hd Hq]. unfold item_depth in Hd. simpl in Hd.
    destruct (_ || _); [by apply IH|].
    unfold mbind, M_bind.
    destruct (get_node_relationships (Atom current) w) as [rels w1].
    destruct (expand _ d max_depth p rels related queue)
      as [[related' queue']|] eqn:Hexp; [|done].
    apply expand_appends in Hexp as (new & pushed & -> & -> & _ & Hnew & Hpushed).
    apply IH.
    + apply Forall_app. split; [done|].
      eapply Forall_impl; [exact Hnew|]. simpl. intros e ->. lia.
    + apply Forall_app. by split.
Qed.

(** One iteration of the loop, on a queue that is not empty. *)
Lemma find_related_loop_cons fuel max_depth related visited current d p queue w :
  find_related_loop (S fuel) max_depth related visited ((current, d, p) :: queue) w
  = if negb (Z.of_nat (length related) <? 20) then (Returned related, w)
    else if bool_decide (current ∈ visited) || (max_depth <? d)
    then find_related_loop fuel max_depth related visited queue w
    else
      let '(rels, w1) := get_node_relationships (Atom current) w in
      match expand ({[current]} ∪ visited) d max_depth p rels related queue with
      | Some (related', queue') =>
          find_related_loop fuel max_depth related' ({[current]} ∪ visited)
            queue' w1
      | None => (Raised, w1)
      end.
Proof.
  cbn [find_related_loop]. destruct (negb _); [done|].
  destruct (_ || _); [done|]. unfold mbind, M_bind.
  destruct (get_node_relationships (Atom current) w) as [rels w1].
  by destruct (expand _ d max_depth p rels related queue) as [[related' queue']|].
Qed.

(** More fuel does not change a run that has ended. *)
Lemma find_related_loop_fuel_S fuel max_depth related visited queue w :
  (find_related_loop fuel max_depth related visited queue w).1 ≠ OutOfFuel →
  find_related_loop (S fuel) max_depth related visited queue w
  = find_related_loop fuel max_depth related visited queue w.
Proof.
  revert related visited queue w.
  induction fuel as [|fuel IH]; intros related visited queue w Hend.
  - destruct queue as [|[[current d] p] queue]; [done|].
    simpl in *. by destruct (_ <? 20).
  - destruct queue as [|[[current d] p] queue]; [done|].
    rewrite (find_related_loop_cons (S fuel)).
    rewrite (find_related_loop_cons fuel) in Hend |- *.
    destruct (negb _); [done|].
    destruct (_ || _); [by apply IH|].
    destruct (get_node_relationships (Atom current) w) as [rels w1].
    destruct (expand _ d max_depth p rels related queue) as [[related' queue']|];
      [|done].
    by apply IH.
Qed.

Lemma find_related_loop_fuel_le fuel fuel' max_depth related visited queue w :
  (fuel ≤ fuel')%nat →
  (find_related_loop fuel max_depth related visited queue w).1 ≠ OutOfFuel →
  find_related_loop fuel' max_depth related visited queue w
  = find_related_loop fuel max_depth related visited queue w.
Proof.
  intros Hle Hend. induction Hle as [|fuel' Hle IH]; [done|].
  rewrite find_related_loop_fuel_S; [done|]. by rewrite IH.
Qed.

(** The part of C4 that holds: for every store and every start entity,
    [find_related_entities] with a [max_depth] of at least 1 returns, the
    same list for every amount of fuel from some amount on, and every entry
    returned has a depth of at most [max_depth]. *)
Lemma find_related_entities_terminates (entity_name : string) (max_depth : Z)
    (w : world) :
  1 ≤ max_depth →
  ∃ fuel0 l,
    (∀ fuel, (fuel0 ≤ fuel)%nat →
       (find_related_entities fuel entity_name max_depth w).1 = Some l)
    ∧ Forall (λ e, depth e ≤ max_depth) l.
Proof.
  intros Hmax.
  destruct (find_related_loop_terminates max_depth [] ∅
              [(SStr entity_name, 0, [])] w) as [fuel0 Hfuel].
  pose proof (find_related_loop_depth fuel0 max_depth [] ∅
                [(SStr entity_name, 0, [])] w) as Hdepth.
  assert (Hrun : ∀ fuel, (fuel0 ≤ fuel)%nat →
            find_related_entities fuel entity_name max_depth w
            = find_related_entities fuel0 entity_name max_depth w).
  { intros fuel Hle. unfold find_related_entities, mbind, M_bind.
    by rewrite (find_related_loop_fuel_le fuel0 fuel). }
  exists fuel0.
  unfold find_related_entities, mbind, M_bind in Hrun |- *.
  destruct (find_related_loop fuel0 max_depth [] ∅ _ w) as [[l| |] w1];
    simpl in *; [| |done].
  - exists l. split; [by intros fuel Hle; rewrite Hrun|].
    apply Hdepth; [done| |done].
    constructor; [|done]. unfold item_depth. simpl. lia.
  - exists []. split; [by intros fuel Hle; rewrite Hrun|done].
Qed.

End Traversal.

(** ** Keyword extraction *)

Lemma slice_to_5 {A : Type} (l : list A) : slice_to 5 l = take 5 l.
Proof. reflexivity. Qed.

Lemma keeps_word_spec (word : string) :
  keeps_word word = true ↔ (word ∉ stop_words) ∧ (2 < String.length word)%nat.
Proof.
  unfold keeps_word, PyStr.len.
  rewrite andb_true_iff, negb_true_iff, bool_decide_eq_false, Z.ltb_lt.
  split; intros [? ?]; (split; [done|lia]).
Qed.

Lemma chars_app (s1 s2 : string) : chars (s1 +:+ s2) = chars s1 ++ chars s2.
Proof. induction s1 as [|c s1 IH]; [done|]. simpl. by rewrite IH. Qed.

Lemma chars_inj (s1 s2 : string) : chars s1 = chars s2 → s1 = s2.
Proof.
  intros Heq. rewrite <- (string_of_list_ascii_of_string s1),
    <- (string_of_list_ascii_of_string s2). by rewrite Heq.
Qed.

Lemma chars_rev_app (s1 s2 : string) :
  chars (String.rev_app s1 s2) = reverse (chars s1) ++ chars s2.
Proof.
  revert s2. induction s1 as [|c s1 IH]; intros s2; [done|].
  simpl. rewrite IH, reverse_cons, <- (assoc_L (++)). done.
Qed.

Lemma chars_rev (s : string) : chars (String.rev s) = reverse (chars s).
Proof. unfold String.rev. by rewrite chars_rev_app, app_nil_r. Qed.

(** What [lstrip] cuts off is made of the characters to strip, and what it
    leaves does not start with one. *)
Lemma lstrip_by_spec (p : ascii → bool) (s : string) :
  ∃ pre, chars s = pre ++ chars (PyStr.lstrip_by p s)
         ∧ Forall (λ c, p c = true) pre
         ∧ ∀ c, head (chars (PyStr.lstrip_by p s)) = Some c → p c = false.
Proof.
  induction s as [|c s (pre & Heq & Hpre & Hhead)].
  { exists []. by split_and!. }
  simpl. destruct (p c) eqn:Hc.
  - exists (c :: pre). split_and!; [by rewrite Heq|by constructor|done].
  - exists []. split_and!; [done..|]. simpl. by intros ? [= <-].
Qed.

(** The same at the other end. *)
Lemma rstrip_by_spec (p : ascii → bool) (s : string) :
  ∃ post, chars s = chars (PyStr.rstrip_by p s) ++ post
          ∧ Forall (λ c, p c = true) post
          ∧ ∀ c, last (chars (PyStr.rstrip_by p s)) = Some c → p c = false.
Proof.
  unfold PyStr.rstrip_by.
  destruct (lstrip_by_spec p (String.rev s)) as (pre & Heq & Hpre & Hhead).
  rewrite chars_rev in Heq. exists (reverse pre). split_and!.
  - rewrite chars_rev, <- reverse_app, <- Heq. by rewrite reverse_involutive.
  - by apply Forall_reverse.
  - intros c. rewrite chars_rev, last_reverse. apply Hhead.
Qed.

Lemma strip_chars_spec (w : string) :
  stripped_of_punctuation w (PyStr.strip_chars ".,!?;:" w).
Proof.
  unfold PyStr.strip_chars, PyStr.strip_by. fold is_punctuation.
  destruct (lstrip_by_spec is_punctuation w) as (pre & Heq & Hpre & Hhead).
  destruct (rstrip_by_spec is_punctuation (PyStr.lstrip_by is_punctuation w))
    as (post & Heq' & Hpost & Hlast).
  exists (string_of_list_ascii pre), (string_of_list_ascii post).
  rewrite !list_ascii_of_string_of_list_ascii. split_and!; try done.
  - apply chars_inj.
    rewrite !chars_app, !list_ascii_of_string_of_list_ascii, Heq, Heq'. done.
  - intros c Hc. apply Hhead. rewrite Heq'.
    destruct (chars (PyStr.rstrip_by _ _)); [done|]. exact Hc.
Qed.

(** Stripping before or after the tests gives the same list when it
    changes the outcome of the tests for no token. *)
Lemma strip_then_test (tokens : list string) :
  Forall (λ w, keeps_word (PyStr.strip_chars ".,!?;:" w) = keeps_word w) tokens →
  PyStr.strip_chars ".,!?;:" <$> filter keeps_word tokens
  = filter (λ w, (w ∉ stop_words) ∧ (2 < String.length w)%nat)
      (PyStr.strip_chars ".,!?;:" <$> tokens).
Proof.
  induction 1 as [|w tokens Hw _ IH]; [done|].
  rewrite fmap_cons, !filter_cons.
  destruct (keeps_word w) eqn:Hkeep.
  - rewrite decide_True by done.
    rewrite decide_True by (by apply keeps_word_spec; rewrite Hw).
    by rewrite fmap_cons, IH.
  - rewrite decide_False by (intros Hfalse; exact Hfalse).
    rewrite decide_False; [done|].
    rewrite <- keeps_word_spec, Hw. done.
Qed.

(** C6, as the code has it. On "Tell me about Guitar" the keywords are
    "tell", "about" and "guitar": only "me" is dropped, "tell" and "about"
    are no stop words.  Punctuation is stripped from both ends of a token,
    not only from its end: "I know .NET" gives "know" and "net", and what
    stripping leaves of any token is the token without the punctuation at
    its two ends.  In general, on ASCII text in which stripping changes
    for no token whether it is dropped, the keywords are the first five,
    in the order of the text, of the tokens of the lowered text, split at
    white space and stripped of the punctuation at both ends, that are no
    stop words and longer than two characters. *)
Theorem extract_keywords_spec :
  _extract_keywords "Tell me about Guitar" = ["tell"; "about"; "guitar"]
  ∧ _extract_keywords "I know .NET" = ["know"; "net"]
  ∧ _extract_keywords "Please play the guitar, piano and drums loudly!"
    = ["please"; "play"; "guitar"; "piano"; "drums"]
  ∧ _extract_keywords "Go buy ZZ Top CDs" = ["buy"; "top"; "cds"]
  ∧ (∀ w, stripped_of_punctuation w (PyStr.strip_chars ".,!?;:" w))
  ∧ ∀ query,
      let tokens := PyStr.split (PyStr.lower query) in
      let stripped := PyStr.strip_chars ".,!?;:" <$> tokens in
      is_ascii query = true →
      Forall (λ w, keeps_word (PyStr.strip_chars ".,!?;:" w) = keeps_word w)
             tokens →
      _extract_keywords query
      = take 5 (filter (λ w, (w ∉ stop_words) ∧ (2 < String.length w)%nat)
                  stripped)
      ∧ Forall2 stripped_of_punctuation tokens stripped.
Proof.
  split_and!; [by vm_compute..|apply strip_chars_spec|].
  intros query tokens stripped _ Hsame. split.
  - unfold _extract_keywords. rewrite slice_to_5. fold tokens.
    by rewrite strip_then_test.
  - subst stripped. apply Forall2_fmap_r, Forall_Forall2_diag, Forall_forall.
    intros w _. apply strip_chars_spec.
Qed.

(** The comprehension tests a token before it strips it, so a stop word
    followed by a comma is kept and comes out as the stop word.  The
    statement above is made for the texts on which this order makes no
    difference. *)
Lemma extract_keywords_tests_before_stripping :
  _extract_keywords "Tell me, please" = ["tell"; "me"; "please"].
Proof. by vm_compute. Qed.

(** * Scenarios *)

(** ** The confidence floor on the READ path *)

Section ReadFloor.
Context `{Backend}.

(** C8, at the input where the code leaves the claim. A READ intent with
    the single entity candidate ("Guitar", "Skill", {}, confidence 0.1):
    the confidence is below 0.3 and [_should_process_entity] rejects the
    candidate, yet on every store [get_node_with_relationships("Guitar")]
    is the first call made; in fallback mode [get_nodes_by_type("Skill")]
    follows. *)
Theorem read_looks_up_low_confidence_entity (w : world) :
  let parsed := conversation "READ" [faint_guitar] [] in
  float_lt (confidence faint_guitar) float_0_3 = true
  ∧ _should_process_entity faint_guitar = false
  ∧ (∃ rest, calls (execute_parsed_conversation parsed w).2
             = calls w ++ call_get_node_with_relationships "Guitar" :: rest)
  ∧ calls (execute_parsed_conversation parsed connect_failed).2
    = [call_get_node_with_relationships "Guitar"; call_get_nodes_by_type "Skill"].
Proof.
  intros parsed. split; [done|]. split; [done|]. split; [|done].
  set (result := {| result_intent := "READ"; success := false;
                    message := ""; entities_processed := 0;
                    relationships_processed := 0; data := DataNone |}).
  assert (Hne : entities parsed ≠ []) by done.
  destruct (execute_read_lookups parsed result w Hne) as [rest Hcalls].
  exists rest. exact Hcalls.
Qed.

End ReadFloor.

(** ** The cap of the traversal *)

(** C4, at the input where the code leaves the claim. On a graph where A
    has 21 relationships, [find_related_entities("A", max_depth=2)] returns
    after one iteration of the loop with 21 entries, all of depth 1: the
    bound of 20 is tested before an expansion, not while the expansion
    appends. *)
Theorem find_related_entities_exceeds_cap :
  length <$> (find_related_entities 1 "A" 2 star_world).1 = Some 21%nat
  ∧ map depth <$> (find_related_entities 1 "A" 2 star_world).1
    = Some (replicate 21 1).
Proof. split; by vm_compute. Qed.

(** On the cycle A -> B -> A the traversal returns B, twice (once per
    edge), and stops. *)
Lemma find_related_entities_on_cycle :
  map entity <$> (find_related_entities 3 "A" 2 cycle_world).1
  = Some [Atom (SStr "B"); Atom (SStr "B")].
Proof. by vm_compute. Qed.

(** ** Counterexamples and witnesses *)

(** C1 as stated fails: in fallback mode the node just written is not
    returned by [get_node]. *)
Lemma fallback_get_node_counterexample :
  ¬ (∀ name node_type props,
       (create_or_update_node name node_type props fallback_world).1 = true →
       (get_node name
          (create_or_update_node name node_type props fallback_world).2).1 ≠ None).
Proof. intros Hclaim. by apply (Hclaim "Guitar" "Skill" ∅). Qed.

(** C2 as stated fails: a relationship type outside the list reaches the
    driver, on creation and on deletion. *)
Lemma unlisted_relationship_type_counterexample :
  ¬ (∀ rel_type, rel_type ∉ RELATIONSHIP_TYPES →
       queries (create_relationship "User" "Guitar" rel_type ∅ guitar_world).2 = []
       ∧ queries (delete_relationship "User" "Guitar" rel_type guitar_world).2 = []).
Proof.
  intros Hclaim. destruct (Hclaim "FRIEND_OF") as [Hcreate _].
  - by apply (bool_decide_unpack _).
  - apply (f_equal length) in Hcreate. by vm_compute in Hcreate.
Qed.

(** C6 as stated fails twice: "tell" is a keyword of "Tell me about
    Guitar"; and "net" is a keyword of "I know .NET", which stripping
    trailing punctuation only cannot give, whatever the stop words are. *)
Lemma extract_keywords_guitar_counterexample :
  ¬ (∀ k, k ∈ _extract_keywords "Tell me about Guitar" ↔ k = "guitar")
  ∧ ¬ (∃ stop, _extract_keywords "I know .NET" = spec_keywords stop "I know .NET").
Proof.
  split.
  - intros Hclaim.
    assert (Hin : "tell" ∈ _extract_keywords "Tell me about Guitar").
    { replace (_extract_keywords "Tell me about Guitar")
        with ["tell"; "about"; "guitar"] by (by vm_compute).
      apply list_elem_of_here. }
    by apply Hclaim in Hin.
  - intros [stop Hclaim].
    assert (Hin : "net" ∈ spec_keywords stop "I know .NET").
    { rewrite <- Hclaim.
      replace (_extract_keywords "I know .NET") with ["know"; "net"]
        by (by vm_compute).
      apply list_elem_of_further, list_elem_of_here. }
    unfold spec_keywords in Hin.
    apply (subseteq_take 5), list_elem_of_filter in Hin as [_ Hin].
    replace (PyStr.rstrip_by is_punctuation <$> PyStr.split (PyStr.lower "I know .NET"))
      with ["i"; "know"; ".net"] in Hin by (by vm_compute).
    rewrite !elem_of_cons, elem_of_nil in Hin.
    by destruct Hin as [?|[?|[?|[]]]].
Qed.

Lemma extract_keywords_spec_witness :
  let query := "Please play the guitar, piano and drums loudly!" in
  let tokens := PyStr.split (PyStr.lower query) in
  let stripped := PyStr.strip_chars ".,!?;:" <$> tokens in
  is_ascii query = true
  ∧ Forall (λ w, keeps_word (PyStr.strip_chars ".,!?;:" w) = keeps_word w) tokens
  ∧ "guitar," ∈ tokens
  ∧ _extract_keywords query
    = take 5 (filter (λ w, (w ∉ stop_words) ∧ (2 < String.length w)%nat)
                stripped)
  ∧ Forall2 stripped_of_punctuation tokens stripped.
Proof.
  intros query tokens stripped.
  assert (H1 : is_ascii query = true) by reflexivity.
  assert (H2 : Forall (λ w, keeps_word (PyStr.strip_chars ".,!?;:" w)
                            = keeps_word w) tokens)
    by (vm_compute; repeat constructor).
  assert (H3 : "guitar," ∈ tokens)
    by (vm_compute; do 3 apply list_elem_of_further; apply list_elem_of_here).
  split; [exact H1|]. split; [exact H2|]. split; [exact H3|].
  exact (proj2 (proj2 (proj2 (proj2 (proj2 extract_keywords_spec))))
           query H1 H2).
Defined.

Lemma read_looks_up_rejected_entity_witness :
  let parsed := conversation "READ" [thing] [] in
  (intent parsed = "READ" ∨ intent parsed = "QUERY")
  ∧ thing ∈ entities parsed
  ∧ _should_process_entity thing = false
  ∧ PyStr.lower (name thing) ≠ "user"
  ∧ ∃ before after,
      calls (execute_parsed_conversation parsed fallback_world).2
      = calls fallback_world ++ before
        ++ call_get_node_with_relationships (name thing) :: after.
Proof.
  intros parsed.
  assert (H1 : intent parsed = "READ" ∨ intent parsed = "QUERY")
    by (left; reflexivity).
  assert (H2 : thing ∈ entities parsed) by apply list_elem_of_here.
  assert (H3 : _should_process_entity thing = false) by reflexivity.
  assert (H4 : PyStr.lower (name thing) ≠ "user") by (vm_compute; discriminate).
  exact (conj H1 (conj H2 (conj H3 (conj H4
           (read_looks_up_rejected_entity parsed thing fallback_world H1 H2 H3 H4))))).
Defined.

(** The matched entity of the scenario does have a relationship. *)
Lemma guitar_has_a_relationship :
  length (get_node_relationships (Atom (SStr "Guitar")) guitar_world).1 = 1%nat.
Proof. by vm_compute. Qed.

Lemma keyword_match_relationships_empty_witness :
  ∃ found,
    (_get_keyword_matches "Tell me about Guitar" 5 guitar_world).1 = Some found
    ∧ length (km_entities found) = 1%nat
    ∧ km_relationships found = [].
Proof.
  destruct (_get_keyword_matches "Tell me about Guitar" 5 guitar_world).1
    as [found|] eqn:Hrun; [|by vm_compute in Hrun].
  exists found. split; [reflexivity|]. split.
  - apply (f_equal (fmap (length ∘ km_entities))) in Hrun.
    vm_compute in Hrun. by injection Hrun.
  - exact (keyword_match_relationships_empty
             "Tell me about Guitar" 5 guitar_world found Hrun).
Defined.

Lemma delete_never_removes_protected_witness :
  let parsed := conversation "DELETE" [user; guitar] [user_plays_guitar] in
  let new_calls := relationship_deletions parsed ++ entity_deletions parsed in
  intent parsed = "DELETE"
  ∧ new_calls = [call_delete_relationship "User" "Guitar" "SKILLED_IN";
                 call_delete_node "Guitar"]
  ∧ calls (execute_parsed_conversation parsed guitar_world).2
    = calls guitar_world ++ new_calls
  ∧ (∀ nm, PyStr.lower nm ∈ protected_names → call_delete_node nm ∉ new_calls)
  ∧ (∀ i j a b t nm,
       new_calls !! i = Some (call_delete_relationship a b t) →
       new_calls !! j = Some (call_delete_node nm) →
       (i < j)%nat).
Proof.
  intros parsed new_calls.
  assert (Hintent : intent parsed = "DELETE") by reflexivity.
  split; [exact Hintent|]. split; [by vm_compute|].
  exact (delete_never_removes_protected parsed guitar_world Hintent).
Defined.

Lemma demo_properties_overwrite_identity_witness :
  let props : node := {["name" := SStr "B"]} in
  let w1 := (create_or_update_node "A" "Person" props fallback_world).2 in
  named "A" [] = []
  ∧ ∃ b, b !! "name" = Some (SStr "B")
         ∧ graph_manager w1 = NoDriver ([] ++ [b]) []
         ∧ (∀ t' props',
              graph_manager (create_or_update_node "A" t' props' w1).2
              = NoDriver ([] ++ [b; demo_new_node "A" t' props']) [])
         ∧ demo_new_node "A" "Person" props = b
         ∧ named "B" ([] ++ [b; b]) = named "B" [] ++ [b; b].
Proof.
  intros props w1. split; [reflexivity|].
  exact (proj2 (demo_properties_overwrite_identity (H := MemoryGraph.backend)
                  [] [] [] []) "Person" eq_refl).
Defined.

(** * Further properties *)

(** ** The executor *)

Section Executor.
Context `{Backend}.

(** X1. On a CREATE, UPDATE or DELETE intent, an entity candidate whose
    confidence is below 0.3, whose name is blank, or whose lowered name is
    one of thing, stuff, something, anything, everything, has no effect: the
    execution returns the same result and leaves the same store and the same
    log as the execution of the conversation without that candidate. *)
Theorem rejected_entity_has_no_effect (parsed : ParsedConversation)
    (es1 : list Entity) (e : Entity) (es2 : list Entity) (w : world) :
  float_lt (confidence e) float_0_3 = true
  ∨ PyStr.strip (name e) = ""
  ∨ PyStr.lower (name e) ∈ generic_names →
  intent parsed ∈ ["CREATE"; "UPDATE"; "DELETE"] →
  execute_parsed_conversation (with_entities parsed (es1 ++ e :: es2)) w
  = execute_parsed_conversation (with_entities parsed (es1 ++ es2)) w.
Proof.
  intros Hwhy Hintent. apply rejected_entity_skipped; [|done].
  destruct (_should_process_entity e) eqn:He; [|done].
  apply should_process_entity_spec in He as (Hc & Hs & Hg).
  destruct Hwhy as [Hlt|[Hblank|Hgen]]; congruence.
Qed.

(** X2. On every intent, a relationship candidate whose confidence is below
    0.3, one of whose endpoints is blank, or whose two endpoints are the
    same name up to case (a self-relationship), has no effect: the execution
    returns the same result and leaves the same store and the same log as
    the execution of the conversation without that candidate. *)
Theorem rejected_relationship_has_no_effect (parsed : ParsedConversation)
    (rs1 : list Relationship) (r : Relationship) (rs2 : list Relationship)
    (w : world) :
  float_lt (rel_confidence r) float_0_3 = true
  ∨ PyStr.strip (from_entity r) = ""
  ∨ PyStr.strip (to_entity r) = ""
  ∨ PyStr.lower (from_entity r) = PyStr.lower (to_entity r) →
  execute_parsed_conversation (with_relationships parsed (rs1 ++ r :: rs2)) w
  = execute_parsed_conversation (with_relationships parsed (rs1 ++ rs2)) w.
Proof.
  intros Hwhy. apply rejected_relationship_skipped.
  destruct (_should_process_relationship r) eqn:Hr; [|done].
  apply should_process_relationship_spec in Hr as (Hc & Hf & Ht & Hne).
  destruct Hwhy as [Hlt|[Hblank|[Hblank|Hself]]]; congruence.
Qed.

(** X3. An intent that is none of CREATE, READ, QUERY, UPDATE, DELETE, as
    written (the comparison is case sensitive), gives a failed result whose
    message is "Unknown intent: " followed by the intent, with nothing
    processed, and the store is not touched: no method is called. This is
    what happens to the conversation [parse_conversation] returns when the
    language model fails. *)
Theorem unknown_intent_touches_nothing (parsed : ParsedConversation) (w : world) :
  intent parsed ∉ known_intents →
  execute_parsed_conversation parsed w
  = ({| result_intent := intent parsed;
        success := false;
        message := "Unknown intent: " +:+ intent parsed;
        entities_processed := 0;
        relationships_processed := 0;
        data := DataNone |}, w)
  ∧ ∀ error,
      execute_parsed_conversation (parse_failure error) w
      = ({| result_intent := "unknown";
            success := false;
            message := "Unknown intent: unknown";
            entities_processed := 0;
            relationships_processed := 0;
            data := DataNone |}, w).
Proof.
  intros Hunknown. split; [|done].
  unfold execute_parsed_conversation, known_intents in *.
  repeat match goal with
         | |- context [String.eqb (intent parsed) ?s] =>
             destruct (String.eqb_spec (intent parsed) s) as [Heq|_];
             [exfalso; apply Hunknown; rewrite Heq; set_solver|]
         end.
  done.
Qed.

End Executor.

(** ** Reading without writing *)

Section ReadOnlyLemmas.
Context `{Backend}.

Lemma reads_only_ret {A : Type} (x : A) : reads_only (mret x : M A).
Proof.
  intros w. exists [], []. unfold_M. rewrite !app_nil_r. by split_and!.
Qed.

Lemma reads_only_bind {A B : Type} (m : M A) (f : A → M B) :
  reads_only m → (∀ a, reads_only (f a)) → reads_only (m ≫= f).
Proof.
  intros Hm Hf w. unfold mbind, M_bind.
  destruct (Hm w) as (cs1 & qs1 & Hc1 & Hr1 & Hq1 & Hrq1 & Hd1).
  destruct (m w) as [a w1]. simpl in *.
  destruct (Hf a w1) as (cs2 & qs2 & Hc2 & Hr2 & Hq2 & Hrq2 & Hd2).
  exists (cs1 ++ cs2), (qs1 ++ qs2).
  rewrite Hc2, Hc1, Hq2, Hq1, !app_assoc.
  split_and!; try done; try (by apply Forall_app).
  intros nodes rels Hw. destruct (Hd1 nodes rels Hw) as [Hw1 ->].
  by destruct (Hd2 nodes rels Hw1) as [? ->].
Qed.

Ltac solve_reads_only :=
  intros [[d|nodes rels] cs qs]; run_method;
  [ eexists _, _; split; [reflexivity|]; split; [by repeat constructor|];
    split; [rewrite <- ?app_assoc; reflexivity|]; split;
    [unfold read_queries; repeat constructor; set_solver|done] ..
  | eexists _, []; split; [reflexivity|]; split; [by repeat constructor|];
    split; [by rewrite app_nil_r|]; split; [done|];
    by intros nodes' rels' [= <- <-] ].

Lemma reads_only_get_node name : reads_only (get_node name).
Proof. unfold get_node. solve_reads_only. Qed.

Lemma reads_only_get_node_with_relationships name :
  reads_only (get_node_with_relationships name).
Proof. unfold get_node_with_relationships. solve_reads_only. Qed.

Lemma reads_only_get_all_nodes : reads_only get_all_nodes.
Proof. unfold get_all_nodes. solve_reads_only. Qed.

Lemma reads_only_get_nodes_by_type t : reads_only (get_nodes_by_type t).
Proof. unfold get_nodes_by_type. solve_reads_only. Qed.

Lemma reads_only_search_nodes_by_name term : reads_only (search_nodes_by_name term).
Proof. unfold search_nodes_by_name. solve_reads_only. Qed.

Lemma reads_only_get_node_relationships name :
  reads_only (get_node_relationships name).
Proof. unfold get_node_relationships. solve_reads_only. Qed.

Lemma reads_only_get_graph_statistics : reads_only get_graph_statistics.
Proof. unfold get_graph_statistics. solve_reads_only. Qed.

Lemma reads_only_extend_loop {A B : Type} (body : A → M (list B)) xs acc :
  (∀ x, reads_only (body x)) → reads_only (extend_loop body xs acc).
Proof.
  intros Hbody. revert acc. induction xs as [|x xs IH]; intros acc; simpl.
  - apply reads_only_ret.
  - apply reads_only_bind; [apply Hbody|]. intros found. apply IH.
Qed.

End ReadOnlyLemmas.

(** ** What the executor reports *)

Section ExecutorResults.
Context `{Backend}.

Lemma reads_only_execute_read parsed result : reads_only (_execute_read parsed result).
Proof.
  unfold _execute_read. destruct (is_empty (entities parsed)).
  - apply reads_only_bind; [apply reads_only_get_graph_statistics|].
    intros s. apply reads_only_ret.
  - apply reads_only_bind.
    { apply reads_only_extend_loop. intros e. unfold read_entity_body.
      destruct (negb _); [|apply reads_only_ret].
      apply reads_only_bind; [apply reads_only_get_node_with_relationships|].
      intros d. apply reads_only_ret. }
    intros query_results. apply reads_only_bind; [|intros r; apply reads_only_ret].
    destruct (_ && _); [|apply reads_only_ret].
    apply reads_only_extend_loop. intros e. unfold read_type_body.
    destruct (_ && _); [apply reads_only_get_nodes_by_type|apply reads_only_ret].
Qed.

(** X4. A READ or QUERY intent never writes: whatever the candidates, the
    executor calls only reading methods of the store
    ([get_graph_statistics], [get_node_with_relationships],
    [get_nodes_by_type]), every query it sends is one of the reading
    queries, and in fallback mode the in-memory lists are left as they
    are. *)
Theorem read_never_writes (parsed : ParsedConversation) :
  intent parsed = "READ" ∨ intent parsed = "QUERY" →
  reads_only (execute_parsed_conversation parsed).
Proof.
  intros Hintent.
  assert (Hc : String.eqb (intent parsed) "CREATE" = false)
    by (by destruct Hintent as [Hi|Hi]; rewrite Hi).
  assert (Hr : String.eqb (intent parsed) "READ"
               || String.eqb (intent parsed) "QUERY" = true)
    by (by destruct Hintent as [Hi|Hi]; rewrite Hi).
  unfold execute_parsed_conversation. rewrite Hc, Hr.
  apply reads_only_execute_read.
Qed.

(** A counting loop counts at most the elements its body can count. *)
Lemma count_loop_bounds {A : Type} (body : A → M bool) (may : A → bool) xs n w :
  (∀ x w', may x = false → (body x w').1 = false) →
  n ≤ (count_loop body xs n w).1 ≤ n + count_if may xs.
Proof.
  intros Hbody. unfold count_if. revert n w.
  induction xs as [|x xs IH]; intros n w; simpl; [lia|].
  unfold mbind, M_bind. specialize (Hbody x w).
  destruct (body x w) as [counted w1]. simpl in Hbody.
  rewrite filter_cons. specialize (IH (if counted then n + 1 else n) w1).
  destruct (may x) eqn:Hmay.
  - rewrite decide_True by done. simpl length. destruct counted; lia.
  - rewrite decide_False by done. rewrite Hbody in * by done. lia.
Qed.

(** The result of the three writing paths, from their two loops. *)
Lemma execute_create_result parsed result w :
  let first := count_loop create_entity_body (entities parsed) 0 w in
  let second := count_loop create_relationship_body (relationships parsed) 0 first.2 in
  _execute_create parsed result w
  = (update_counts result "Created" first.1 second.1, second.2).
Proof.
  intros first second. subst first second. unfold _execute_create, mbind, M_bind.
  destruct (count_loop create_entity_body _ 0 w) as [n w1]. simpl.
  by destruct (count_loop create_relationship_body _ 0 w1) as [m w2].
Qed.

Lemma execute_update_result parsed result w :
  let first := count_loop update_entity_body (entities parsed) 0 w in
  let second := count_loop update_relationship_body (relationships parsed) 0 first.2 in
  _execute_update parsed result w
  = (update_counts result "Updated" first.1 second.1, second.2).
Proof.
  intros first second. subst first second. unfold _execute_update, mbind, M_bind.
  destruct (count_loop update_entity_body _ 0 w) as [n w1]. simpl.
  by destruct (count_loop update_relationship_body _ 0 w1) as [m w2].
Qed.

Lemma execute_delete_result parsed result w :
  let first := count_loop delete_relationship_body (relationships parsed) 0 w in
  let second := count_loop delete_entity_body (entities parsed) 0 first.2 in
  _execute_delete parsed result w
  = (update_counts result "Deleted" second.1 first.1, second.2).
Proof.
  intros first second. subst first second. unfold _execute_delete, mbind, M_bind.
  destruct (count_loop delete_relationship_body _ 0 w) as [m w1]. simpl.
  by destruct (count_loop delete_entity_body _ 0 w1) as [n w2].
Qed.

(** X5. On a CREATE, UPDATE or DELETE intent the two counts of the result
    are never negative and never more than the number of accepted
    candidates of their kind, the result carries the intent, and [success]
    is true exactly when one of the two counts is positive. *)
Theorem processed_counts_bounded (parsed : ParsedConversation) (w : world) :
  intent parsed ∈ ["CREATE"; "UPDATE"; "DELETE"] →
  let r := (execute_parsed_conversation parsed w).1 in
  0 ≤ entities_processed r ≤ count_if _should_process_entity (entities parsed)
  ∧ 0 ≤ relationships_processed r
        ≤ count_if _should_process_relationship (relationships parsed)
  ∧ result_intent r = intent parsed
  ∧ (success r = true ↔
       0 < entities_processed r ∨ 0 < relationships_processed r).
Proof.
  intros Hintent r. subst r. unfold execute_parsed_conversation.
  set (result := {| result_intent := intent parsed; success := false;
                    message := ""; entities_processed := 0;
                    relationships_processed := 0; data := DataNone |}).
  assert (Hsuccess : ∀ verb n m,
    success (update_counts result verb n m) = true ↔ 0 < n ∨ 0 < m).
  { intros verb n m. simpl. rewrite orb_true_iff, !Z.ltb_lt. done. }
  assert (Hcases : intent parsed = "CREATE" ∨ intent parsed = "UPDATE"
                   ∨ intent parsed = "DELETE")
    by (rewrite !elem_of_cons, elem_of_nil in Hintent; tauto).
  clear Hintent.
  destruct (String.eqb (intent parsed) "CREATE") eqn:Hc;
    [|destruct (String.eqb (intent parsed) "READ" || String.eqb (intent parsed) "QUERY")
        eqn:Hr;
      [by destruct Hcases as [Hi|[Hi|Hi]]; rewrite Hi in Hc, Hr|
       destruct (String.eqb (intent parsed) "UPDATE") eqn:Hu;
       [|destruct (String.eqb (intent parsed) "DELETE") eqn:Hd;
         [|by destruct Hcases as [Hi|[Hi|Hi]]; rewrite Hi in Hc, Hu, Hd]]]].
  - rewrite execute_create_result. cbn [fst].
    split_and!; try apply Hsuccess; try done.
    + apply (count_loop_bounds _ _should_process_entity).
      intros e w' He. unfold create_entity_body. by rewrite He.
    + apply (count_loop_bounds _ _should_process_entity).
      intros e w' He. unfold create_entity_body. by rewrite He.
    + apply (count_loop_bounds _ _should_process_relationship).
      intros x w' Hx. unfold create_relationship_body. by rewrite Hx.
    + apply (count_loop_bounds _ _should_process_relationship).
      intros x w' Hx. unfold create_relationship_body. by rewrite Hx.
  - rewrite execute_update_result. cbn [fst].
    split_and!; try apply Hsuccess; try done.
    + apply (count_loop_bounds _ _should_process_entity).
      intros e w' He. unfold update_entity_body. by rewrite He.
    + apply (count_loop_bounds _ _should_process_entity).
      intros e w' He. unfold update_entity_body. by rewrite He.
    + apply (count_loop_bounds _ _should_process_relationship).
      intros x w' Hx. unfold update_relationship_body. by rewrite Hx.
    + apply (count_loop_bounds _ _should_process_relationship).
      intros x w' Hx. unfold update_relationship_body. by rewrite Hx.
  - rewrite execute_delete_result. cbn [fst].
    split_and!; try apply Hsuccess; try done.
    + apply (count_loop_bounds _ _should_process_entity).
      intros e w' He. unfold delete_entity_body. by rewrite He.
    + apply (count_loop_bounds _ _should_process_entity).
      intros e w' He. unfold delete_entity_body. by rewrite He.
    + apply (count_loop_bounds _ _should_process_relationship).
      intros x w' Hx. unfold delete_relationship_body. by rewrite Hx.
    + apply (count_loop_bounds _ _should_process_relationship).
      intros x w' Hx. unfold delete_relationship_body. by rewrite Hx.
Qed.

End ExecutorResults.

(** ** The executor without a driver *)

Section ExecutorFallback.
Context `{Backend}.

Lemma idle_ret {A : Type} (x : A) : idle_without_driver (mret x) x.
Proof. by intros w nodes rels Hw. Qed.

Lemma idle_bind {A B : Type} (m : M A) (f : A → M B) x y :
  idle_without_driver m x → idle_without_driver (f x) y →
  idle_without_driver (m ≫= f) y.
Proof.
  intros Hm Hf w nodes rels Hw. destruct (Hm w nodes rels Hw) as (Hx & Hg & Hq).
  unfold mbind, M_bind. destruct (m w) as [a w1]. simpl in Hx, Hg, Hq. subst a.
  destruct (Hf w1 nodes rels Hg) as (Hy & Hg' & Hq'). by rewrite Hq' , Hq.
Qed.

Ltac solve_idle :=
  intros [gm cs qs] nodes rels Hw; simpl in Hw; subst gm; run_method; done.

Lemma idle_get_node name : idle_without_driver (get_node name) None.
Proof. unfold get_node. solve_idle. Qed.

Lemma idle_get_node_with_relationships name :
  idle_without_driver (get_node_with_relationships name) None.
Proof. unfold get_node_with_relationships. solve_idle. Qed.

Lemma idle_get_nodes_by_type node_type :
  idle_without_driver (get_nodes_by_type node_type) [].
Proof. unfold get_nodes_by_type. solve_idle. Qed.

Lemma idle_search_nodes_by_name term :
  idle_without_driver (search_nodes_by_name term) [].
Proof. unfold search_nodes_by_name. solve_idle. Qed.

Lemma idle_get_node_relationships name :
  idle_without_driver (get_node_relationships name) [].
Proof. unfold get_node_relationships. solve_idle. Qed.

Lemma idle_update_node_properties name props :
  idle_without_driver (update_node_properties name props) false.
Proof. unfold update_node_properties. solve_idle. Qed.

Lemma idle_delete_node name : idle_without_driver (delete_node name) false.
Proof. unfold delete_node. solve_idle. Qed.

Lemma idle_delete_relationship a b t :
  idle_without_driver (delete_relationship a b t) false.
Proof. unfold delete_relationship. solve_idle. Qed.

Lemma idle_create_relationship a b t p :
  idle_without_driver (create_relationship a b t p) false.
Proof. unfold create_relationship. solve_idle. Qed.

Lemma idle_count_loop {A : Type} (body : A → M bool) xs n :
  (∀ x, idle_without_driver (body x) false) →
  idle_without_driver (count_loop body xs n) n.
Proof.
  intros Hbody. induction xs as [|x xs IH]; [apply idle_ret|].
  simpl. by apply (idle_bind _ _ false).
Qed.

Lemma idle_extend_loop {A B : Type} (body : A → M (list B)) xs acc :
  (∀ x, idle_without_driver (body x) []) →
  idle_without_driver (extend_loop body xs acc) acc.
Proof.
  intros Hbody. revert acc. induction xs as [|x xs IH]; intros acc; [apply idle_ret|].
  simpl. apply (idle_bind _ _ []); [done|]. rewrite app_nil_r. apply IH.
Qed.

Lemma idle_create_relationship_body r :
  idle_without_driver (create_relationship_body r) false.
Proof.
  unfold create_relationship_body. destruct (_should_process_relationship r);
    [apply idle_create_relationship|apply idle_ret].
Qed.

Lemma idle_update_entity_body e : idle_without_driver (update_entity_body e) false.
Proof.
  unfold update_entity_body. destruct (_ && _); [|apply idle_ret].
  apply (idle_bind _ _ None); [apply idle_get_node|apply idle_ret].
Qed.

Lemma idle_update_relationship_body r :
  idle_without_driver (update_relationship_body r) false.
Proof.
  unfold update_relationship_body. destruct (_should_process_relationship r);
    [|apply idle_ret].
  apply (idle_bind _ _ false); [apply idle_delete_relationship|].
  apply idle_create_relationship.
Qed.

Lemma idle_delete_relationship_body r :
  idle_without_driver (delete_relationship_body r) false.
Proof.
  unfold delete_relationship_body. destruct (_should_process_relationship r);
    [apply idle_delete_relationship|apply idle_ret].
Qed.

Lemma idle_delete_entity_body e : idle_without_driver (delete_entity_body e) false.
Proof.
  unfold delete_entity_body. destruct (_ && _);
    [apply idle_delete_node|apply idle_ret].
Qed.

Lemma idle_read_entity_body e : idle_without_driver (read_entity_body e) [].
Proof.
  unfold read_entity_body. destruct (negb _); [|apply idle_ret].
  apply (idle_bind _ _ None); [apply idle_get_node_with_relationships|].
  apply idle_ret.
Qed.

Lemma idle_read_type_body e : idle_without_driver (read_type_body e) [].
Proof.
  unfold read_type_body. destruct (_ && _);
    [apply idle_get_nodes_by_type|apply idle_ret].
Qed.

(** Without a driver [create_or_update_node] returns [True], updates a node
    in place or appends one, and leaves the relationships alone. *)
Lemma fallback_create_step name node_type props w nodes rels :
  graph_manager w = NoDriver nodes rels →
  let out := create_or_update_node name node_type props w in
  out.1 = true
  ∧ (∃ nodes', graph_manager out.2 = NoDriver nodes' rels
               ∧ (length nodes ≤ length nodes' ≤ length nodes + 1)%nat)
  ∧ queries out.2 = queries w.
Proof.
  intros Hw. destruct w as [gm cs qs]. simpl in Hw. subst gm.
  unfold create_or_update_node, _demo_create_or_update_node. unfold_M.
  destruct (demo_update_first _ _ _ nodes) as [nodes1|] eqn:Hup;
    cbn [graph_manager calls queries fst snd].
  - apply demo_update_first_split in Hup as (pre & old & post & -> & _ & ->).
    split; [done|]. split; [|done]. eexists. split; [done|].
    rewrite !length_app. simpl. lia.
  - split; [done|]. split; [|done]. eexists. split; [done|].
    rewrite !length_app. simpl. lia.
Qed.

(** Without a driver the entity loop of CREATE counts every accepted entity
    and only touches the list of nodes, which grows by at most one node per
    accepted entity. *)
Lemma fallback_create_entities es n w nodes rels :
  graph_manager w = NoDriver nodes rels →
  let out := count_loop create_entity_body es n w in
  out.1 = n + count_if _should_process_entity es
  ∧ (∃ nodes', graph_manager out.2 = NoDriver nodes' rels
               ∧ (length nodes ≤ length nodes'
                  ≤ length nodes + Z.to_nat (count_if _should_process_entity es))%nat)
  ∧ queries out.2 = queries w.
Proof.
  unfold count_if. revert n w nodes.
  induction es as [|e es IH]; intros n w nodes Hw; simpl.
  { split; [lia|]. split; [|done]. exists nodes. split; [done|lia]. }
  unfold mbind, M_bind. rewrite filter_cons.
  destruct (create_entity_body e w) as [counted w1] eqn:Hbody.
  unfold create_entity_body in Hbody.
  destruct (_should_process_entity e) eqn:He.
  - rewrite decide_True by done. simpl length.
    destruct (fallback_create_step (name e) (type e) (properties e) w nodes rels Hw)
      as (Hok & (nodes1 & Hg1 & Hl1) & Hq1).
    rewrite Hbody in Hok, Hg1, Hq1. simpl in Hok, Hg1, Hq1. subst counted.
    destruct (IH (n + 1) w1 nodes1 Hg1) as (Hn & (nodes' & Hg & Hl) & Hq).
    split; [rewrite Hn; lia|]. split; [|by rewrite Hq].
    exists nodes'. split; [done|]. lia.
  - rewrite decide_False by done.
    injection Hbody as <- <-. apply (IH n w nodes Hw).
Qed.

(** X6. Without a driver a CREATE intent reports every accepted entity as
    created and no relationship at all, whatever relationships were
    offered: the relationship list is left as it is, the node list grows by
    at most one node per accepted entity, and no query is sent.  The
    execution succeeds exactly when an entity was accepted. *)
Theorem fallback_create_drops_relationships (parsed : ParsedConversation)
    (w : world) (nodes : list node) (rels : list pydict) :
  graph_manager w = NoDriver nodes rels →
  intent parsed = "CREATE" →
  let out := execute_parsed_conversation parsed w in
  let accepted := count_if _should_process_entity (entities parsed) in
  entities_processed out.1 = accepted
  ∧ relationships_processed out.1 = 0
  ∧ success out.1 = (0 <? accepted)
  ∧ (∃ nodes', graph_manager out.2 = NoDriver nodes' rels
               ∧ (length nodes ≤ length nodes'
                  ≤ length nodes + Z.to_nat accepted)%nat)
  ∧ queries out.2 = queries w.
Proof.
  intros Hw Hintent out accepted. subst out accepted.
  unfold execute_parsed_conversation. rewrite Hintent.
  cbn [String.eqb Ascii.eqb Bool.eqb]. rewrite execute_create_result.
  cbn zeta. cbn [fst snd].
  destruct (fallback_create_entities (entities parsed) 0 w nodes rels Hw)
    as (Hn & (nodes' & Hg & Hl) & Hq).
  destruct (idle_count_loop create_relationship_body (relationships parsed) 0
              idle_create_relationship_body _ nodes' rels Hg) as (Hm & Hg' & Hq').
  cbn [update_counts entities_processed relationships_processed success].
  rewrite Hm, Hn, Z.add_0_l, orb_false_r.
  split_and!; try done.
  - by exists nodes'.
  - by rewrite Hq'.
Qed.

(** X7. Without a driver nothing but CREATE has an effect: an UPDATE or a
    DELETE intent, and a READ or QUERY intent that names an entity, end
    with [success = False] and both counts 0, leave the two in-memory
    lists as they are and send no query. *)
Theorem fallback_only_create_works (parsed : ParsedConversation)
    (w : world) (nodes : list node) (rels : list pydict) :
  graph_manager w = NoDriver nodes rels →
  intent parsed ∈ ["UPDATE"; "DELETE"]
  ∨ (intent parsed ∈ ["READ"; "QUERY"] ∧ entities parsed ≠ []) →
  let out := execute_parsed_conversation parsed w in
  success out.1 = false
  ∧ entities_processed out.1 = 0
  ∧ relationships_processed out.1 = 0
  ∧ graph_manager out.2 = NoDriver nodes rels
  ∧ queries out.2 = queries w.
Proof.
  intros Hw Hintent out. subst out. unfold execute_parsed_conversation.
  destruct Hintent as [Hintent|[Hintent Hes]].
  - assert (Hcases : intent parsed = "UPDATE" ∨ intent parsed = "DELETE").
    { rewrite !elem_of_cons, elem_of_nil in Hintent. tauto. }
    destruct Hcases as [Hi|Hi]; rewrite Hi; cbn [String.eqb Ascii.eqb Bool.eqb orb].
    + rewrite execute_update_result. cbn zeta. cbn [fst snd].
      destruct (idle_count_loop update_entity_body (entities parsed) 0
                  idle_update_entity_body w nodes rels Hw) as (Hn & Hg & Hq).
      destruct (idle_count_loop update_relationship_body (relationships parsed) 0
                  idle_update_relationship_body _ nodes rels Hg) as (Hm & Hg' & Hq').
      cbn [update_counts entities_processed relationships_processed success].
      rewrite Hn, Hm, Hq', Hq. done.
    + rewrite execute_delete_result. cbn zeta. cbn [fst snd].
      destruct (idle_count_loop delete_relationship_body (relationships parsed) 0
                  idle_delete_relationship_body w nodes rels Hw) as (Hm & Hg & Hq).
      destruct (idle_count_loop delete_entity_body (entities parsed) 0
                  idle_delete_entity_body _ nodes rels Hg) as (Hn & Hg' & Hq').
      cbn [update_counts entities_processed relationships_processed success].
      rewrite Hn, Hm, Hq', Hq. done.
  - assert (Hc : String.eqb (intent parsed) "CREATE" = false).
    { rewrite !elem_of_cons, elem_of_nil in Hintent.
      by destruct Hintent as [Hi|[Hi|[]]]; rewrite Hi. }
    assert (Hr : String.eqb (intent parsed) "READ"
                 || String.eqb (intent parsed) "QUERY" = true).
    { rewrite !elem_of_cons, elem_of_nil in Hintent.
      by destruct Hintent as [Hi|[Hi|[]]]; rewrite Hi. }
    rewrite Hc, Hr. unfold _execute_read.
    destruct (is_empty (entities parsed)) eqn:Hempty;
      [by destruct (entities parsed)|].
    destruct (idle_extend_loop read_entity_body (entities parsed) []
                idle_read_entity_body w nodes rels Hw) as (Hx & Hg & Hq).
    unfold mbind, M_bind.
    destruct (extend_loop read_entity_body (entities parsed) [] w) as [found w1].
    simpl in Hx, Hg, Hq. subst found. cbn [is_empty andb negb].
    destruct (idle_extend_loop read_type_body (entities parsed) []
                idle_read_type_body w1 nodes rels Hg) as (Hx' & Hg' & Hq').
    destruct (extend_loop read_type_body (entities parsed) [] w1) as [found w2].
    simpl in Hx', Hg', Hq'. subst found. unfold mret, M_ret. simpl.
    by rewrite Hq', Hq.
Qed.

End ExecutorFallback.

(** ** Counting dictionaries *)

Lemma sum_of_from {A : Type} (f : A → Z) xs a :
  foldl (λ acc x, acc + f x) a xs = a + sum_of f xs.
Proof.
  unfold sum_of. revert a. induction xs as [|x xs IH]; intros a; simpl; [lia|].
  rewrite (IH (a + f x)), (IH (0 + f x)). lia.
Qed.

Lemma sum_of_cons {A : Type} (f : A → Z) x xs :
  sum_of f (x :: xs) = f x + sum_of f xs.
Proof. unfold sum_of at 1. simpl. rewrite sum_of_from. lia. Qed.

Lemma sum_of_app {A : Type} (f : A → Z) xs ys :
  sum_of f (xs ++ ys) = sum_of f xs + sum_of f ys.
Proof.
  induction xs as [|x xs IH]; [done|].
  simpl. rewrite !sum_of_cons, IH. lia.
Qed.

Lemma sum_of_ones {A : Type} (xs : list A) : sum_of (λ _, 1) xs = Z.of_nat (length xs).
Proof.
  induction xs as [|x xs IH]; [done|]. rewrite sum_of_cons, IH. simpl length. lia.
Qed.

Lemma dict_get_set (k k' : scalar) (v : Z) d :
  dict_get k' 0 (dict_set k v d) = if decide (k' = k) then v else dict_get k' 0 d.
Proof.
  induction d as [|[k1 v1] d IH]; simpl.
  - by destruct (decide (k' = k)).
  - destruct (decide (k = k1)) as [->|Hk]; simpl.
    + by destruct (decide (k' = k1)).
    + destruct (decide (k' = k1)) as [->|Hk'].
      * by rewrite decide_False by done.
      * apply IH.
Qed.

Lemma sum_values_set (k : scalar) (v : Z) d :
  sum_values (dict_set k v d) = sum_values d - dict_get k 0 d + v.
Proof.
  unfold sum_values. induction d as [|[k1 v1] d IH]; simpl.
  - rewrite sum_of_cons. cbn. lia.
  - destruct (decide (k = k1)) as [->|Hk]; rewrite !sum_of_cons; simpl; lia.
Qed.

Lemma dict_set_keys (k : scalar) (v : Z) d :
  (dict_set k v d).*1 = if bool_decide (k ∈ d.*1) then d.*1 else d.*1 ++ [k].
Proof.
  induction d as [|[k1 v1] d IH]; [done|]. cbn [dict_set].
  destruct (decide (k = k1)) as [->|Hk]; rewrite !fmap_cons; cbn [fst].
  - rewrite bool_decide_eq_true_2; [done|constructor].
  - rewrite IH. destruct (bool_decide (k ∈ d.*1)) eqn:Hin.
    + apply bool_decide_eq_true in Hin.
      rewrite bool_decide_eq_true_2; [done|by constructor].
    + apply bool_decide_eq_false in Hin.
      rewrite bool_decide_eq_false_2; [done|].
      intros Hin'. apply elem_of_cons in Hin' as [?|?]; done.
Qed.

Lemma tally_snoc ks k :
  tally (ks ++ [k]) = dict_set k (dict_get k 0 (tally ks) + 1) (tally ks).
Proof. unfold tally. by rewrite foldl_app. Qed.

(** A tally holds, for each key, the number of its occurrences. *)
Lemma tally_get ks k :
  dict_get k 0 (tally ks) = count_if (λ k', bool_decide (k' = k)) ks.
Proof.
  unfold count_if. induction ks as [|k1 ks IH] using rev_ind; [done|].
  rewrite tally_snoc, dict_get_set, filter_app, length_app, filter_cons, filter_nil.
  destruct (decide (k = k1)) as [->|Hk].
  - rewrite decide_True by (by apply bool_decide_eq_true). rewrite IH. simpl. lia.
  - rewrite decide_False; [rewrite IH; simpl; lia|].
    intros Heq. by apply bool_decide_eq_true in Heq.
Qed.

(** The counts of a tally add up to the number of keys counted. *)
Lemma tally_sum ks : sum_values (tally ks) = Z.of_nat (length ks).
Proof.
  induction ks as [|k ks IH] using rev_ind; [done|].
  rewrite tally_snoc, sum_values_set, IH, length_app. simpl. lia.
Qed.

(** The keys of a tally are the keys counted, each once. *)
Lemma tally_keys ks : NoDup (tally ks).*1 ∧ ∀ k, k ∈ (tally ks).*1 ↔ k ∈ ks.
Proof.
  induction ks as [|k ks [IHn IHk]] using rev_ind.
  { split; [constructor|]. intros k. by rewrite !elem_of_nil. }
  rewrite tally_snoc, dict_set_keys.
  destruct (bool_decide (k ∈ (tally ks).*1)) eqn:Hin.
  - apply bool_decide_eq_true in Hin. split; [done|].
    intros k'. rewrite elem_of_app, list_elem_of_singleton, IHk.
    split; [tauto|]. intros [?| ->]; [done|]. by apply IHk.
  - apply bool_decide_eq_false in Hin. split.
    + apply NoDup_app. split; [done|]. split; [|apply NoDup_singleton].
      intros k' Hk' Heq. apply list_elem_of_singleton in Heq as ->. done.
    + intros k'. by rewrite !elem_of_app, IHk.
Qed.

Lemma count_intents_tally results :
  count_intents results = tally ((λ r, SStr (result_intent r)) <$> results).
Proof.
  unfold count_intents, tally. generalize (@nil (scalar * Z)).
  induction results as [|r rs IH]; intros d; [done|]. simpl. apply IH.
Qed.

Lemma demo_node_types_tally (nodes : list node) :
  demo_node_types nodes
  = tally ((λ n : node, default (SStr "Unknown") (n !! "type")) <$> nodes).
Proof.
  unfold demo_node_types, tally. generalize (@nil (scalar * Z)).
  induction nodes as [|n ns IH]; intros d; [done|]. simpl. apply IH.
Qed.

Lemma count_if_fmap {A B : Type} (f : A → B) (p : B → bool) xs :
  count_if p (f <$> xs) = count_if (λ x, p (f x)) xs.
Proof.
  unfold count_if. f_equal. induction xs as [|x xs IH]; [done|].
  rewrite fmap_cons, !filter_cons.
  destruct (decide (p (f x) = true)); simpl; by rewrite IH.
Qed.

Lemma count_if_app {A : Type} (p : A → bool) xs ys :
  count_if p (xs ++ ys) = count_if p xs + count_if p ys.
Proof. unfold count_if. rewrite filter_app, length_app. lia. Qed.

Lemma count_if_bounds {A : Type} (p : A → bool) xs :
  0 ≤ count_if p xs ≤ Z.of_nat (length xs).
Proof. unfold count_if. pose proof (length_filter (λ x, p x = true) xs). lia. Qed.

(** ** [get_execution_summary] *)

(** X8. The summary of a list of results is consistent: the operations
    counted as successful are those whose [success] is true, between 0 and
    the total; the intent breakdown lists each intent that occurs once,
    with the number of results of that intent, and its counts add up to the
    total; the success rate of an empty list is [0.0]. *)
Theorem execution_summary_consistent (results : list Result) :
  let summary := get_execution_summary results in
  total_operations summary = Z.of_nat (length results)
  ∧ successful_operations summary = count_if success results
  ∧ 0 ≤ successful_operations summary ≤ total_operations summary
  ∧ sum_values (intent_breakdown summary) = total_operations summary
  ∧ NoDup (intent_breakdown summary).*1
  ∧ (∀ i : string,
       SStr i ∈ (intent_breakdown summary).*1
       ↔ ∃ r, r ∈ results ∧ result_intent r = i)
  ∧ (∀ i : string,
       dict_get (SStr i) 0 (intent_breakdown summary)
       = count_if (λ r, String.eqb (result_intent r) i) results)
  ∧ (results = [] → success_rate summary = S754_zero false).
Proof.
  intros summary. subst summary.
  cbn [get_execution_summary total_operations successful_operations
       intent_breakdown success_rate].
  rewrite sum_of_ones, count_intents_tally.
  destruct (tally_keys ((λ r, SStr (result_intent r)) <$> results)) as [Hn Hk].
  split_and!; try done.
  - apply (count_if_bounds success).
  - apply (count_if_bounds success).
  - by rewrite tally_sum, length_fmap.
  - intros i. rewrite Hk, list_elem_of_fmap. split.
    + intros (r & [= ->] & Hr). by exists r.
    + intros (r & Hr & <-). by exists r.
  - intros i. rewrite tally_get, count_if_fmap. unfold count_if. do 2 f_equal.
    apply list_filter_iff. intros r.
    rewrite bool_decide_eq_true, String.eqb_eq. split; [by intros [= ->]|by intros ->].
  - by intros ->.
Qed.

(** X9. Summaries add up: the summary of two batches of results put
    together has, in every counting field and for every intent of the
    breakdown, the sum of what the summaries of the two batches have. *)
Theorem execution_summary_additive (rs1 rs2 : list Result) :
  let s1 := get_execution_summary rs1 in
  let s2 := get_execution_summary rs2 in
  let s := get_execution_summary (rs1 ++ rs2) in
  total_operations s = total_operations s1 + total_operations s2
  ∧ successful_operations s = successful_operations s1 + successful_operations s2
  ∧ total_entities_processed s
    = total_entities_processed s1 + total_entities_processed s2
  ∧ total_relationships_processed s
    = total_relationships_processed s1 + total_relationships_processed s2
  ∧ ∀ i : string,
      dict_get (SStr i) 0 (intent_breakdown s)
      = dict_get (SStr i) 0 (intent_breakdown s1)
        + dict_get (SStr i) 0 (intent_breakdown s2).
Proof.
  intros s1 s2 s. subst s1 s2 s.
  cbn [get_execution_summary total_operations successful_operations
       total_entities_processed total_relationships_processed intent_breakdown].
  rewrite !sum_of_app, filter_app, sum_of_app, length_app, !count_intents_tally.
  split_and!; try done; [lia|].
  intros i. by rewrite !tally_get, fmap_app, count_if_app.
Qed.

(** ** Statistics without a driver *)

Section FallbackStatistics.
Context `{Backend}.

(** X10. Without a driver [get_graph_statistics] counts the two in-memory
    lists and breaks the nodes down by type: the counts of the breakdown
    add up to the number of nodes, a string type is listed with the
    number of nodes that carry it (the nodes without a type count under
    [Unknown]), there are no relationship types, and the store is left as
    it is. *)
Theorem fallback_statistics_count_nodes (w : world) (nodes : list node)
    (rels : list pydict) :
  graph_manager w = NoDriver nodes rels →
  let out := get_graph_statistics w in
  let type_of (n : node) := default (SStr "Unknown") (n !! "type") in
  ∃ counts : list (scalar * Z),
    out.1 = Stats (Atom (SInt (Z.of_nat (length nodes))))
                  (Atom (SInt (Z.of_nat (length rels))))
                  ((λ kc : scalar * Z, (kc.1, Atom (SInt kc.2))) <$> counts) []
    ∧ sum_values counts = Z.of_nat (length nodes)
    ∧ NoDup counts.*1
    ∧ (∀ t : string,
         dict_get (SStr t) 0 counts
         = count_if (λ n, bool_decide (type_of n = SStr t)) nodes)
    ∧ graph_manager out.2 = NoDriver nodes rels
    ∧ queries out.2 = queries w.
Proof.
  intros Hw out type_of. subst out. destruct w as [gm cs qs]. simpl in Hw. subst gm.
  exists (demo_node_types nodes). unfold get_graph_statistics. unfold_M.
  split; [done|]. rewrite demo_node_types_tally.
  split; [by rewrite tally_sum, length_fmap|].
  split; [apply tally_keys|]. split; [|done].
  intros t. by rewrite tally_get, count_if_fmap.
Qed.

End FallbackStatistics.

(** ** Names as keys of the in-memory store *)

Section UniqueNames.
Context `{Backend}.

Lemma named_app m (l1 l2 : list node) : named m (l1 ++ l2) = named m l1 ++ named m l2.
Proof. unfold named. apply filter_app. Qed.

Lemma named_cons m (n : node) l :
  named m (n :: l) = if name_is n m then n :: named m l else named m l.
Proof. unfold named. rewrite filter_cons. by destruct (name_is n m). Qed.

Lemma name_is_inj (n : node) (m1 m2 : string) :
  name_is n m1 = true → name_is n m2 = true → m1 = m2.
Proof.
  unfold name_is. rewrite !bool_decide_eq_true. intros H1 H2. congruence.
Qed.

(** X11. Without a driver the name is a key of the store as long as the
    property bags hold no ["name"] entry: when every name occurs at most
    once in the list of nodes, it still does after
    [create_or_update_node], the name of the call occurs exactly once, and
    the nodes of every other name are the ones there were. *)
Theorem fallback_names_stay_unique (name node_type : string) (props : node)
    (w : world) (nodes : list node) (rels : list pydict) :
  props !! "name" = None →
  graph_manager w = NoDriver nodes rels →
  (∀ m, length (named m nodes) ≤ 1)%nat →
  ∃ nodes',
    graph_manager (create_or_update_node name node_type props w).2
    = NoDriver nodes' rels
    ∧ (∀ m, length (named m nodes') ≤ 1)%nat
    ∧ length (named name nodes') = 1%nat
    ∧ ∀ m, m ≠ name → named m nodes' = named m nodes.
Proof.
  intros Hp Hw Huniq. destruct w as [gm cs qs]. simpl in Hw. subst gm.
  unfold create_or_update_node, _demo_create_or_update_node. unfold_M.
  destruct (demo_update_first name node_type props nodes) as [nodes'|] eqn:Hup;
    cbn [graph_manager snd].
  - exists nodes'. split; [done|].
    apply demo_update_first_split in Hup as (pre & old & post & -> & Hold & ->).
    assert (Hsame : ∀ m, length (named m (pre ++ (demo_update_fields node_type props ∪ old) :: post))
                         = length (named m (pre ++ old :: post))).
    { intros m. rewrite !named_app, !named_cons, name_is_update by done.
      rewrite !length_app. by destruct (name_is old m). }
    split; [by intros m; rewrite Hsame|]. split.
    + rewrite Hsame. specialize (Huniq name).
      rewrite named_app, named_cons, Hold, length_app in Huniq |- *.
      simpl in *. lia.
    + intros m Hm. rewrite !named_app, !named_cons, name_is_update by done.
      destruct (name_is old m) eqn:Hm'; [|done].
      destruct Hm. by apply (name_is_inj old).
  - exists (nodes ++ [demo_new_node name node_type props]). split; [done|].
    apply demo_update_first_None in Hup.
    assert (Hnew : ∀ m, named m [demo_new_node name node_type props]
                        = if decide (m = name)
                          then [demo_new_node name node_type props] else []).
    { intros m. rewrite named_cons. unfold named at 1. rewrite filter_nil.
      destruct (decide (m = name)) as [->|Hm].
      - by rewrite name_is_new_node.
      - destruct (name_is _ m) eqn:Hm'; [|done].
        destruct Hm. apply (name_is_inj (demo_new_node name node_type props));
          [done|by apply name_is_new_node]. }
    split_and!.
    + intros m. rewrite named_app, Hnew, length_app.
      destruct (decide (m = name)) as [->|Hm]; [by rewrite Hup|].
      specialize (Huniq m). simpl. lia.
    + by rewrite named_app, Hnew, Hup, decide_True.
    + intros m Hm. by rewrite named_app, Hnew, decide_False, app_nil_r.
Qed.

End UniqueNames.

(** ** The entries of a traversal *)

Section TraversalEntries.
Context `{Backend}.

Lemma expand_entries origin visited d max_depth p rels related queue
    related' queue' :
  expand visited d max_depth p rels related queue = Some (related', queue') →
  SStr origin ∈ visited →
  Z.of_nat (length p) = d → 0 ≤ d → d + 1 ≤ Z.max 1 max_depth →
  ∃ new pushed,
    related' = related ++ new
    ∧ queue' = queue ++ pushed
    ∧ Forall (entry_shape origin max_depth) new
    ∧ Forall (queue_shape max_depth) pushed.
Proof.
  intros Hexp Horigin Hlen Hd0 Hd1. revert related queue Hexp.
  induction rels as [|rel rels IH]; intros related queue Hexp; simpl in Hexp.
  { injection Hexp as <- <-. exists [], []. by rewrite !app_nil_r. }
  destruct (pyval_truthy (get rel "target_name")) eqn:Htruthy; [|by apply IH].
  destruct (get rel "target_name") as [a| | | |] eqn:Htarget; try done.
  destruct (bool_decide (a ∈ visited)) eqn:Hseen; [by apply IH|].
  apply bool_decide_eq_false in Hseen.
  apply IH in Hexp as (new & pushed & -> & -> & Hnew & Hpushed).
  assert (Hentry : entry_shape origin max_depth
            {| entity := Atom a; depth := d + 1; path := p ++ [rel];
               relationship_type := get rel "type" |}).
  { unfold entry_shape. cbn [entity depth path relationship_type].
    split_and!; try done; try lia.
    - intros [= ->]. done.
    - rewrite length_app. simpl. lia.
    - exists rel. by rewrite last_snoc. }
  destruct (d + 1 <? max_depth) eqn:Hlt.
  - eexists (_ :: new), (_ :: pushed).
    rewrite <- !(assoc_L (++)). split_and!; try done; [by constructor|].
    constructor; [|done]. unfold queue_shape, item_depth. cbn [fst snd].
    rewrite length_app. simpl. apply Z.ltb_lt in Hlt. lia.
  - eexists (_ :: new), pushed.
    rewrite <- !(assoc_L (++)). split_and!; try done. by constructor.
Qed.

Lemma find_related_loop_entries origin fuel max_depth related visited queue w l :
  SStr origin ∈ visited
  ∨ (related = [] ∧ Forall (λ q : queue_item, q.1.1 = SStr origin) queue) →
  Forall (entry_shape origin max_depth) related →
  Forall (queue_shape max_depth) queue →
  (find_related_loop fuel max_depth related visited queue w).1 = Returned l →
  Forall (entry_shape origin max_depth) l.
Proof.
  revert related visited queue w.
  induction fuel as [|fuel IH]; intros related visited queue w Hstart Hrel Hq.
  - destruct queue as [|[[current d] p] queue]; simpl.
    + by intros [= <-].
    + destruct (_ <? 20); simpl; [done|]. by intros [= <-].
  - destruct queue as [|[[current d] p] queue]; [by intros [= <-]|].
    rewrite find_related_loop_cons.
    destruct (negb _); [by intros [= <-]|].
    apply Forall_cons in Hq as [(Hlen & Hd0 & Hd1) Hq].
    unfold item_depth in Hlen, Hd0, Hd1. cbn [fst snd] in Hlen, Hd0, Hd1.
    destruct (_ || _).
    { apply IH; [|done..]. destruct Hstart as [?|[-> Hall]]; [by left|right].
      split; [done|]. by apply Forall_cons in Hall as [_ ?]. }
    destruct (get_node_relationships (Atom current) w) as [rels w1].
    assert (Horigin : SStr origin ∈ ({[current]} ∪ visited : gset scalar)).
    { destruct Hstart as [?|[_ Hall]]; [set_solver|].
      apply Forall_cons in Hall as [Hcurrent _]. simpl in Hcurrent. set_solver. }
    destruct (expand _ d max_depth p rels related queue)
      as [[related' queue']|] eqn:Hexp; [|done].
    apply (expand_entries origin) in Hexp
      as (new & pushed & -> & -> & Hnew & Hpushed); try done.
    apply IH; [by left|..]; apply Forall_app; by split.
Qed.

(** X12. [find_related_entities] returns on every store, for every start
    entity and every [max_depth], and each entry it returns names an
    entity other than the start entity, at a depth between 1 and
    [max_depth] (1 when [max_depth] is 0), with a path of as many
    relationships as the depth, the last of which leads to the entity and
    gives the entry its relationship type.  A negative [max_depth] gives
    the empty list. *)
Theorem find_related_entities_entries (entity_name : string) (max_depth : Z)
    (w : world) :
  ∃ fuel0 l,
    (∀ fuel, (fuel0 ≤ fuel)%nat →
       (find_related_entities fuel entity_name max_depth w).1 = Some l)
    ∧ Forall (entry_shape entity_name max_depth) l
    ∧ (max_depth < 0 → l = []).
Proof.
  destruct (find_related_loop_terminates max_depth [] ∅
              [(SStr entity_name, 0, [])] w) as [fuel0 Hfuel].
  pose proof (find_related_loop_entries entity_name (S fuel0) max_depth [] ∅
                [(SStr entity_name, 0, [])] w) as Hentries.
  assert (Hrun : ∀ fuel, (S fuel0 ≤ fuel)%nat →
            find_related_loop fuel max_depth [] ∅ [(SStr entity_name, 0, [])] w
            = find_related_loop (S fuel0) max_depth [] ∅
                [(SStr entity_name, 0, [])] w).
  { intros fuel Hle.
    rewrite (find_related_loop_fuel_le fuel0 fuel) by (done || lia).
    by rewrite (find_related_loop_fuel_le fuel0 (S fuel0)) by (done || lia). }
  assert (Hend : (find_related_loop (S fuel0) max_depth [] ∅
                    [(SStr entity_name, 0, [])] w).1 ≠ OutOfFuel).
  { by rewrite (find_related_loop_fuel_le fuel0 (S fuel0)) by (done || lia). }
  assert (Hneg : max_depth < 0 →
            (find_related_loop (S fuel0) max_depth [] ∅
               [(SStr entity_name, 0, [])] w).1 = Returned []).
  { intros Hmd. rewrite find_related_loop_cons. cbn [length negb Z.of_nat Z.ltb Z.compare].
    replace (max_depth <? 0) with true by (symmetry; apply Z.ltb_lt; lia).
    rewrite orb_true_r. by destruct fuel0. }
  exists (S fuel0). unfold find_related_entities, mbind, M_bind.
  destruct (find_related_loop (S fuel0) max_depth [] ∅ _ w) as [[l| |] w1] eqn:Hloop;
    cbn [fst] in *; [| |done].
  - exists l. split; [by intros fuel Hle; rewrite Hrun|].
    split.
    + apply Hentries; [|done| |done].
      * right. split; [done|]. by constructor.
      * constructor; [|done]. unfold queue_shape, item_depth. simpl. lia.
    + intros Hmd. specialize (Hneg Hmd). by injection Hneg.
  - exists []. split; [by intros fuel Hle; rewrite Hrun|done].
Qed.

End TraversalEntries.

(** ** [_deduplicate_list] *)

Lemma has_identifier_spec key s item :
  has_identifier key s item = true ↔ item !! key = Some (Atom (SStr s)).
Proof.
  unfold has_identifier. destruct (item !! key) as [[[| | | |s']| | | |]|]; try done.
  rewrite String.eqb_eq. split; [by intros ->|by intros [= ->]].
Qed.

Lemma deduplicate_loop_spec key items seen unique_items :
  Forall (λ item, hashable_identifier key item = true) items →
  ∃ kept,
    deduplicate_loop key items seen unique_items = Some (unique_items ++ kept)
    ∧ sublist kept items
    ∧ Forall (λ item : pydict, get_truthy (item !! key) = true) kept
    ∧ ∀ s, s ≠ "" →
        filter (λ item, has_identifier key s item = true) kept
        = if bool_decide (SStr s ∈ seen) then []
          else take 1 (filter (λ item, has_identifier key s item = true) items).
Proof.
  intros Hitems. revert seen unique_items.
  induction Hitems as [|item items Hitem _ IH]; intros seen unique_items.
  { exists []. rewrite app_nil_r. split_and!; try done.
    intros s _. by destruct (bool_decide _). }
  assert (Hskip : (∀ s, s ≠ "" → has_identifier key s item = false) →
    ∃ kept, deduplicate_loop key items seen unique_items = Some (unique_items ++ kept)
      ∧ sublist kept (item :: items)
      ∧ Forall (λ item : pydict, get_truthy (item !! key) = true) kept
      ∧ ∀ s, s ≠ "" →
          filter (λ item, has_identifier key s item = true) kept
          = if bool_decide (SStr s ∈ seen) then []
            else take 1 (filter (λ item, has_identifier key s item = true)
                           (item :: items))).
  { intros Hno. destruct (IH seen unique_items) as (kept & Hrun & Hsub & Htruthy & Hfirst).
    exists kept. split_and!; try done; [by apply sublist_cons|].
    intros s Hs. rewrite Hfirst by done. rewrite filter_cons.
    rewrite decide_False; [done|]. by rewrite Hno. }
  unfold hashable_identifier in Hitem. cbn [deduplicate_loop].
  destruct (item !! key) as [identifier|] eqn:Hkey; cycle 1.
  { apply Hskip. intros s _. unfold has_identifier. by rewrite Hkey. }
  destruct (pyval_truthy identifier) eqn:Htruthy; cycle 1.
  { apply Hskip. intros s Hs. unfold has_identifier. rewrite Hkey.
    destruct identifier as [[| | | |s']| | | |]; try done.
    destruct s'; [|done]. apply String.eqb_neq. done. }
  destruct identifier as [a| | | |]; try done.
  destruct (bool_decide (a ∈ seen)) eqn:Hseen.
  - apply bool_decide_eq_true in Hseen.
    destruct (IH seen unique_items) as (kept & Hrun & Hsub & Hkept & Hfirst).
    exists kept. split_and!; try done; [by apply sublist_cons|].
    intros s Hs. rewrite Hfirst by done.
    destruct (bool_decide (SStr s ∈ seen)) eqn:Hs'; [done|].
    apply bool_decide_eq_false in Hs'. rewrite filter_cons, decide_False; [done|].
    rewrite has_identifier_spec, Hkey. intros [= ->]. done.
  - apply bool_decide_eq_false in Hseen.
    destruct (IH ({[a]} ∪ seen) (unique_items ++ [item]))
      as (kept & Hrun & Hsub & Hkept & Hfirst).
    exists (item :: kept). rewrite Hrun, <- (assoc_L (++)).
    split_and!; try done.
    + by apply sublist_skip.
    + constructor; [|done]. by rewrite Hkey.
    + intros s Hs. rewrite !filter_cons, Hfirst by done.
      destruct (decide (a = SStr s)) as [->|Ha].
      * rewrite !decide_True by (by rewrite has_identifier_spec).
        rewrite bool_decide_eq_true_2 by set_solver.
        by rewrite bool_decide_eq_false_2.
      * rewrite !decide_False
          by (rewrite has_identifier_spec, Hkey; by intros [= ->]).
        destruct (bool_decide (SStr s ∈ seen)) eqn:Hs'.
        -- apply bool_decide_eq_true in Hs'.
           by rewrite bool_decide_eq_true_2 by set_solver.
        -- apply bool_decide_eq_false in Hs'.
           by rewrite bool_decide_eq_false_2 by set_solver.
Qed.

(** X13. [_deduplicate_list] keeps, in their order, the first item of
    every identifier: on items whose identifiers can be put in a set it
    returns a sublist of the items, every item of which has a true
    identifier, and for each string that is not empty the items kept with
    that identifier are the first such item of the input, if there is
    one. *)
Theorem deduplicate_list_keeps_first (items : list pydict) (key : string) :
  Forall (λ item, hashable_identifier key item = true) items →
  ∃ out,
    _deduplicate_list items key = Some out
    ∧ sublist out items
    ∧ Forall (λ item : pydict, get_truthy (item !! key) = true) out
    ∧ ∀ s, s ≠ "" →
        filter (λ item, has_identifier key s item = true) out
        = take 1 (filter (λ item, has_identifier key s item = true) items).
Proof.
  intros Hitems.
  destruct (deduplicate_loop_spec key items ∅ [] Hitems)
    as (kept & Hrun & Hsub & Hkept & Hfirst).
  exists kept. split_and!; done.
Qed.

(** ** The user context *)

Section UserContext.
Context `{Backend}.

Lemma categorize_spec relationships context ctx :
  categorize relationships context = Some ctx →
  ∀ key,
    ctx !! key
    = (λ l, l ++ filter (λ rel, bucket_of rel = Some key) relationships)
        <$> context !! key.
Proof.
  revert context. induction relationships as [|rel rels IH]; intros context Hrun.
  { injection Hrun as <-. intros key.
    destruct (context !! key); simpl; [|done]. by rewrite app_nil_r. }
  cbn [categorize] in Hrun.
  destruct (lower_of (default (Atom (SStr "")) (rel !! "target_type")))
    as [target_type|] eqn:Htype; [|done].
  pose proof (IH _ Hrun) as Hctx.
  assert (Hbucket : bucket_of rel
            = user_context_key target_type
                (default (Atom (SStr "")) (rel !! "type")))
    by (unfold bucket_of; by rewrite Htype).
  intros key. rewrite Hctx, filter_cons, Hbucket.
  destruct (user_context_key target_type _) as [key'|] eqn:Hkey.
  - destruct (decide (key' = key)) as [->|Hne].
    + rewrite lookup_alter_eq, decide_True by done.
      destruct (context !! key); simpl; [|done]. by rewrite <- (assoc_L (++)).
    + rewrite lookup_alter_ne by done. rewrite decide_False; [done|congruence].
  - by rewrite decide_False.
Qed.

(** X14. The user context files each relationship of [User] in one list
    at most: each of the six lists holds, in their order, the
    relationships whose first matching rule of the chain (skill before
    preference before goal before organization before location before
    memory) is the rule of that list, and the context has no other key. *)
Theorem user_context_buckets (w : world) (ctx : gmap string (list pydict)) :
  (_get_user_context w).1 = Some ctx →
  let relationships :=
    (get_node_relationships (Atom (SStr "User")) (get_node "User" w).2).1 in
  ∀ key,
    ctx !! key
    = if bool_decide (key ∈ user_context_keys)
      then Some (filter (λ rel, bucket_of rel = Some key) relationships)
      else None.
Proof.
  unfold _get_user_context. unfold mbind at 1, M_bind at 1.
  destruct (get_node "User" w) as [user_node w1]. cbn [snd].
  destruct (negb (dict_truthy user_node)); [done|].
  unfold mbind, M_bind.
  destruct (get_node_relationships (Atom (SStr "User")) w1) as [rels w2].
  unfold mret, M_ret. cbn [fst]. intros Hrun key.
  rewrite (categorize_spec _ _ _ Hrun).
  unfold empty_user_context, user_context_keys.
  destruct (bool_decide _) eqn:Hkey.
  - apply bool_decide_eq_true in Hkey.
    rewrite !elem_of_cons, elem_of_nil in Hkey.
    destruct Hkey as [->|[->|[->|[->|[->|[->|[]]]]]]]; done.
  - apply bool_decide_eq_false in Hkey.
    rewrite !lookup_insert_ne, lookup_singleton_ne; [done|..];
      intros <-; apply Hkey; set_solver.
Qed.

Lemma categorize_None relationships context :
  categorize relationships context = None
  ↔ Exists (λ rel, lower_of (default (Atom (SStr "")) (rel !! "target_type"))
                   = None) relationships.
Proof.
  revert context. induction relationships as [|rel rels IH]; intros context.
  { split; [done|]. by intros ?%Exists_nil. }
  cbn [categorize]. rewrite Exists_cons.
  destruct (lower_of (default (Atom (SStr "")) (rel !! "target_type")))
    as [target_type|] eqn:Htype.
  - rewrite IH. split; [by right|]. by intros [?|?].
  - split; [by left|done].
Qed.

(** X15. There is no user context exactly when the store has no [User]
    node with a property (as in fallback mode, where no node is found),
    or when the target type of one of the relationships of [User] is not a
    string: one neighbour without a type hides the whole context. *)
Theorem user_context_missing (w : world) :
  let relationships :=
    (get_node_relationships (Atom (SStr "User")) (get_node "User" w).2).1 in
  (_get_user_context w).1 = None
  ↔ dict_truthy (get_node "User" w).1 = false
    ∨ Exists (λ rel, lower_of (default (Atom (SStr "")) (rel !! "target_type"))
                     = None) relationships.
Proof.
  unfold _get_user_context. unfold mbind at 1, M_bind at 1.
  destruct (get_node "User" w) as [user_node w1]. cbn [fst snd].
  destruct (dict_truthy user_node); cbn [negb].
  - unfold mbind, M_bind.
    destruct (get_node_relationships (Atom (SStr "User")) w1) as [rels w2].
    unfold mret, M_ret. cbn [fst]. rewrite categorize_None.
    split; [by right|]. by intros [?|?].
  - split; [by left|done].
Qed.

End UserContext.

(** ** Retrieval *)

Section Retrieval.
Context `{Backend}.

Lemma reads_only_find_related_loop fuel max_depth related visited queue :
  reads_only (find_related_loop fuel max_depth related visited queue).
Proof.
  revert related visited queue.
  induction fuel as [|fuel IH]; intros related visited queue;
    destruct queue as [|[[current d] p] queue]; simpl;
    try apply reads_only_ret.
  - destruct (negb _); apply reads_only_ret.
  - destruct (negb _); [apply reads_only_ret|].
    destruct (_ || _); [apply IH|].
    apply reads_only_bind; [apply reads_only_get_node_relationships|].
    intros rels. destruct (expand _ _ _ _ _ _ _) as [[related' queue']|];
      [apply IH|apply reads_only_ret].
Qed.

Lemma reads_only_find_related_entities fuel entity_name max_depth :
  reads_only (find_related_entities fuel entity_name max_depth).
Proof.
  unfold find_related_entities.
  apply reads_only_bind; [apply reads_only_find_related_loop|].
  intros o. apply reads_only_ret.
Qed.

Lemma reads_only_get_keyword_matches query max_results :
  reads_only (_get_keyword_matches query max_results).
Proof.
  unfold _get_keyword_matches.
  apply reads_only_bind.
  { apply reads_only_extend_loop. intros keyword.
    apply reads_only_bind; [apply reads_only_search_nodes_by_name|].
    intros found. apply reads_only_ret. }
  intros found_entities. apply reads_only_bind.
  { apply reads_only_extend_loop. intros e. apply reads_only_get_node_relationships. }
  intros found_relationships. apply reads_only_ret.
Qed.

Lemma reads_only_get_user_context : reads_only _get_user_context.
Proof.
  unfold _get_user_context.
  apply reads_only_bind; [apply reads_only_get_node|].
  intros user_node. destruct (negb _); [apply reads_only_ret|].
  apply reads_only_bind; [apply reads_only_get_node_relationships|].
  intros rels. apply reads_only_ret.
Qed.

Lemma reads_only_retrieve_relevant_context query max_results :
  reads_only (retrieve_relevant_context query max_results).
Proof.
  unfold retrieve_relevant_context.
  apply reads_only_bind; [apply reads_only_get_keyword_matches|].
  intros [found|]; [|apply reads_only_ret].
  apply reads_only_bind; [apply reads_only_get_graph_statistics|].
  intros statistics.
  apply reads_only_bind; [apply reads_only_get_user_context|].
  intros user_context. apply reads_only_ret.
Qed.

(** X16. Retrieval never writes: [retrieve_relevant_context],
    [_get_keyword_matches], [_get_user_context] and
    [find_related_entities] call only reading methods of the store, send
    only reading queries, and in fallback mode leave the in-memory lists
    as they are. *)
Theorem retrieval_never_writes (query : string) (max_results : Z)
    (fuel : nat) (entity_name : string) (max_depth : Z) :
  reads_only (retrieve_relevant_context query max_results)
  ∧ reads_only (_get_keyword_matches query max_results)
  ∧ reads_only _get_user_context
  ∧ reads_only (find_related_entities fuel entity_name max_depth).
Proof.
  split_and!.
  - apply reads_only_retrieve_relevant_context.
  - apply reads_only_get_keyword_matches.
  - apply reads_only_get_user_context.
  - apply reads_only_find_related_entities.
Qed.

Lemma slice_to_sublist {A : Type} n (l : list A) : slice_to n l `sublist_of` l.
Proof. unfold slice_to. destruct (n <? 0); apply sublist_take. Qed.

Lemma slice_to_length {A : Type} n (l : list A) :
  0 ≤ n → Z.of_nat (length (slice_to n l)) ≤ n.
Proof.
  intros Hn. unfold slice_to. replace (n <? 0) with false
    by (symmetry; apply Z.ltb_ge; lia).
  rewrite length_take. lia.
Qed.

Lemma filter_sublist_length {A : Type} (P : A → Prop) `{!∀ x, Decision (P x)}
    (l1 l2 : list A) :
  l1 `sublist_of` l2 → (length (filter P l1) ≤ length (filter P l2))%nat.
Proof.
  induction 1 as [|x l1 l2 _ IH|x l1 l2 _ IH]; [done|..];
    rewrite !filter_cons; destruct (decide (P x)); simpl; lia.
Qed.

Lemma deduplicate_loop_hashable key items seen unique_items out :
  deduplicate_loop key items seen unique_items = Some out →
  Forall (λ item, hashable_identifier key item = true) items.
Proof.
  revert seen unique_items.
  induction items as [|item items IH]; intros seen unique_items Hrun; [done|].
  cbn [deduplicate_loop] in Hrun. unfold hashable_identifier at 1.
  destruct (item !! key) as [identifier|] eqn:Hkey.
  - destruct (pyval_truthy identifier) eqn:Htruthy.
    + destruct identifier as [a| | | |]; try done.
      destruct (bool_decide (a ∈ seen)); constructor; eauto;
        by rewrite Hkey.
    + constructor; [|by eauto]. rewrite Hkey, Htruthy. by destruct identifier.
  - constructor; [|by eauto]. by rewrite Hkey.
Qed.

Lemma Forall_sublist_of {A : Type} (P : A → Prop) (l1 l2 : list A) :
  l1 `sublist_of` l2 → Forall P l2 → Forall P l1.
Proof.
  intros Hsub Hall. apply Forall_forall. intros x Hx.
  apply (proj1 (Forall_forall P l2) Hall). by apply (sublist_subseteq _ _ Hsub).
Qed.

Lemma filter_none {A : Type} (P : A → Prop) `{!∀ x, Decision (P x)} (l : list A) :
  Forall (λ x, ¬ P x) l → filter P l = [].
Proof.
  induction 1 as [|x l Hx _ IH]; [done|]. by rewrite filter_cons, decide_False.
Qed.

(** The entities of a keyword match: at most [max_results] of them, with
    true names, no name twice. *)
Lemma keyword_match_entities query max_results w found :
  (_get_keyword_matches query max_results w).1 = Some found →
  (0 ≤ max_results → Z.of_nat (length (km_entities found)) ≤ max_results)
  ∧ Forall (λ e : pydict, get_truthy (e !! "name") = true) (km_entities found)
  ∧ (∀ s, length (filter (λ e, has_identifier "name" s e = true)
                    (km_entities found)) ≤ 1)%nat
  ∧ km_relationships found = [].
Proof.
  unfold _get_keyword_matches. unfold mbind at 1 2, M_bind.
  destruct (extend_loop _ (_extract_keywords query) [] w) as [es w1].
  pose proof (extend_loop_Forall (λ view : pydict, view !! "id" = None)
                (λ e : pydict,
                   get_node_relationships (default (Atom (SStr "")) (e !! "name")))
                es [] w1) as Hrels.
  destruct (extend_loop _ es [] w1) as [rs w2].
  unfold mret, M_ret. cbn [fst].
  destruct (_deduplicate_list es "name") as [es'|] eqn:Hes; [|done]. simpl.
  unfold _deduplicate_list.
  rewrite deduplicate_loop_missing_key; cycle 1.
  { apply Hrels; [|done]. intros x w'. apply get_node_relationships_no_id. }
  simpl. intros [= <-]. cbn [km_entities km_relationships].
  pose proof (deduplicate_loop_hashable _ _ _ _ _ Hes) as Hhash.
  destruct (deduplicate_loop_spec "name" es ∅ [] Hhash)
    as (out & Hout & Hsub & Htruthy & Hfirst).
  unfold _deduplicate_list in Hes. rewrite Hes in Hout. injection Hout as ->.
  split_and!.
  - apply slice_to_length.
  - eapply Forall_sublist_of; [apply slice_to_sublist|done].
  - intros s.
    etrans; [apply filter_sublist_length, slice_to_sublist|].
    destruct (decide (s = "")) as [->|Hs].
    + rewrite filter_none; [simpl; lia|].
      eapply Forall_impl; [exact Htruthy|]. intros e He Hid.
      apply has_identifier_spec in Hid. cbv beta in He. by rewrite Hid in He.
    + rewrite Hfirst by done. rewrite bool_decide_eq_false_2 by set_solver.
      rewrite length_take. lia.
  - apply slice_to_nil.
Qed.

(** X17. What [retrieve_relevant_context] hands back, on every store: the
    query as it was given, no semantic match, never a relationship, and
    entities with true names, no name twice, at most [max_results] of them
    when [max_results] is not negative; or the error dictionary with the
    query, when a name found cannot be put in a set. *)
Theorem retrieved_context_shape (query : string) (max_results : Z) (w : world) :
  match (retrieve_relevant_context query max_results w).1 with
  | Retrieved entities relationships semantic_matches statistics query' _ =>
      query' = query
      ∧ semantic_matches = []
      ∧ relationships = []
      ∧ (0 ≤ max_results → Z.of_nat (length entities) ≤ max_results)
      ∧ Forall (λ e : pydict, get_truthy (e !! "name") = true) entities
      ∧ (∀ s, length (filter (λ e, has_identifier "name" s e = true) entities)
              ≤ 1)%nat
      ∧ (_get_keyword_matches query max_results w).1
        = Some {| km_entities := entities; km_relationships := relationships |}
  | RetrievedError query' =>
      query' = query ∧ (_get_keyword_matches query max_results w).1 = None
  end.
Proof.
  unfold retrieve_relevant_context. unfold mbind at 1, M_bind at 1.
  pose proof (keyword_match_entities query max_results w) as Hfound.
  destruct (_get_keyword_matches query max_results w) as [[found|] w1];
    cbn [fst] in *; [|done].
  destruct (Hfound found eq_refl) as (Hlen & Hnames & Hdistinct & Hrels).
  unfold mbind, M_bind. destruct (get_graph_statistics w1) as [statistics w2].
  destruct (_get_user_context w2) as [user_context w3].
  unfold mret, M_ret. cbn [fst]. rewrite Hrels. split_and!; try done.
  destruct found as [es rs]. simpl in *. by subst.
Qed.

(** X18. Without a driver retrieval finds nothing: the context holds no
    entity, no relationship and no user profile, only the statistics of the
    in-memory lists, and the store is left as it is. *)
Theorem fallback_retrieval_finds_nothing (query : string) (max_results : Z)
    (w : world) (nodes : list node) (rels : list pydict) :
  graph_manager w = NoDriver nodes rels →
  let out := retrieve_relevant_context query max_results w in
  (∃ node_types,
     out.1 = Retrieved [] [] []
               (Stats (Atom (SInt (Z.of_nat (length nodes))))
                      (Atom (SInt (Z.of_nat (length rels)))) node_types [])
               query None)
  ∧ graph_manager out.2 = NoDriver nodes rels
  ∧ queries out.2 = queries w.
Proof.
  intros Hw out. subst out.
  assert (Hkm : idle_without_driver (_get_keyword_matches query max_results)
                  (Some {| km_entities := []; km_relationships := [] |})).
  { unfold _get_keyword_matches.
    apply (idle_bind _ _ []).
    { apply idle_extend_loop. intros keyword.
      apply (idle_bind _ _ []); [apply idle_search_nodes_by_name|].
      rewrite slice_to_nil. apply idle_ret. }
    apply (idle_bind _ _ []).
    { apply idle_extend_loop. intros e. apply idle_get_node_relationships. }
    cbn. rewrite !slice_to_nil. apply idle_ret. }
  assert (Huc : idle_without_driver _get_user_context None).
  { unfold _get_user_context.
    apply (idle_bind _ _ None); [apply idle_get_node|]. apply idle_ret. }
  assert (Hout : ∃ w',
    retrieve_relevant_context query max_results w
    = (Retrieved [] [] []
         (Stats (Atom (SInt (Z.of_nat (length nodes))))
                (Atom (SInt (Z.of_nat (length rels))))
                ((λ kc : scalar * Z, (kc.1, Atom (SInt kc.2)))
                   <$> demo_node_types nodes) [])
         query None, w')
    ∧ graph_manager w' = NoDriver nodes rels ∧ queries w' = queries w).
  { unfold retrieve_relevant_context. unfold mbind at 1, M_bind at 1.
    destruct (Hkm w nodes rels Hw) as (Hx & Hg & Hq).
    destruct (_get_keyword_matches query max_results w) as [found w1].
    cbn [fst snd] in Hx, Hg, Hq. subst found.
    unfold mbind at 1, M_bind at 1.
    destruct w1 as [gm1 cs1 qs1]. cbn [graph_manager queries] in Hg, Hq.
    subst gm1 qs1.
    unfold get_graph_statistics at 1. unfold_M.
    match goal with
    | |- context [_get_user_context ?w2] =>
        destruct (Huc w2 nodes rels eq_refl) as (Hy & Hg' & Hq');
        destruct (_get_user_context w2) as [user_context w3]
    end.
    cbn [fst snd graph_manager queries] in *. subst user_context.
    by exists w3. }
  destruct Hout as (w' & -> & Hg & Hq). split; [by eexists|done].
Qed.

End Retrieval.

(** ** [get_conversation_context] *)

Lemma slice_from_last {A : Type} (n : Z) (l : list A) :
  0 < n →
  slice_from (- n) l = drop (length l - Z.to_nat n) l.
Proof.
  intros Hn. unfold slice_from.
  replace (- n <? 0) with true by (symmetry; apply Z.ltb_lt; lia).
  f_equal. lia.
Qed.

(** X19. The conversation context holds one numbered line per
    conversation of the window, oldest first, numbered from 1.  With a
    positive [max_context] the window is the last [max_context]
    conversations (all of them when there are fewer); with a
    [max_context] of 0 the window is not empty but the whole list; a
    negative [max_context] drops that many conversations from the front.
    An empty list gives the empty string. *)
Theorem conversation_context_window (recent_conversations : list string)
    (max_context : Z) :
  let len := length recent_conversations in
  let parts := context_parts recent_conversations max_context in
  let skipped := if 0 <? max_context then (len - Z.to_nat max_context)%nat
                 else Z.to_nat (- max_context) in
  length parts = (len - skipped)%nat
  ∧ (∀ k conv, recent_conversations !! (skipped + k)%nat = Some conv →
               parts !! k = Some (context_line (Z.of_nat k + 1) conv))
  ∧ (0 < max_context → (length parts ≤ Z.to_nat max_context)%nat)
  ∧ (max_context = 0 → length parts = len)
  ∧ get_conversation_context recent_conversations max_context
    = match recent_conversations with
      | [] => ""
      | _ => String.concat line_feed parts
      end.
Proof.
  intros len parts skipped.
  assert (Hslice : slice_from (- max_context) recent_conversations
                   = drop skipped recent_conversations).
  { subst skipped. destruct (0 <? max_context) eqn:Hpos.
    - apply Z.ltb_lt in Hpos. by apply slice_from_last.
    - apply Z.ltb_ge in Hpos. unfold slice_from.
      replace (- max_context <? 0) with false by (symmetry; apply Z.ltb_ge; lia).
      done. }
  subst parts. unfold context_parts. rewrite Hslice.
  split_and!.
  - by rewrite length_imap, length_drop.
  - intros k conv Hk. rewrite list_lookup_imap, lookup_drop, Hk. done.
  - intros Hpos. rewrite length_imap, length_drop. subst skipped len.
    replace (0 <? max_context) with true by (symmetry; apply Z.ltb_lt; lia). lia.
  - intros ->. rewrite length_imap, length_drop. subst skipped. simpl. lia.
  - unfold get_conversation_context, context_parts. rewrite Hslice.
    by destruct recent_conversations.
Qed.

(** ** The picture of the in-memory store *)

Section Visualization.
Context `{Backend}.

(** Without a driver [create_or_update_node] leaves a list of nodes that
    holds the record it has written, and the relationships as they
    were. *)
Lemma fallback_create_writes name node_type props w nodes rels :
  graph_manager w = NoDriver nodes rels →
  ∃ pre written post,
    carries written name node_type props
    ∧ graph_manager (create_or_update_node name node_type props w).2
      = NoDriver (pre ++ written :: post) rels.
Proof.
  intros Hw. destruct w as [gm cs qs]. simpl in Hw. subst gm.
  unfold create_or_update_node, _demo_create_or_update_node. unfold_M.
  destruct (demo_update_first name node_type props nodes) as [nodes'|] eqn:Hup;
    cbn [graph_manager calls queries fst snd].
  - apply demo_update_first_split in Hup as (pre & old & post & -> & Hold & ->).
    exists pre, (demo_update_fields node_type props ∪ old), post.
    split; [by apply updated_node_carries|done].
  - exists nodes, (demo_new_node name node_type props), [].
    split; [apply new_node_carries|done].
Qed.

(** X20. Without a driver a node that has been created is in the picture:
    after [create_or_update_node] with a property bag that has no
    ["name"] and no ["type"] entry, the visualization data of the store
    hold a node whose id and label are the name, whose type is the type of
    the call, coloured by [NODE_COLORS] (the default colour for a type
    that is not in the table), and whose properties are the supplied ones,
    without the name and the type.  The data count every node of the store
    and show the relationship list as it is. *)
Theorem created_node_is_shown (name node_type : string) (props : node)
    (w : world) (nodes : list node) (rels : list pydict) :
  props !! "name" = None → props !! "type" = None →
  graph_manager w = NoDriver nodes rels →
  ∃ nodes' shown,
    graph_manager (create_or_update_node name node_type props w).2
    = NoDriver nodes' rels
    ∧ shown ∈ shown_nodes (demo_graph_data nodes' rels)
    ∧ shown_id shown = SStr name
    ∧ shown_label shown = SStr name
    ∧ shown_type shown = SStr node_type
    ∧ shown_color shown
      = default "#BDC3C7" (NODE_COLORS !! node_type)
    ∧ (∀ k v, props !! k = Some v → k ≠ "created_at" → k ≠ "updated_at" →
              shown_properties shown !! k = Some v)
    ∧ shown_properties shown !! "name" = None
    ∧ shown_properties shown !! "type" = None
    ∧ total_nodes (demo_graph_data nodes' rels) = Z.of_nat (length nodes')
    ∧ shown_edges (demo_graph_data nodes' rels) = rels.
Proof.
  intros Hname Htype Hw.
  destruct (fallback_create_writes name node_type props w nodes rels Hw)
    as (pre & written & post & (Hn & Ht & Hprops) & Hgm).
  exists (pre ++ written :: post), (demo_shown_node written).
  split; [done|]. split.
  { cbn [demo_graph_data shown_nodes]. apply list_elem_of_fmap.
    exists written. split; [done|]. apply elem_of_app. right. constructor. }
  unfold demo_shown_node. cbn [shown_id shown_label shown_type shown_color
                               shown_properties].
  rewrite (Hn Hname), (Ht Htype). cbn [default].
  split_and!; try done.
  - intros k v Hk Hc Hu. apply map_lookup_filter_Some. split; [by apply Hprops|].
    cbn [fst]. intros Hin. rewrite !elem_of_cons, elem_of_nil in Hin.
    destruct Hin as [->|[->|[]]]; congruence.
  - apply map_lookup_filter_None. right. intros v _ Hnot. apply Hnot.
    cbn [fst]. set_solver.
  - apply map_lookup_filter_None. right. intros v _ Hnot. apply Hnot.
    cbn [fst]. set_solver.
  - cbn [demo_graph_data total_nodes]. by rewrite length_fmap.
Qed.

End Visualization.

(** ** What the user is told without a driver *)

Section FallbackResponse.
Context `{Backend}.

(** The result of an execution without a driver. *)
Lemma fallback_execution (parsed : ParsedConversation) (w : world)
    (nodes : list node) (rels : list pydict) :
  graph_manager w = NoDriver nodes rels →
  let accepted := count_if _should_process_entity (entities parsed) in
  let blank := {| result_intent := intent parsed; success := false;
                  message := ""; entities_processed := 0;
                  relationships_processed := 0; data := DataNone |} in
  (execute_parsed_conversation parsed w).1
  = if String.eqb (intent parsed) "CREATE"
    then update_counts blank "Created" accepted 0
    else if String.eqb (intent parsed) "READ" || String.eqb (intent parsed) "QUERY"
    then (_execute_read parsed blank w).1
    else if String.eqb (intent parsed) "UPDATE"
    then update_counts blank "Updated" 0 0
    else if String.eqb (intent parsed) "DELETE"
    then update_counts blank "Deleted" 0 0
    else {| result_intent := intent parsed; success := false;
            message := "Unknown intent: " +:+ intent parsed;
            entities_processed := 0; relationships_processed := 0;
            data := DataNone |}.
Proof.
  intros Hw accepted blank. unfold execute_parsed_conversation. fold blank.
  destruct (String.eqb (intent parsed) "CREATE").
  { rewrite execute_create_result. cbn zeta. cbn [fst].
    destruct (fallback_create_entities (entities parsed) 0 w nodes rels Hw)
      as (Hn & (nodes' & Hg & _) & _).
    destruct (idle_count_loop create_relationship_body (relationships parsed) 0
                idle_create_relationship_body _ nodes' rels Hg) as (Hm & _ & _).
    by rewrite Hn, Hm, Z.add_0_l. }
  destruct (_ || _); [done|].
  destruct (String.eqb (intent parsed) "UPDATE").
  { rewrite execute_update_result. cbn zeta. cbn [fst].
    destruct (idle_count_loop update_entity_body (entities parsed) 0
                idle_update_entity_body w nodes rels Hw) as (Hn & Hg & _).
    destruct (idle_count_loop update_relationship_body (relationships parsed) 0
                idle_update_relationship_body _ nodes rels Hg) as (Hm & _ & _).
    by rewrite Hn, Hm. }
  destruct (String.eqb (intent parsed) "DELETE"); [|done].
  rewrite execute_delete_result. cbn zeta. cbn [fst].
  destruct (idle_count_loop delete_relationship_body (relationships parsed) 0
              idle_delete_relationship_body w nodes rels Hw) as (Hm & Hg & _).
  destruct (idle_count_loop delete_entity_body (entities parsed) 0
              idle_delete_entity_body _ nodes rels Hg) as (Hn & _ & _).
  by rewrite Hn, Hm.
Qed.

(** The result of a READ without a driver. *)
Lemma fallback_execute_read (parsed : ParsedConversation) (result : Result)
    (w : world) (nodes : list node) (rels : list pydict) :
  graph_manager w = NoDriver nodes rels →
  (_execute_read parsed result w).1
  = if is_empty (entities parsed)
    then {| result_intent := result_intent result; success := true;
            message := "Retrieved graph overview";
            entities_processed := entities_processed result;
            relationships_processed := relationships_processed result;
            data := DataStats (get_graph_statistics w).1 |}
    else {| result_intent := result_intent result; success := false;
            message := "Found 0 results";
            entities_processed := 0;
            relationships_processed := relationships_processed result;
            data := DataList [] |}.
Proof.
  intros Hw. unfold _execute_read.
  destruct (is_empty (entities parsed)) eqn:Hempty.
  { unfold mbind, M_bind. by destruct (get_graph_statistics w). }
  destruct (idle_extend_loop read_entity_body (entities parsed) []
              idle_read_entity_body w nodes rels Hw) as (Hx & Hg & Hq).
  unfold mbind, M_bind.
  destruct (extend_loop read_entity_body (entities parsed) [] w) as [found w1].
  simpl in Hx, Hg, Hq. subst found. cbn [is_empty andb negb].
  destruct (idle_extend_loop read_type_body (entities parsed) []
              idle_read_type_body w1 nodes rels Hg) as (Hx' & Hg' & Hq').
  destruct (extend_loop read_type_body (entities parsed) [] w1) as [found w2].
  simpl in Hx', Hg', Hq'. by subst found.
Qed.

(** X21. What the user is told when neither the store nor the language
    model answers: without a driver the fallback response to the result of
    an execution is, for a CREATE intent, the number of accepted entities
    with 0 relationships, or the trouble message when no entity was
    accepted; for a READ or QUERY intent without entities the two counts of
    the in-memory lists, and with entities the trouble message; for UPDATE,
    DELETE and any other intent always the trouble message. *)
Theorem fallback_response_without_driver (str_of : pyval → string)
    (parsed : ParsedConversation) (w : world) (nodes : list node)
    (rels : list pydict) :
  graph_manager w = NoDriver nodes rels →
  let accepted := count_if _should_process_entity (entities parsed) in
  let trouble := "I had trouble processing that. " in
  _generate_fallback_response str_of (execute_parsed_conversation parsed w).1
  = if String.eqb (intent parsed) "CREATE" then
      if 0 <? accepted
      then "I've added " +:+ pretty accepted
             +:+ " new entities and 0 relationships to your knowledge graph!"
      else trouble +:+ "Created 0 entities and 0 relationships"
    else if String.eqb (intent parsed) "READ" || String.eqb (intent parsed) "QUERY"
    then
      if is_empty (entities parsed)
      then "Your knowledge graph has "
             +:+ str_of (Atom (SInt (Z.of_nat (length nodes)))) +:+ " nodes and "
             +:+ str_of (Atom (SInt (Z.of_nat (length rels)))) +:+ " relationships."
      else trouble +:+ "Found 0 results"
    else if String.eqb (intent parsed) "UPDATE"
    then trouble +:+ "Updated 0 entities and 0 relationships"
    else if String.eqb (intent parsed) "DELETE"
    then trouble +:+ "Deleted 0 entities and 0 relationships"
    else trouble +:+ "Unknown intent: " +:+ intent parsed.
Proof.
  intros Hw accepted trouble.
  rewrite (fallback_execution parsed w nodes rels Hw). fold accepted.
  destruct (String.eqb (intent parsed) "CREATE") eqn:Hc.
  { unfold _generate_fallback_response.
    cbn [update_counts success message result_intent entities_processed
         relationships_processed]. rewrite Hc, orb_false_r.
    destruct (0 <? accepted) eqn:Hpos; cbn [negb]; [done|].
    assert (accepted = 0) as ->; [|done].
    apply Z.ltb_ge in Hpos. pose proof (count_if_bounds _should_process_entity
                                          (entities parsed)). lia. }
  destruct (String.eqb (intent parsed) "READ" || String.eqb (intent parsed) "QUERY")
    eqn:Hr.
  { rewrite (fallback_execute_read _ _ w nodes rels Hw).
    destruct (is_empty (entities parsed)); [|done].
    unfold _generate_fallback_response.
    cbn [success message result_intent data negb]. rewrite Hc, Hr.
    destruct w as [gm cs qs]. simpl in Hw. subst gm.
    unfold get_graph_statistics. unfold_M. done. }
  destruct (String.eqb (intent parsed) "UPDATE"); [done|].
  destruct (String.eqb (intent parsed) "DELETE"); done.
Qed.

End FallbackResponse.

(** ** [generate_suggestions] *)

(** X22. There are always between three and five suggestions, without
    repetition, and "Ask me about your knowledge graph" is always one of
    them; for a context without user profile (as every context retrieved
    without a driver) they are the four questions about the profile
    followed by that one. *)
Theorem suggestions_shape (context : retrieved) :
  (3 ≤ length (generate_suggestions context) ≤ 5)%nat
  ∧ NoDup (generate_suggestions context)
  ∧ "Ask me about your knowledge graph" ∈ generate_suggestions context
  ∧ ((∀ key, profile_has context key = false) →
     generate_suggestions context
     = ["Tell me about your skills or hobbies";
        "What are your current goals or aspirations?";
        "What do you like or dislike?";
        "Where do you work or study?";
        "Ask me about your knowledge graph"]).
Proof.
  unfold generate_suggestions.
  destruct (profile_has context "skills") eqn:H1,
           (profile_has context "goals") eqn:H2,
           (profile_has context "preferences") eqn:H3,
           (profile_has context "organizations") eqn:H4;
    (split_and!;
     [vm_compute; lia | vm_compute; lia
     | by apply (bool_decide_unpack _); vm_compute
     | by apply (bool_decide_unpack _); vm_compute
     | intros Hnone; rewrite ?Hnone in *; done]).
Qed.

(** ** [classify_intent] *)

Lemma intent_score_listed (user_input : string) :
  Forall (λ ik : string * list string,
            intent_score ik.1 user_input
            = keyword_score ik.2 (PyStr.lower user_input)) INTENT_KEYWORDS.
Proof. repeat constructor. Qed.

Lemma intent_score_nonneg (intent user_input : string) :
  0 ≤ intent_score intent user_input.
Proof.
  unfold intent_score. destruct (list_find _ _) as [[? [? keywords]]|]; [|done].
  unfold keyword_score. rewrite sum_of_ones. lia.
Qed.

(** X23. [classify_intent] always answers one of the five intents the
    executor knows.  A question mark gives QUERY, whatever else the input
    holds; without one the answer is the intent with the highest keyword
    score, and among intents of the same score the first in the order
    CREATE, READ, UPDATE, DELETE, QUERY: CREATE when no keyword occurs, and
    QUERY only with a score above all the others. *)
Theorem classify_intent_first_best (user_input : string) :
  let answer := classify_intent user_input in
  answer ∈ known_intents
  ∧ (str_in "?" user_input = true → answer = "QUERY")
  ∧ (str_in "?" user_input = false →
     ∃ before after,
       ["CREATE"; "READ"; "UPDATE"; "DELETE"; "QUERY"] = before ++ answer :: after
       ∧ Forall (λ i, intent_score i user_input < intent_score answer user_input)
                before
       ∧ Forall (λ i, intent_score i user_input ≤ intent_score answer user_input)
                after).
Proof.
  intros answer. subst answer. unfold classify_intent.
  destruct (str_in "?" user_input) eqn:Hq.
  { split; [set_solver|]. by split. }
  pose proof (intent_score_listed user_input) as Hscores.
  unfold INTENT_KEYWORDS in Hscores |- *.
  repeat (apply Forall_cons in Hscores as [? Hscores]).
  cbn [fst snd] in *.
  cbn [fmap list_fmap fst snd max_value max_key foldl].
  repeat match goal with
         | Hs : intent_score _ user_input = _ |- _ => rewrite <- Hs; clear Hs
         end.
  pose proof (intent_score_nonneg "CREATE" user_input).
  pose proof (intent_score_nonneg "READ" user_input).
  pose proof (intent_score_nonneg "UPDATE" user_input).
  pose proof (intent_score_nonneg "DELETE" user_input).
  pose proof (intent_score_nonneg "QUERY" user_input).
  remember (intent_score "CREATE" user_input) as c eqn:Hc.
  remember (intent_score "READ" user_input) as r eqn:Hr.
  remember (intent_score "UPDATE" user_input) as u eqn:Hu.
  remember (intent_score "DELETE" user_input) as d eqn:Hd.
  remember (intent_score "QUERY" user_input) as q eqn:Hquery.
  clear Hscores.
  destruct (0 <? _) eqn:Hpos; cycle 1.
  { split; [set_solver|]. split; [done|]. intros _.
    exists [], ["READ"; "UPDATE"; "DELETE"; "QUERY"]. split; [done|].
    apply Z.ltb_ge in Hpos. split; [done|].
    repeat constructor; cbv beta; rewrite <- ?Hc, <- ?Hr, <- ?Hu, <- ?Hd, <- ?Hquery; lia. }
  clear Hpos.
  destruct (Z.ltb_spec c r); cbn [fst snd];
    repeat match goal with
           | |- context [?a <? ?b] => destruct (Z.ltb_spec a b); cbn [fst snd]
           end;
    cbn [fmap option_fmap option_map default fst]; unfold id;
    (split; [set_solver|]); (split; [done|]); intros _;
    first
      [ exists [], ["READ"; "UPDATE"; "DELETE"; "QUERY"];
        split; [reflexivity|]; split; repeat constructor;
        cbv beta; rewrite <- ?Hc, <- ?Hr, <- ?Hu, <- ?Hd, <- ?Hquery; lia
      | exists ["CREATE"], ["UPDATE"; "DELETE"; "QUERY"];
        split; [reflexivity|]; split; repeat constructor;
        cbv beta; rewrite <- ?Hc, <- ?Hr, <- ?Hu, <- ?Hd, <- ?Hquery; lia
      | exists ["CREATE"; "READ"], ["DELETE"; "QUERY"];
        split; [reflexivity|]; split; repeat constructor;
        cbv beta; rewrite <- ?Hc, <- ?Hr, <- ?Hu, <- ?Hd, <- ?Hquery; lia
      | exists ["CREATE"; "READ"; "UPDATE"], ["QUERY"];
        split; [reflexivity|]; split; repeat constructor;
        cbv beta; rewrite <- ?Hc, <- ?Hr, <- ?Hu, <- ?Hd, <- ?Hquery; lia
      | exists ["CREATE"; "READ"; "UPDATE"; "DELETE"], [];
        split; [reflexivity|]; split; repeat constructor;
        cbv beta; rewrite <- ?Hc, <- ?Hr, <- ?Hu, <- ?Hd, <- ?Hquery; lia ].
Qed.

(** * Further scenarios *)

Lemma rejected_entity_has_no_effect_witness :
  let parsed := conversation "CREATE" [] [user_plays_guitar] in
  (float_lt (confidence thing) float_0_3 = true
   ∨ PyStr.strip (name thing) = ""
   ∨ PyStr.lower (name thing) ∈ generic_names)
  ∧ intent parsed ∈ ["CREATE"; "UPDATE"; "DELETE"]
  ∧ execute_parsed_conversation (with_entities parsed ([user] ++ thing :: [guitar]))
      guitar_world
    = execute_parsed_conversation (with_entities parsed ([user] ++ [guitar]))
        guitar_world.
Proof.
  intros parsed.
  assert (H1 : float_lt (confidence thing) float_0_3 = true
               ∨ PyStr.strip (name thing) = ""
               ∨ PyStr.lower (name thing) ∈ generic_names)
    by (right; right; vm_compute; apply list_elem_of_here).
  assert (H2 : intent parsed ∈ ["CREATE"; "UPDATE"; "DELETE"])
    by apply list_elem_of_here.
  exact (conj H1 (conj H2
           (rejected_entity_has_no_effect parsed [user] thing [guitar]
              guitar_world H1 H2))).
Defined.

Lemma rejected_relationship_has_no_effect_witness :
  let parsed := conversation "CREATE" [user; guitar] [] in
  (float_lt (rel_confidence self_relationship) float_0_3 = true
   ∨ PyStr.strip (from_entity self_relationship) = ""
   ∨ PyStr.strip (to_entity self_relationship) = ""
   ∨ PyStr.lower (from_entity self_relationship)
     = PyStr.lower (to_entity self_relationship))
  ∧ execute_parsed_conversation
      (with_relationships parsed ([] ++ self_relationship :: [user_plays_guitar]))
      guitar_world
    = execute_parsed_conversation
        (with_relationships parsed ([] ++ [user_plays_guitar])) guitar_world.
Proof.
  intros parsed.
  assert (H1 : float_lt (rel_confidence self_relationship) float_0_3 = true
               ∨ PyStr.strip (from_entity self_relationship) = ""
               ∨ PyStr.strip (to_entity self_relationship) = ""
               ∨ PyStr.lower (from_entity self_relationship)
                 = PyStr.lower (to_entity self_relationship))
    by (right; right; right; reflexivity).
  exact (conj H1
           (rejected_relationship_has_no_effect parsed [] self_relationship
              [user_plays_guitar] guitar_world H1)).
Defined.

Lemma unknown_intent_touches_nothing_witness :
  let parsed := conversation "create" [guitar] [] in
  (intent parsed ∉ known_intents)
  ∧ execute_parsed_conversation parsed guitar_world
    = ({| result_intent := "create"; success := false;
          message := "Unknown intent: create";
          entities_processed := 0; relationships_processed := 0;
          data := DataNone |}, guitar_world).
Proof.
  intros parsed.
  assert (H1 : intent parsed ∉ known_intents)
    by (apply (bool_decide_unpack _); vm_compute; exact I).
  exact (conj H1 (proj1 (unknown_intent_touches_nothing parsed guitar_world H1))).
Defined.

Lemma read_never_writes_witness :
  let parsed := conversation "READ" [guitar] [] in
  (intent parsed = "READ" ∨ intent parsed = "QUERY")
  ∧ reads_only (H := MemoryGraph.backend) (execute_parsed_conversation parsed).
Proof.
  intros parsed.
  assert (H1 : intent parsed = "READ" ∨ intent parsed = "QUERY")
    by (left; reflexivity).
  exact (conj H1 (read_never_writes (H := MemoryGraph.backend) parsed H1)).
Defined.

Lemma processed_counts_bounded_witness :
  let parsed := conversation "CREATE" [user; thing; guitar] [user_plays_guitar] in
  let r := (execute_parsed_conversation parsed guitar_world).1 in
  intent parsed ∈ ["CREATE"; "UPDATE"; "DELETE"]
  ∧ count_if _should_process_entity (entities parsed) = 2
  ∧ 0 ≤ entities_processed r ≤ count_if _should_process_entity (entities parsed)
  ∧ 0 ≤ relationships_processed r
        ≤ count_if _should_process_relationship (relationships parsed)
  ∧ result_intent r = intent parsed
  ∧ (success r = true ↔ 0 < entities_processed r ∨ 0 < relationships_processed r).
Proof.
  intros parsed r.
  assert (H1 : intent parsed ∈ ["CREATE"; "UPDATE"; "DELETE"])
    by apply list_elem_of_here.
  split; [exact H1|]. split; [reflexivity|].
  exact (processed_counts_bounded parsed guitar_world H1).
Defined.

Lemma fallback_create_drops_relationships_witness :
  let parsed := conversation "CREATE" [user; thing; guitar] [user_plays_guitar] in
  let out := execute_parsed_conversation parsed fallback_world in
  let accepted := count_if _should_process_entity (entities parsed) in
  graph_manager fallback_world = NoDriver [] []
  ∧ intent parsed = "CREATE"
  ∧ accepted = 2
  ∧ entities_processed out.1 = accepted
  ∧ relationships_processed out.1 = 0
  ∧ success out.1 = (0 <? accepted)
  ∧ (∃ nodes', graph_manager out.2 = NoDriver nodes' []
               ∧ (length (@nil node) ≤ length nodes'
                  ≤ length (@nil node) + Z.to_nat accepted)%nat)
  ∧ queries out.2 = queries fallback_world.
Proof.
  intros parsed out accepted.
  split; [reflexivity|]. split; [reflexivity|]. split; [reflexivity|].
  exact (fallback_create_drops_relationships parsed fallback_world [] []
           eq_refl eq_refl).
Defined.

Lemma fallback_only_create_works_witness :
  let parsed := conversation "DELETE" [guitar] [user_plays_guitar] in
  let out := execute_parsed_conversation parsed fallback_world in
  graph_manager fallback_world = NoDriver [] []
  ∧ (intent parsed ∈ ["UPDATE"; "DELETE"]
     ∨ (intent parsed ∈ ["READ"; "QUERY"] ∧ entities parsed ≠ []))
  ∧ success out.1 = false
  ∧ entities_processed out.1 = 0
  ∧ relationships_processed out.1 = 0
  ∧ graph_manager out.2 = NoDriver [] []
  ∧ queries out.2 = queries fallback_world.
Proof.
  intros parsed out.
  assert (H1 : intent parsed ∈ ["UPDATE"; "DELETE"]
               ∨ (intent parsed ∈ ["READ"; "QUERY"] ∧ entities parsed ≠ []))
    by (left; apply list_elem_of_further, list_elem_of_here).
  split; [reflexivity|]. split; [exact H1|].
  exact (fallback_only_create_works parsed fallback_world [] [] eq_refl H1).
Defined.

Lemma fallback_statistics_count_nodes_witness :
  let w := (create_or_update_node "Guitar" "Skill" ∅ fallback_world).2 in
  let nodes := [demo_new_node "Guitar" "Skill" ∅] in
  let out := get_graph_statistics w in
  let type_of (n : node) := default (SStr "Unknown") (n !! "type") in
  graph_manager w = NoDriver nodes []
  ∧ ∃ counts : list (scalar * Z),
      out.1 = Stats (Atom (SInt (Z.of_nat (length nodes))))
                    (Atom (SInt (Z.of_nat (length (@nil pydict)))))
                    ((λ kc : scalar * Z, (kc.1, Atom (SInt kc.2))) <$> counts) []
      ∧ sum_values counts = Z.of_nat (length nodes)
      ∧ NoDup counts.*1
      ∧ (∀ t : string,
           dict_get (SStr t) 0 counts
           = count_if (λ n, bool_decide (type_of n = SStr t)) nodes)
      ∧ graph_manager out.2 = NoDriver nodes []
      ∧ queries out.2 = queries w.
Proof.
  intros w nodes out type_of. split; [reflexivity|].
  exact (fallback_statistics_count_nodes w nodes [] eq_refl).
Defined.

Lemma fallback_names_stay_unique_witness :
  let props : node := {["level" := SStr "beginner"]} in
  props !! "name" = None
  ∧ graph_manager fallback_world = NoDriver [] []
  ∧ (∀ m, length (named m []) ≤ 1)%nat
  ∧ ∃ nodes',
      graph_manager (create_or_update_node "Guitar" "Skill" props fallback_world).2
      = NoDriver nodes' []
      ∧ (∀ m, length (named m nodes') ≤ 1)%nat
      ∧ length (named "Guitar" nodes') = 1%nat
      ∧ ∀ m, m ≠ "Guitar" → named m nodes' = named m [].
Proof.
  intros props.
  assert (H1 : props !! "name" = None) by reflexivity.
  assert (H3 : ∀ m, (length (named m []) ≤ 1)%nat) by (intros m; simpl; lia).
  split; [exact H1|]. split; [reflexivity|]. split; [exact H3|].
  exact (fallback_names_stay_unique "Guitar" "Skill" props fallback_world [] []
           H1 eq_refl H3).
Defined.

Lemma deduplicate_list_keeps_first_witness :
  Forall (λ item, hashable_identifier "name" item = true) found_items
  ∧ ∃ out,
      _deduplicate_list found_items "name" = Some out
      ∧ sublist out found_items
      ∧ Forall (λ item : pydict, get_truthy (item !! "name") = true) out
      ∧ ∀ s, s ≠ "" →
          filter (λ item, has_identifier "name" s item = true) out
          = take 1 (filter (λ item, has_identifier "name" s item = true)
                      found_items).
Proof.
  assert (H1 : Forall (λ item, hashable_identifier "name" item = true) found_items)
    by (repeat constructor).
  exact (conj H1 (deduplicate_list_keeps_first found_items "name" H1)).
Defined.

Lemma user_context_buckets_witness :
  ∃ ctx,
    (_get_user_context profile_world).1 = Some ctx
    ∧ length <$> ctx !! "skills" = Some 2%nat
    ∧ length <$> ctx !! "preferences" = Some 1%nat
    ∧ ∀ key,
        ctx !! key
        = if bool_decide (key ∈ user_context_keys)
          then Some (filter (λ rel, bucket_of rel = Some key)
                       (get_node_relationships (Atom (SStr "User"))
                          (get_node "User" profile_world).2).1)
          else None.
Proof.
  destruct (_get_user_context profile_world).1 as [ctx|] eqn:Hrun;
    [|by vm_compute in Hrun].
  exists ctx. split; [reflexivity|].
  pose proof (user_context_buckets profile_world ctx Hrun) as Hbuckets.
  cbn zeta in Hbuckets. split; [by rewrite Hbuckets|].
  split; [by rewrite Hbuckets|exact Hbuckets].
Defined.

Lemma fallback_retrieval_finds_nothing_witness :
  let out := retrieve_relevant_context "Tell me about Guitar" 5 fallback_world in
  graph_manager fallback_world = NoDriver [] []
  ∧ (∃ node_types,
       out.1 = Retrieved [] [] []
                 (Stats (Atom (SInt (Z.of_nat (length (@nil node)))))
                        (Atom (SInt (Z.of_nat (length (@nil pydict)))))
                        node_types [])
                 "Tell me about Guitar" None)
  ∧ graph_manager out.2 = NoDriver [] []
  ∧ queries out.2 = queries fallback_world.
Proof.
  intros out. split; [reflexivity|].
  exact (fallback_retrieval_finds_nothing "Tell me about Guitar" 5
           fallback_world [] [] eq_refl).
Defined.

Lemma created_node_is_shown_witness :
  let props : node := {["level" := SStr "beginner"]} in
  props !! "name" = None
  ∧ props !! "type" = None
  ∧ graph_manager fallback_world = NoDriver [] []
  ∧ ∃ nodes' shown,
      graph_manager (create_or_update_node "Guitar" "Skill" props fallback_world).2
      = NoDriver nodes' []
      ∧ shown ∈ shown_nodes (demo_graph_data nodes' [])
      ∧ shown_id shown = SStr "Guitar"
      ∧ shown_label shown = SStr "Guitar"
      ∧ shown_type shown = SStr "Skill"
      ∧ shown_color shown = default "#BDC3C7" (NODE_COLORS !! "Skill")
      ∧ (∀ k v, props !! k = Some v → k ≠ "created_at" → k ≠ "updated_at" →
                shown_properties shown !! k = Some v)
      ∧ shown_properties shown !! "name" = None
      ∧ shown_properties shown !! "type" = None
      ∧ total_nodes (demo_graph_data nodes' []) = Z.of_nat (length nodes')
      ∧ shown_edges (demo_graph_data nodes' []) = [].
Proof.
  intros props.
  split; [reflexivity|]. split; [reflexivity|]. split; [reflexivity|].
  exact (created_node_is_shown "Guitar" "Skill" props fallback_world [] []
           eq_refl eq_refl eq_refl).
Defined.

Lemma fallback_response_without_driver_witness :
  let parsed := conversation "CREATE" [user; thing; guitar] [user_plays_guitar] in
  graph_manager fallback_world = NoDriver [] []
  ∧ _generate_fallback_response str_of_count
      (execute_parsed_conversation parsed fallback_world).1
    = "I've added 2 new entities and 0 relationships to your knowledge graph!".
Proof.
  intros parsed. split; [reflexivity|].
  exact (fallback_response_without_driver str_of_count parsed fallback_world
           [] [] eq_refl).
Defined.
